(** * go-transmission: a shallow embedding of the RPC client

    The Go package [transmission] is embedded function by function.
    Go integers are [Z]; none of the embedded functions does arithmetic on
    them, so no wrap-around is written out.  Go strings are byte strings
    ([string]); slices are lists (a nil slice and an empty slice are both
    [[]], which is how the code and encoding/json treat them); pointers
    that may be nil are [option]; a nil dereference is the outcome
    [Panicked].  [float32] and [float64] fields hold rationals: a value
    decoded from JSON is always finite. *)

From Stdlib Require Import ZArith QArith List String Ascii Bool Lia.
From Stdlib Require Import Permutation Sorted OrderedTypeEx.
Import ListNotations.

Local Open Scope string_scope.
Local Open Scope list_scope.
Local Open Scope Z_scope.

(* ================================================================== *)
(** * status.go *)

Definition Status := Z.

Definition TrStopped : Status := 0.
Definition TrCheckPending : Status := 1.
Definition TrChecking : Status := 2.
Definition TrDownloadPending : Status := 3.
Definition TrDownloading : Status := 4.
Definition TrSeedPending : Status := 5.
Definition TrSeeding : Status := 6.

(** [func (ts Status) String() string]: the switch tries the cases in
    order and falls to [default]. *)
Definition Status_String (ts : Status) : string :=
  if ts =? TrStopped then "Stopped"
  else if ts =? TrCheckPending then "Check waiting"
  else if ts =? TrChecking then "Checking"
  else if ts =? TrDownloadPending then "Download waiting"
  else if ts =? TrDownloading then "Downloading"
  else if ts =? TrSeedPending then "Seed waiting"
  else if ts =? TrSeeding then "Seeding"
  else "unknown".

(** [func (ts Status) IsStarted() bool] *)
Definition Status_IsStarted (ts : Status) : bool :=
  (ts =? TrChecking) || (ts =? TrDownloadPending) || (ts =? TrDownloading)
  || (ts =? TrSeedPending) || (ts =? TrSeeding).

(** The table the switch of [String] implements, used to state its
    behaviour on the enumerated values. *)
Definition status_names : list (Status * string) :=
  [ (TrStopped, "Stopped"); (TrCheckPending, "Check waiting");
    (TrChecking, "Checking"); (TrDownloadPending, "Download waiting");
    (TrDownloading, "Downloading"); (TrSeedPending, "Seed waiting");
    (TrSeeding, "Seeding") ].

(* ================================================================== *)
(** * transmission.go: the data model *)

Definition float32 := Q.
Definition float64 := Q.
Definition bytes := list Byte.byte.

(** Go's [error] values.  [ErrNoTorrent] is the package's own sentinel,
    [errors.New("No torrent with that id")]; the other constructors stand
    for the errors handed back by encoding/json, by the transport and by
    the file system. *)
Inductive error : Type :=
| ErrNoTorrent
| SerializationError (msg : string)
| TransportError (msg : string)
| LocalIOError (msg : string).

Record peer := {
  peer_Address : string;
  peer_Name : string;
  peer_Port : Z;
  peer_RateToPeer : Z;
  peer_RateToClient : Z;
  peer_Progress : float32;
  peer_Flags : string;
  peer_IsEncrypted : bool;
  peer_IsUTP : bool;
  peer_IsUploadingTo : bool;
  peer_IsIncoming : bool;
  peer_IsDownloadingFrom : bool;
  peer_PeerIsInterested : bool;
  peer_PeerIsChoked : bool;
  peer_ClientIsInterested : bool;
  peer_ClientIsChoked : bool
}.

Definition peers := list peer.

Record tracker := {
  tracker_Announce : string;
  tracker_Id : Z;
  tracker_Scrape : string;
  tracker_Tire : Z
}.

Record trackerStat := {
  trackerStat_Announce : string;
  trackerStat_AnnounceState : Z;
  trackerStat_DownloadCount : Z;
  trackerStat_HasAnnounced : bool;
  trackerStat_HasScraped : bool;
  trackerStat_Host : string;
  trackerStat_ID : Z;
  trackerStat_IsBackup : bool;
  trackerStat_LastAnnouncePeerCount : Z;
  trackerStat_LastAnnounceResult : string;
  trackerStat_LastAnnounceStartTime : Z;
  trackerStat_LastAnnounceSucceeded : bool;
  trackerStat_LastAnnounceTime : Z;
  trackerStat_LastAnnounceTimedOut : bool;
  trackerStat_LastScrapeResult : string;
  trackerStat_LastScrapeStartTime : Z;
  trackerStat_LastScrapeSucceeded : bool;
  trackerStat_LastScrapeTime : Z;
  trackerStat_LastScrapeTimedOut : Z;
  trackerStat_LeecherCount : Z;
  trackerStat_NextAnnounceTime : Z;
  trackerStat_NextScrapeTime : Z;
  trackerStat_Scrape : string;
  trackerStat_ScrapeState : Z;
  trackerStat_SeederCount : Z;
  trackerStat_Tier : Z
}.

Definition trackers := list tracker.

Record TorrentAdded := {
  TorrentAdded_HashString : string;
  TorrentAdded_ID : Z;
  TorrentAdded_Name : string
}.

Record cumulativeStats := {
  cumulativeStats_DownloadedBytes : Z;
  cumulativeStats_FilesAdded : Z;
  cumulativeStats_SecondsActive : Z;
  cumulativeStats_SessionCount : Z;
  cumulativeStats_UploadedBytes : Z
}.

Record currentStats := {
  currentStats_DownloadedBytes : Z;
  currentStats_FilesAdded : Z;
  currentStats_SecondsActive : Z;
  currentStats_SessionCount : Z;
  currentStats_UploadedBytes : Z
}.

Record Stats := {
  Stats_ActiveTorrentCount : Z;
  Stats_CumulativeStats : cumulativeStats;
  Stats_CurrentStats : currentStats;
  Stats_DownloadSpeed : Z;
  Stats_PausedTorrentCount : Z;
  Stats_TorrentCount : Z;
  Stats_UploadSpeed : Z
}.

Record File := {
  File_Completed : Z;
  File_Size : Z;
  File_Name : string
}.

Definition Files := list File.

Record Torrent := {
  Torrent_ID : Z;
  Torrent_Name : string;
  Torrent_Status : Status;
  Torrent_AddedDate : Z;
  Torrent_StartDate : Z;
  Torrent_DoneDate : Z;
  Torrent_LeftUntilDone : Z;
  Torrent_SizeWhenDone : Z;
  Torrent_Eta : Z;
  Torrent_UploadRatio : float64;
  Torrent_RateDownload : Z;
  Torrent_RateUpload : Z;
  Torrent_DownloadDir : string;
  Torrent_DownloadedEver : Z;
  Torrent_UploadedEver : Z;
  Torrent_HaveUnchecked : Z;
  Torrent_HaveValid : Z;
  Torrent_IsFinished : bool;
  Torrent_PercentDone : float32;
  Torrent_SeedRatioMode : Z;
  Torrent_Files : Files;
  Torrent_Peers : peers;
  Torrent_Trackers : trackers;
  Torrent_TrackerStats : list trackerStat;
  Torrent_Error : Z;
  Torrent_ErrorString : string;
  Torrent_InfoHash : string;
  Torrent_TotalSize : Z;
  Torrent_DownloadSeconds : Z;
  Torrent_SeedSeconds : Z
}.

(** [type Torrents []*Torrent]: an entry is a pointer and may be nil. *)
Definition Torrents := list (option Torrent).

Record arguments := {
  arguments_Fields : list string;
  arguments_Torrents : Torrents;
  arguments_Ids : list string;
  arguments_DeleteData : bool;
  arguments_DownloadDir : string;
  arguments_MetaInfo : string;
  arguments_Filename : string;
  arguments_TorrentAdded : TorrentAdded;
  arguments_TorrentDuplicate : TorrentAdded;
  arguments_ActiveTorrentCount : Z;
  arguments_CumulativeStats : cumulativeStats;
  arguments_CurrentStats : currentStats;
  arguments_DownloadSpeed : Z;
  arguments_PausedTorrentCount : Z;
  arguments_TorrentCount : Z;
  arguments_UploadSpeed : Z;
  arguments_Version : string
}.

Record Command := {
  Command_Method : string;
  Command_Arguments : arguments;
  Command_Result : string
}.

(** ** Zero values ([T{}]) *)

Definition zero_TorrentAdded : TorrentAdded :=
  {| TorrentAdded_HashString := ""; TorrentAdded_ID := 0;
     TorrentAdded_Name := "" |}.

Definition zero_cumulativeStats : cumulativeStats :=
  {| cumulativeStats_DownloadedBytes := 0; cumulativeStats_FilesAdded := 0;
     cumulativeStats_SecondsActive := 0; cumulativeStats_SessionCount := 0;
     cumulativeStats_UploadedBytes := 0 |}.

Definition zero_currentStats : currentStats :=
  {| currentStats_DownloadedBytes := 0; currentStats_FilesAdded := 0;
     currentStats_SecondsActive := 0; currentStats_SessionCount := 0;
     currentStats_UploadedBytes := 0 |}.

Definition zero_Torrent : Torrent :=
  {| Torrent_ID := 0; Torrent_Name := ""; Torrent_Status := 0;
     Torrent_AddedDate := 0; Torrent_StartDate := 0; Torrent_DoneDate := 0;
     Torrent_LeftUntilDone := 0; Torrent_SizeWhenDone := 0; Torrent_Eta := 0;
     Torrent_UploadRatio := 0%Q; Torrent_RateDownload := 0;
     Torrent_RateUpload := 0; Torrent_DownloadDir := "";
     Torrent_DownloadedEver := 0; Torrent_UploadedEver := 0;
     Torrent_HaveUnchecked := 0; Torrent_HaveValid := 0;
     Torrent_IsFinished := false; Torrent_PercentDone := 0%Q;
     Torrent_SeedRatioMode := 0; Torrent_Files := []; Torrent_Peers := [];
     Torrent_Trackers := []; Torrent_TrackerStats := []; Torrent_Error := 0;
     Torrent_ErrorString := ""; Torrent_InfoHash := ""; Torrent_TotalSize := 0;
     Torrent_DownloadSeconds := 0; Torrent_SeedSeconds := 0 |}.

Definition zero_arguments : arguments :=
  {| arguments_Fields := []; arguments_Torrents := []; arguments_Ids := [];
     arguments_DeleteData := false; arguments_DownloadDir := "";
     arguments_MetaInfo := ""; arguments_Filename := "";
     arguments_TorrentAdded := zero_TorrentAdded;
     arguments_TorrentDuplicate := zero_TorrentAdded;
     arguments_ActiveTorrentCount := 0;
     arguments_CumulativeStats := zero_cumulativeStats;
     arguments_CurrentStats := zero_currentStats;
     arguments_DownloadSpeed := 0; arguments_PausedTorrentCount := 0;
     arguments_TorrentCount := 0; arguments_UploadSpeed := 0;
     arguments_Version := "" |}.

Definition zero_Command : Command :=
  {| Command_Method := ""; Command_Arguments := zero_arguments;
     Command_Result := "" |}.

(** ** Field assignments ([cmd.Arguments.X = v]) *)

Definition set_Method (m : string) (c : Command) : Command :=
  {| Command_Method := m; Command_Arguments := Command_Arguments c;
     Command_Result := Command_Result c |}.

Definition set_Arguments (a : arguments) (c : Command) : Command :=
  {| Command_Method := Command_Method c; Command_Arguments := a;
     Command_Result := Command_Result c |}.

Definition with_Fields (v : list string) (a : arguments) : arguments :=
  {| arguments_Fields := v; arguments_Torrents := arguments_Torrents a;
     arguments_Ids := arguments_Ids a;
     arguments_DeleteData := arguments_DeleteData a;
     arguments_DownloadDir := arguments_DownloadDir a;
     arguments_MetaInfo := arguments_MetaInfo a;
     arguments_Filename := arguments_Filename a;
     arguments_TorrentAdded := arguments_TorrentAdded a;
     arguments_TorrentDuplicate := arguments_TorrentDuplicate a;
     arguments_ActiveTorrentCount := arguments_ActiveTorrentCount a;
     arguments_CumulativeStats := arguments_CumulativeStats a;
     arguments_CurrentStats := arguments_CurrentStats a;
     arguments_DownloadSpeed := arguments_DownloadSpeed a;
     arguments_PausedTorrentCount := arguments_PausedTorrentCount a;
     arguments_TorrentCount := arguments_TorrentCount a;
     arguments_UploadSpeed := arguments_UploadSpeed a;
     arguments_Version := arguments_Version a |}.

Definition with_Ids (v : list string) (a : arguments) : arguments :=
  {| arguments_Fields := arguments_Fields a;
     arguments_Torrents := arguments_Torrents a;
     arguments_Ids := v;
     arguments_DeleteData := arguments_DeleteData a;
     arguments_DownloadDir := arguments_DownloadDir a;
     arguments_MetaInfo := arguments_MetaInfo a;
     arguments_Filename := arguments_Filename a;
     arguments_TorrentAdded := arguments_TorrentAdded a;
     arguments_TorrentDuplicate := arguments_TorrentDuplicate a;
     arguments_ActiveTorrentCount := arguments_ActiveTorrentCount a;
     arguments_CumulativeStats := arguments_CumulativeStats a;
     arguments_CurrentStats := arguments_CurrentStats a;
     arguments_DownloadSpeed := arguments_DownloadSpeed a;
     arguments_PausedTorrentCount := arguments_PausedTorrentCount a;
     arguments_TorrentCount := arguments_TorrentCount a;
     arguments_UploadSpeed := arguments_UploadSpeed a;
     arguments_Version := arguments_Version a |}.

Definition with_DeleteData (v : bool) (a : arguments) : arguments :=
  {| arguments_Fields := arguments_Fields a;
     arguments_Torrents := arguments_Torrents a;
     arguments_Ids := arguments_Ids a;
     arguments_DeleteData := v;
     arguments_DownloadDir := arguments_DownloadDir a;
     arguments_MetaInfo := arguments_MetaInfo a;
     arguments_Filename := arguments_Filename a;
     arguments_TorrentAdded := arguments_TorrentAdded a;
     arguments_TorrentDuplicate := arguments_TorrentDuplicate a;
     arguments_ActiveTorrentCount := arguments_ActiveTorrentCount a;
     arguments_CumulativeStats := arguments_CumulativeStats a;
     arguments_CurrentStats := arguments_CurrentStats a;
     arguments_DownloadSpeed := arguments_DownloadSpeed a;
     arguments_PausedTorrentCount := arguments_PausedTorrentCount a;
     arguments_TorrentCount := arguments_TorrentCount a;
     arguments_UploadSpeed := arguments_UploadSpeed a;
     arguments_Version := arguments_Version a |}.

Definition with_DownloadDir (v : string) (a : arguments) : arguments :=
  {| arguments_Fields := arguments_Fields a;
     arguments_Torrents := arguments_Torrents a;
     arguments_Ids := arguments_Ids a;
     arguments_DeleteData := arguments_DeleteData a;
     arguments_DownloadDir := v;
     arguments_MetaInfo := arguments_MetaInfo a;
     arguments_Filename := arguments_Filename a;
     arguments_TorrentAdded := arguments_TorrentAdded a;
     arguments_TorrentDuplicate := arguments_TorrentDuplicate a;
     arguments_ActiveTorrentCount := arguments_ActiveTorrentCount a;
     arguments_CumulativeStats := arguments_CumulativeStats a;
     arguments_CurrentStats := arguments_CurrentStats a;
     arguments_DownloadSpeed := arguments_DownloadSpeed a;
     arguments_PausedTorrentCount := arguments_PausedTorrentCount a;
     arguments_TorrentCount := arguments_TorrentCount a;
     arguments_UploadSpeed := arguments_UploadSpeed a;
     arguments_Version := arguments_Version a |}.

Definition with_MetaInfo (v : string) (a : arguments) : arguments :=
  {| arguments_Fields := arguments_Fields a;
     arguments_Torrents := arguments_Torrents a;
     arguments_Ids := arguments_Ids a;
     arguments_DeleteData := arguments_DeleteData a;
     arguments_DownloadDir := arguments_DownloadDir a;
     arguments_MetaInfo := v;
     arguments_Filename := arguments_Filename a;
     arguments_TorrentAdded := arguments_TorrentAdded a;
     arguments_TorrentDuplicate := arguments_TorrentDuplicate a;
     arguments_ActiveTorrentCount := arguments_ActiveTorrentCount a;
     arguments_CumulativeStats := arguments_CumulativeStats a;
     arguments_CurrentStats := arguments_CurrentStats a;
     arguments_DownloadSpeed := arguments_DownloadSpeed a;
     arguments_PausedTorrentCount := arguments_PausedTorrentCount a;
     arguments_TorrentCount := arguments_TorrentCount a;
     arguments_UploadSpeed := arguments_UploadSpeed a;
     arguments_Version := arguments_Version a |}.

Definition with_Filename (v : string) (a : arguments) : arguments :=
  {| arguments_Fields := arguments_Fields a;
     arguments_Torrents := arguments_Torrents a;
     arguments_Ids := arguments_Ids a;
     arguments_DeleteData := arguments_DeleteData a;
     arguments_DownloadDir := arguments_DownloadDir a;
     arguments_MetaInfo := arguments_MetaInfo a;
     arguments_Filename := v;
     arguments_TorrentAdded := arguments_TorrentAdded a;
     arguments_TorrentDuplicate := arguments_TorrentDuplicate a;
     arguments_ActiveTorrentCount := arguments_ActiveTorrentCount a;
     arguments_CumulativeStats := arguments_CumulativeStats a;
     arguments_CurrentStats := arguments_CurrentStats a;
     arguments_DownloadSpeed := arguments_DownloadSpeed a;
     arguments_PausedTorrentCount := arguments_PausedTorrentCount a;
     arguments_TorrentCount := arguments_TorrentCount a;
     arguments_UploadSpeed := arguments_UploadSpeed a;
     arguments_Version := arguments_Version a |}.

(** [cmd.Arguments.X = v] on a command. *)
Definition upd_Arguments (f : arguments -> arguments) (c : Command) : Command :=
  set_Arguments (f (Command_Arguments c)) c.

(* ================================================================== *)
(** * encoding/base64: [base64.StdEncoding.EncodeToString] *)

Module base64.

Definition encodeStd : string :=
  "ABCDEFGHIJKLMNOPQRSTUVWXYZabcdefghijklmnopqrstuvwxyz0123456789+/".

Definition StdPadding : ascii := "="%char.

(** [enc.encode[v & 0x3F]] *)
Definition encode (v : Z) : ascii :=
  nth (Z.to_nat (Z.land v 63)) (list_ascii_of_string encodeStd) StdPadding.

Definition byteZ (b : Byte.byte) : Z := Z.of_N (Byte.to_N b).

(** Three source bytes give four characters; a final group of one or
    two bytes is padded with '='. *)
Fixpoint EncodeToString (src : bytes) : string :=
  match src with
  | [] => ""
  | [a] =>
      let val := Z.shiftl (byteZ a) 16 in
      String (encode (Z.shiftr val 18))
        (String (encode (Z.shiftr val 12))
           (String StdPadding (String StdPadding "")))
  | [a; b] =>
      let val := Z.lor (Z.shiftl (byteZ a) 16) (Z.shiftl (byteZ b) 8) in
      String (encode (Z.shiftr val 18))
        (String (encode (Z.shiftr val 12))
           (String (encode (Z.shiftr val 6)) (String StdPadding "")))
  | a :: b :: c :: rest =>
      let val :=
        Z.lor (Z.lor (Z.shiftl (byteZ a) 16) (Z.shiftl (byteZ b) 8))
              (byteZ c) in
      String (encode (Z.shiftr val 18))
        (String (encode (Z.shiftr val 12))
           (String (encode (Z.shiftr val 6))
              (String (encode val) (EncodeToString rest))))
  end.

End base64.

(* ================================================================== *)
(** * sort.go *)

(** Modelled from the spec: the declaration of [Sorting] and its constants
    is not among the sources.  The constants are the ones the switch of
    [GetTorrents] names, "a fixed enumeration of sort modes". *)
Inductive Sorting : Type :=
| SortID | SortRevID
| SortName | SortRevName
| SortAge | SortRevAge
| SortSize | SortRevSize
| SortProgress | SortRevProgress
| SortDownSpeed | SortRevDownSpeed
| SortUpSpeed | SortRevUpSpeed
| SortDownloaded | SortRevDownloaded
| SortUploaded | SortRevUploaded
| SortRatio | SortRevRatio.

(** Go's [<] on two finite floats. *)
Definition Qltb (x y : Q) : bool := negb (Qle_bool y x).

Section Sort.
Context {A : Type}.
Variable less : A -> A -> bool.

(** Modelled from the spec: the comparison sort behind the sort methods,
    here by insertion. *)
Fixpoint insert_sorted (x : A) (l : list A) : list A :=
  match l with
  | [] => [x]
  | y :: l' => if less x y then x :: l else y :: insert_sorted x l'
  end.

(** Modelled from the spec: the list in the order of [less]. *)
Fixpoint sort_by (l : list A) : list A :=
  match l with
  | [] => []
  | x :: l' => insert_sorted x (sort_by l')
  end.
End Sort.

(** Modelled from the spec: the descending direction, [sort.Reverse], is
    the comparison with its arguments exchanged. *)
Definition reverse_less {A : Type} (less : A -> A -> bool) (x y : A) : bool :=
  less y x.

(** Every pointer of the slice followed, or [None] if one is nil. *)
Fixpoint deref_all (t : Torrents) : option (list Torrent) :=
  match t with
  | [] => Some []
  | None :: _ => None
  | Some x :: t' =>
      match deref_all t' with
      | Some xs => Some (x :: xs)
      | None => None
      end
  end.

(** Modelled from the spec: the sort methods of [Torrents] are not among
    the sources.  The spec has them "order an already-fetched torrent
    collection by a selected key (id, name, age/added-date, size, progress,
    download rate, upload rate, downloaded bytes, uploaded bytes, ratio),
    ascending or descending (reverse)", by a comparison sort with no
    tie-break beyond the compared key.  The comparison reads the key through
    the two pointers it compares; a slice of fewer than two entries is not
    compared at all.  [None] is a nil dereference. *)
Definition sort_Torrents (less : Torrent -> Torrent -> bool) (reverse : bool)
    (t : Torrents) : option Torrents :=
  match t with
  | [] | [_] => Some t
  | _ =>
      match deref_all t with
      | Some ts =>
          Some (map Some
                  (sort_by (if reverse then reverse_less less else less) ts))
      | None => None
      end
  end.

(** Modelled from the spec: the comparisons behind the sort methods, one
    for each key the spec lists; "size" is read as the size when done and
    "age" as the added date.  A comparison is Go's [<] on the two keys. *)
Definition byID (a b : Torrent) : bool := Torrent_ID a <? Torrent_ID b.
Definition byName (a b : Torrent) : bool :=
  String.ltb (Torrent_Name a) (Torrent_Name b).
Definition byAge (a b : Torrent) : bool :=
  Torrent_AddedDate a <? Torrent_AddedDate b.
Definition bySize (a b : Torrent) : bool :=
  Torrent_SizeWhenDone a <? Torrent_SizeWhenDone b.
Definition byProgress (a b : Torrent) : bool :=
  Qltb (Torrent_PercentDone a) (Torrent_PercentDone b).
Definition byDownSpeed (a b : Torrent) : bool :=
  Torrent_RateDownload a <? Torrent_RateDownload b.
Definition byUpSpeed (a b : Torrent) : bool :=
  Torrent_RateUpload a <? Torrent_RateUpload b.
Definition byDownloaded (a b : Torrent) : bool :=
  Torrent_DownloadedEver a <? Torrent_DownloadedEver b.
Definition byUploaded (a b : Torrent) : bool :=
  Torrent_UploadedEver a <? Torrent_UploadedEver b.
Definition byRatio (a b : Torrent) : bool :=
  Qltb (Torrent_UploadRatio a) (Torrent_UploadRatio b).

(** Modelled from the spec: the sort methods [GetTorrents] calls, each
    the sort by its key. *)
Definition Torrents_SortID := sort_Torrents byID.
Definition Torrents_SortName := sort_Torrents byName.
Definition Torrents_SortAge := sort_Torrents byAge.
Definition Torrents_SortSize := sort_Torrents bySize.
Definition Torrents_SortProgress := sort_Torrents byProgress.
Definition Torrents_SortDownSpeed := sort_Torrents byDownSpeed.
Definition Torrents_SortUpSpeed := sort_Torrents byUpSpeed.
Definition Torrents_SortDownloaded := sort_Torrents byDownloaded.
Definition Torrents_SortUploaded := sort_Torrents byUploaded.
Definition Torrents_SortRatio := sort_Torrents byRatio.

(** What the sort needs of a comparison: it never holds both ways, and
    "not greater" is transitive. *)
Record StrictWeakOrder {A : Type} (less : A -> A -> bool) : Prop := {
  less_asym : forall a b, less a b = true -> less b a = false;
  less_negtrans :
    forall a b c, less b a = false -> less c b = false -> less c a = false
}.

(** Non-decreasing: no entry is less than one before it.  Non-increasing:
    no entry is greater than one before it. *)
Definition non_decreasing {A : Type} (less : A -> A -> bool) (l : list A)
  : Prop :=
  StronglySorted (fun a b => less b a = false) l.

Definition non_increasing {A : Type} (less : A -> A -> bool) (l : list A)
  : Prop :=
  StronglySorted (fun a b => less a b = false) l.

(** Pairwise-distinct keys: any two entries at different positions
    compare strictly, one way or the other. *)
Definition distinct_keys {A : Type} (less : A -> A -> bool) (l : list A)
  : Prop :=
  ForallOrdPairs (fun a b => less a b = true \/ less b a = true) l.

(** The comparison, the direction and the reverse pair of a sort mode. *)
Definition Sorting_less (st : Sorting) : Torrent -> Torrent -> bool :=
  match st with
  | SortID | SortRevID => byID
  | SortName | SortRevName => byName
  | SortAge | SortRevAge => byAge
  | SortSize | SortRevSize => bySize
  | SortProgress | SortRevProgress => byProgress
  | SortDownSpeed | SortRevDownSpeed => byDownSpeed
  | SortUpSpeed | SortRevUpSpeed => byUpSpeed
  | SortDownloaded | SortRevDownloaded => byDownloaded
  | SortUploaded | SortRevUploaded => byUploaded
  | SortRatio | SortRevRatio => byRatio
  end.

Definition Sorting_reverse (st : Sorting) : bool :=
  match st with
  | SortRevID | SortRevName | SortRevAge | SortRevSize | SortRevProgress
  | SortRevDownSpeed | SortRevUpSpeed | SortRevDownloaded | SortRevUploaded
  | SortRevRatio => true
  | _ => false
  end.

Definition reverse_pair (st : Sorting) : Sorting :=
  match st with
  | SortID => SortRevID | SortRevID => SortID
  | SortName => SortRevName | SortRevName => SortName
  | SortAge => SortRevAge | SortRevAge => SortAge
  | SortSize => SortRevSize | SortRevSize => SortSize
  | SortProgress => SortRevProgress | SortRevProgress => SortProgress
  | SortDownSpeed => SortRevDownSpeed | SortRevDownSpeed => SortDownSpeed
  | SortUpSpeed => SortRevUpSpeed | SortRevUpSpeed => SortUpSpeed
  | SortDownloaded => SortRevDownloaded | SortRevDownloaded => SortDownloaded
  | SortUploaded => SortRevUploaded | SortRevUploaded => SortUploaded
  | SortRatio => SortRevRatio | SortRevRatio => SortRatio
  end.

(** Ordered by the key of the mode, in the direction of the mode. *)
Definition ordered_by (st : Sorting) (l : list Torrent) : Prop :=
  if Sorting_reverse st then non_increasing (Sorting_less st) l
  else non_decreasing (Sorting_less st) l.

(* ================================================================== *)
(** * The wire form: encoding/json applied to the struct tags *)

#[local] Set Warnings "-register-all".

(** A JSON document; an object keeps its members in the order they are
    written. *)
Inductive json : Type :=
| JNull
| JBool (b : bool)
| JInt (n : Z)
| JFloat (q : Q)
| JString (s : string)
| JArray (elems : list json)
| JObject (members : list (string * json)).

(** A member whose tag has no [omitempty] is always written. *)
Definition member (key : string) (v : json) : list (string * json) :=
  [(key, v)].

(** [omitempty] on a string, a bool and a slice: the member is left out
    when the value is [""], [false] or of length 0. *)
Definition member_omitempty_string (key : string) (s : string)
  : list (string * json) :=
  if String.eqb s "" then [] else [(key, JString s)].

Definition member_omitempty_bool (key : string) (b : bool)
  : list (string * json) :=
  if b then [(key, JBool true)] else [].

Definition member_omitempty_slice (key : string) (elems : list json)
  : list (string * json) :=
  match elems with
  | [] => []
  | _ => [(key, JArray elems)]
  end.

Definition encode_File (f : File) : json :=
  JObject [ ("bytesCompleted", JInt (File_Completed f));
            ("length", JInt (File_Size f));
            ("name", JString (File_Name f)) ].

Definition encode_peer (p : peer) : json :=
  JObject [ ("address", JString (peer_Address p));
            ("clientName", JString (peer_Name p));
            ("port", JInt (peer_Port p));
            ("rateToPeer", JInt (peer_RateToPeer p));
            ("rateToClient", JInt (peer_RateToClient p));
            ("progress", JFloat (peer_Progress p));
            ("flagStr", JString (peer_Flags p));
            ("isEncrypted", JBool (peer_IsEncrypted p));
            ("isUTP", JBool (peer_IsUTP p));
            ("isUploadingTo", JBool (peer_IsUploadingTo p));
            ("isIncoming", JBool (peer_IsIncoming p));
            ("isDownloadingFrom", JBool (peer_IsDownloadingFrom p));
            ("peerIsInterested", JBool (peer_PeerIsInterested p));
            ("peerIsChoked", JBool (peer_PeerIsChoked p));
            ("clientIsInterested", JBool (peer_ClientIsInterested p));
            ("clientIsChoked", JBool (peer_ClientIsChoked p)) ].

Definition encode_tracker (t : tracker) : json :=
  JObject [ ("announce", JString (tracker_Announce t));
            ("id", JInt (tracker_Id t));
            ("scrape", JString (tracker_Scrape t));
            ("tire", JInt (tracker_Tire t)) ].

Definition encode_trackerStat (t : trackerStat) : json :=
  JObject [ ("announce", JString (trackerStat_Announce t));
            ("announceState", JInt (trackerStat_AnnounceState t));
            ("downloadCount", JInt (trackerStat_DownloadCount t));
            ("hasAnnounced", JBool (trackerStat_HasAnnounced t));
            ("hasScraped", JBool (trackerStat_HasScraped t));
            ("host", JString (trackerStat_Host t));
            ("id", JInt (trackerStat_ID t));
            ("isBackup", JBool (trackerStat_IsBackup t));
            ("lastAnnouncePeerCount",
              JInt (trackerStat_LastAnnouncePeerCount t));
            ("lastAnnounceResult", JString (trackerStat_LastAnnounceResult t));
            ("lastAnnounceStartTime",
              JInt (trackerStat_LastAnnounceStartTime t));
            ("lastAnnounceSucceeded",
              JBool (trackerStat_LastAnnounceSucceeded t));
            ("lastAnnounceTime", JInt (trackerStat_LastAnnounceTime t));
            ("lastAnnounceTimedOut",
              JBool (trackerStat_LastAnnounceTimedOut t));
            ("lastScrapeResult", JString (trackerStat_LastScrapeResult t));
            ("lastScrapeStartTime", JInt (trackerStat_LastScrapeStartTime t));
            ("lastScrapeSucceeded",
              JBool (trackerStat_LastScrapeSucceeded t));
            ("lastScrapeTime", JInt (trackerStat_LastScrapeTime t));
            ("lastScrapeTimedOut", JInt (trackerStat_LastScrapeTimedOut t));
            ("leecherCount", JInt (trackerStat_LeecherCount t));
            ("nextAnnounceTime", JInt (trackerStat_NextAnnounceTime t));
            ("nextScrapeTime", JInt (trackerStat_NextScrapeTime t));
            ("scrape", JString (trackerStat_Scrape t));
            ("scrapeState", JInt (trackerStat_ScrapeState t));
            ("seederCount", JInt (trackerStat_SeederCount t));
            ("tier", JInt (trackerStat_Tier t)) ].

(** A slice without [omitempty] is written as an array.  (encoding/json
    writes [null] for a nil slice; lists do not tell nil from empty, and
    these members only occur inside a torrent object.) *)
Definition encode_slice {A : Type} (enc : A -> json) (l : list A) : json :=
  JArray (map enc l).

Definition encode_Torrent (t : Torrent) : json :=
  JObject [ ("id", JInt (Torrent_ID t));
            ("name", JString (Torrent_Name t));
            ("status", JInt (Torrent_Status t));
            ("addedDate", JInt (Torrent_AddedDate t));
            ("startDate", JInt (Torrent_StartDate t));
            ("doneDate", JInt (Torrent_DoneDate t));
            ("leftUntilDone", JInt (Torrent_LeftUntilDone t));
            ("sizeWhenDone", JInt (Torrent_SizeWhenDone t));
            ("eta", JInt (Torrent_Eta t));
            ("uploadRatio", JFloat (Torrent_UploadRatio t));
            ("rateDownload", JInt (Torrent_RateDownload t));
            ("rateUpload", JInt (Torrent_RateUpload t));
            ("downloadDir", JString (Torrent_DownloadDir t));
            ("downloadedEver", JInt (Torrent_DownloadedEver t));
            ("uploadedEver", JInt (Torrent_UploadedEver t));
            ("haveUnchecked", JInt (Torrent_HaveUnchecked t));
            ("haveValid", JInt (Torrent_HaveValid t));
            ("isFinished", JBool (Torrent_IsFinished t));
            ("percentDone", JFloat (Torrent_PercentDone t));
            ("seedRatioMode", JInt (Torrent_SeedRatioMode t));
            ("files", encode_slice encode_File (Torrent_Files t));
            ("peers", encode_slice encode_peer (Torrent_Peers t));
            ("trackers", encode_slice encode_tracker (Torrent_Trackers t));
            ("trackerStats",
              encode_slice encode_trackerStat (Torrent_TrackerStats t));
            ("error", JInt (Torrent_Error t));
            ("errorString", JString (Torrent_ErrorString t));
            ("hashString", JString (Torrent_InfoHash t));
            ("totalSize", JInt (Torrent_TotalSize t));
            ("secondsDownloading", JInt (Torrent_DownloadSeconds t));
            ("secondsSeeding", JInt (Torrent_SeedSeconds t)) ].

(** A [*Torrent]: [null] for a nil pointer. *)
Definition encode_Torrent_ptr (t : option Torrent) : json :=
  match t with
  | Some x => encode_Torrent x
  | None => JNull
  end.

Definition encode_TorrentAdded (t : TorrentAdded) : json :=
  JObject [ ("hashString", JString (TorrentAdded_HashString t));
            ("id", JInt (TorrentAdded_ID t));
            ("name", JString (TorrentAdded_Name t)) ].

Definition encode_cumulativeStats (c : cumulativeStats) : json :=
  JObject [ ("downloadedBytes", JInt (cumulativeStats_DownloadedBytes c));
            ("filesAdded", JInt (cumulativeStats_FilesAdded c));
            ("secondsActive", JInt (cumulativeStats_SecondsActive c));
            ("sessionCount", JInt (cumulativeStats_SessionCount c));
            ("uploadedBytes", JInt (cumulativeStats_UploadedBytes c)) ].

Definition encode_currentStats (c : currentStats) : json :=
  JObject [ ("downloadedBytes", JInt (currentStats_DownloadedBytes c));
            ("filesAdded", JInt (currentStats_FilesAdded c));
            ("secondsActive", JInt (currentStats_SecondsActive c));
            ("sessionCount", JInt (currentStats_SessionCount c));
            ("uploadedBytes", JInt (currentStats_UploadedBytes c)) ].

(** The members of the [arguments] object, tag by tag: the first seven
    fields carry [omitempty], the other ten do not. *)
Definition arguments_members (a : arguments) : list (string * json) :=
  member_omitempty_slice "fields" (map JString (arguments_Fields a))
  ++ member_omitempty_slice "torrents"
       (map encode_Torrent_ptr (arguments_Torrents a))
  ++ member_omitempty_slice "ids" (map JString (arguments_Ids a))
  ++ member_omitempty_bool "delete-local-data" (arguments_DeleteData a)
  ++ member_omitempty_string "download-dir" (arguments_DownloadDir a)
  ++ member_omitempty_string "metainfo" (arguments_MetaInfo a)
  ++ member_omitempty_string "filename" (arguments_Filename a)
  ++ member "torrent-added" (encode_TorrentAdded (arguments_TorrentAdded a))
  ++ member "torrent-duplicate"
       (encode_TorrentAdded (arguments_TorrentDuplicate a))
  ++ member "activeTorrentCount" (JInt (arguments_ActiveTorrentCount a))
  ++ member "cumulative-stats"
       (encode_cumulativeStats (arguments_CumulativeStats a))
  ++ member "current-stats" (encode_currentStats (arguments_CurrentStats a))
  ++ member "downloadSpeed" (JInt (arguments_DownloadSpeed a))
  ++ member "pausedTorrentCount" (JInt (arguments_PausedTorrentCount a))
  ++ member "torrentCount" (JInt (arguments_TorrentCount a))
  ++ member "uploadSpeed" (JInt (arguments_UploadSpeed a))
  ++ member "version" (JString (arguments_Version a)).

Definition encode_arguments (a : arguments) : json :=
  JObject (arguments_members a).

(** [Arguments] is a struct: its [omitempty] never applies. *)
Definition Command_members (c : Command) : list (string * json) :=
  member_omitempty_string "method" (Command_Method c)
  ++ member "arguments" (encode_arguments (Command_Arguments c))
  ++ member_omitempty_string "result" (Command_Result c).

Definition encode_Command (c : Command) : json :=
  JObject (Command_members c).

(** The names of the members written for the argument bag. *)
Definition wire_keys (a : arguments) : list string :=
  map fst (arguments_members a).

(** The argument-bag fields in declaration order, each with its wire name
    and whether it holds its zero value. *)
Definition eqb_TorrentAdded (x y : TorrentAdded) : bool :=
  String.eqb (TorrentAdded_HashString x) (TorrentAdded_HashString y)
  && (TorrentAdded_ID x =? TorrentAdded_ID y)
  && String.eqb (TorrentAdded_Name x) (TorrentAdded_Name y).

Definition is_zero_cumulativeStats (c : cumulativeStats) : bool :=
  (cumulativeStats_DownloadedBytes c =? 0)
  && (cumulativeStats_FilesAdded c =? 0)
  && (cumulativeStats_SecondsActive c =? 0)
  && (cumulativeStats_SessionCount c =? 0)
  && (cumulativeStats_UploadedBytes c =? 0).

Definition is_zero_currentStats (c : currentStats) : bool :=
  (currentStats_DownloadedBytes c =? 0)
  && (currentStats_FilesAdded c =? 0)
  && (currentStats_SecondsActive c =? 0)
  && (currentStats_SessionCount c =? 0)
  && (currentStats_UploadedBytes c =? 0).

Definition is_nil {A : Type} (l : list A) : bool :=
  match l with [] => true | _ => false end.

Definition fields_at_zero (a : arguments) : list (string * bool) :=
  [ ("fields", is_nil (arguments_Fields a));
    ("torrents", is_nil (arguments_Torrents a));
    ("ids", is_nil (arguments_Ids a));
    ("delete-local-data", negb (arguments_DeleteData a));
    ("download-dir", String.eqb (arguments_DownloadDir a) "");
    ("metainfo", String.eqb (arguments_MetaInfo a) "");
    ("filename", String.eqb (arguments_Filename a) "");
    ("torrent-added",
      eqb_TorrentAdded (arguments_TorrentAdded a) zero_TorrentAdded);
    ("torrent-duplicate",
      eqb_TorrentAdded (arguments_TorrentDuplicate a) zero_TorrentAdded);
    ("activeTorrentCount", arguments_ActiveTorrentCount a =? 0);
    ("cumulative-stats", is_zero_cumulativeStats (arguments_CumulativeStats a));
    ("current-stats", is_zero_currentStats (arguments_CurrentStats a));
    ("downloadSpeed", arguments_DownloadSpeed a =? 0);
    ("pausedTorrentCount", arguments_PausedTorrentCount a =? 0);
    ("torrentCount", arguments_TorrentCount a =? 0);
    ("uploadSpeed", arguments_UploadSpeed a =? 0);
    ("version", String.eqb (arguments_Version a) "") ].

(** The wire names whose tag carries [omitempty]. *)
Definition omitempty_keys : list string :=
  [ "fields"; "torrents"; "ids"; "delete-local-data"; "download-dir";
    "metainfo"; "filename" ].

(** The wire names whose tag has no option. *)
Definition plain_keys : list string :=
  [ "torrent-added"; "torrent-duplicate"; "activeTorrentCount";
    "cumulative-stats"; "current-stats"; "downloadSpeed";
    "pausedTorrentCount"; "torrentCount"; "uploadSpeed"; "version" ].

(** The member names written, as a function of which of the seven
    [omitempty] fields are empty. *)
Definition keys_written (fields torrents ids del dir meta file : bool)
  : list string :=
  (if fields then [] else ["fields"])
  ++ (if torrents then [] else ["torrents"])
  ++ (if ids then [] else ["ids"])
  ++ (if del then [] else ["delete-local-data"])
  ++ (if dir then [] else ["download-dir"])
  ++ (if meta then [] else ["metainfo"])
  ++ (if file then [] else ["filename"])
  ++ plain_keys.

(** Membership in a list of names, as a test. *)
Definition mem (key : string) (l : list string) : bool :=
  existsb (String.eqb key) l.

(* ================================================================== *)
(** * The collaborators of the RPC client *)

(** What the client calls and does not define: the transport
    ([NewClient] and the [Post] method of [ApiClient]), encoding/json and ioutil.  [World]
    is everything outside the client that a call can read or change: the
    daemon, the network, the session token of the transport, the files. *)
Class Collaborators : Type := {
  World : Type;
  ApiClient : Type;
  NewClient : string -> string -> string -> ApiClient;
  (** [ac.Post(body)]: the raw response or an error. *)
  ApiClient_Post : ApiClient -> string -> World -> (bytes + error) * World;
  (** [json.Marshal(cmd)], as a string. *)
  json_Marshal : Command -> string + error;
  (** [json.Unmarshal(output, &c)] for [c] a zero [Command]: what [c]
      holds afterwards, and the error.  A failed decode may leave [c]
      partly filled. *)
  json_Unmarshal : bytes -> Command * option error;
  (** Whether the document is the JSON literal [null]. *)
  json_isNull : bytes -> bool;
  (** [ioutil.ReadFile(file)] *)
  ioutil_ReadFile : string -> World -> bytes + error;
  (** Decoding [null] into a struct changes nothing and is no error. *)
  json_Unmarshal_null :
    forall output, json_isNull output = true ->
                   json_Unmarshal output = (zero_Command, None)
}.

Section Client.
Context `{Collaborators}.

(** The state a call runs in.  [sortType] is the package-level variable;
    [logged] is what [log.Printf] has written; [posted] is a history of
    the calls to [Post], kept to state which requests were sent. *)
Record State : Type := {
  world : World;
  sortType : Sorting;
  logged : list bytes;
  posted : list (ApiClient * string)
}.

(** A call returns a value and a state, or panics on a nil dereference. *)
Inductive outcome (A : Type) : Type :=
| Returned (a : A) (s : State)
| Panicked (s : State).
Arguments Returned {A} a s.
Arguments Panicked {A} s.

Definition M (A : Type) : Type := State -> outcome A.

Definition ret {A : Type} (a : A) : M A := fun s => Returned a s.

Definition bind {A B : Type} (m : M A) (k : A -> M B) : M B :=
  fun s =>
    match m s with
    | Returned a s' => k a s'
    | Panicked s' => Panicked s'
    end.

Definition panic {A : Type} : M A := fun s => Panicked s.

(** [*p] *)
Definition deref {A : Type} (p : option A) : M A :=
  match p with
  | Some a => ret a
  | None => panic
  end.

Definition get_sortType : M Sorting := fun s => Returned (sortType s) s.

Definition put_sortType (st : Sorting) : M unit :=
  fun s =>
    Returned tt {| world := world s; sortType := st; logged := logged s;
                   posted := posted s |}.

(** [log.Printf("output: %s", output)] *)
Definition log_output (output : bytes) : M unit :=
  fun s =>
    Returned tt {| world := world s; sortType := sortType s;
                   logged := logged s ++ [output]; posted := posted s |}.

(** [ac.apiclient.Post(body)] *)
Definition Post (ac : ApiClient) (body : string) : M (bytes + error) :=
  fun s =>
    let (r, w) := ApiClient_Post ac body (world s) in
    Returned r {| world := w; sortType := sortType s; logged := logged s;
                  posted := posted s ++ [(ac, body)] |}.

(** [ioutil.ReadFile(file)] *)
Definition ReadFile (file : string) : M (bytes + error) :=
  fun s => Returned (ioutil_ReadFile file (world s)) s.
End Client.

Arguments Returned {_ A} a s.
Arguments Panicked {_ A} s.

Notation "x <- m ;; k" := (bind m (fun x => k))
  (at level 61, m at next level, right associativity).
Notation "' pat <- m ;; k" := (bind m (fun x => match x with pat => k end))
  (at level 61, pat pattern, m at next level, right associativity).

(** [json.Unmarshal(output, &out)] for [out] a [*Command] that points to a
    zero [Command]: the literal [null] sets the pointer to nil, any other
    document is decoded into the [Command] pointed to. *)
Definition json_Unmarshal_ptr `{Collaborators} (output : bytes)
  : option Command * option error :=
  if json_isNull output then (None, None)
  else let (c, err) := json_Unmarshal output in (Some c, err).

(* ================================================================== *)
(** * transmission.go: the client *)

(** [type TransmissionClient struct { apiclient *ApiClient }] *)
Record TransmissionClient `{Collaborators} : Type := {
  apiclient : ApiClient
}.

(** The two content fields of an add command. *)
Definition Command_Filename (c : Command) : string :=
  arguments_Filename (Command_Arguments c).
Definition Command_MetaInfo (c : Command) : string :=
  arguments_MetaInfo (Command_Arguments c).

(** [func NewGetTorrentsCmd() *Command] *)
Definition NewGetTorrentsCmd : Command :=
  upd_Arguments
    (with_Fields
       [ "id"; "name"; "hashString"; "status"; "addedDate"; "startDate";
         "doneDate"; "leftUntilDone"; "sizeWhenDone"; "haveValid";
         "haveUnchecked"; "isFinished"; "percentDone"; "eta";
         "rateDownload"; "rateUpload"; "downloadDir"; "downloadedEver";
         "uploadRatio"; "uploadedEver"; "seedRatioMode"; "error";
         "errorString"; "files"; "peers"; "trackers"; "trackerStats";
         "totalSize"; "secondsDownloading"; "secondsSeeding" ])
    (set_Method "torrent-get" zero_Command).

(** [func NewAddCmd() *Command] *)
Definition NewAddCmd : Command := set_Method "torrent-add" zero_Command.

(** [func NewAddCmdByURL(url string) *Command] *)
Definition NewAddCmdByURL (url : string) : Command :=
  upd_Arguments (with_Filename url) NewAddCmd.

(** [func NewAddCmdByFilename(filename string) *Command] *)
Definition NewAddCmdByFilename (filename : string) : Command :=
  upd_Arguments (with_Filename filename) NewAddCmd.

(** [func NewAddCmdByBytes(b []byte) ( *Command, error )] *)
Definition NewAddCmdByBytes (b : bytes) : option Command * option error :=
  let cmd := NewAddCmd in
  (Some (upd_Arguments (with_MetaInfo (base64.EncodeToString b)) cmd), None).

(** [func (cmd *Command) SetDownloadDir(dir string)] *)
Definition SetDownloadDir (dir : string) (cmd : Command) : Command :=
  upd_Arguments (with_DownloadDir dir) cmd.

(** [func newDelCmd(id string, removeFile bool) *Command] *)
Definition newDelCmd (id : string) (removeFile : bool) : Command :=
  upd_Arguments (with_DeleteData removeFile)
    (upd_Arguments (with_Ids [id])
       (set_Method "torrent-remove" zero_Command)).

(** [Command{Method: method}] *)
Definition Command_of_Method (method : string) : Command :=
  {| Command_Method := method; Command_Arguments := zero_arguments;
     Command_Result := "" |}.

(** The switch of [GetTorrents] on [sortType], applied to the fetched
    slice; the slice is sorted in place and returned.  [None] is a nil
    dereference inside a comparison. *)
Definition GetTorrents_switch (st : Sorting) (torrents : Torrents)
  : option Torrents :=
  match st with
  | SortID => Some torrents
  | SortRevID => Torrents_SortID true torrents
  | SortName => Torrents_SortName false torrents
  | SortRevName => Torrents_SortName true torrents
  | SortAge => Torrents_SortAge false torrents
  | SortRevAge => Torrents_SortAge true torrents
  | SortSize => Torrents_SortSize false torrents
  | SortRevSize => Torrents_SortSize true torrents
  | SortProgress => Torrents_SortProgress false torrents
  | SortRevProgress => Torrents_SortProgress true torrents
  | SortDownSpeed => Torrents_SortDownSpeed false torrents
  | SortRevDownSpeed => Torrents_SortDownSpeed true torrents
  | SortUpSpeed => Torrents_SortUpSpeed false torrents
  | SortRevUpSpeed => Torrents_SortUpSpeed true torrents
  | SortDownloaded => Torrents_SortDownloaded false torrents
  | SortRevDownloaded => Torrents_SortDownloaded true torrents
  | SortUploaded => Torrents_SortUploaded false torrents
  | SortRevUploaded => Torrents_SortUploaded true torrents
  | SortRatio => Torrents_SortRatio false torrents
  | SortRevRatio => Torrents_SortRatio true torrents
  end.

Section Operations.
Context `{Collaborators}.

(** [func (t Torrents) GetIDs() []string] *)
Fixpoint Torrents_GetIDs (t : Torrents) : M (list string) :=
  match t with
  | [] => ret []
  | p :: t' =>
      x <- deref p ;;
      ids <- Torrents_GetIDs t' ;;
      ret (Torrent_InfoHash x :: ids)
  end.

(** [func (ac *TransmissionClient) SetSort(st Sorting)] *)
Definition SetSort (ac : TransmissionClient) (st : Sorting) : M unit :=
  put_sortType st.

(** [func (ac *TransmissionClient) sendCommand(cmd Command)
     (response Command, err error)] *)
Definition sendCommand (ac : TransmissionClient) (cmd : Command)
  : M (Command * option error) :=
  match json_Marshal cmd with
  | inr e => ret (zero_Command, Some e)
  | inl body =>
      r <- Post (apiclient ac) body ;;
      match r with
      | inr e => ret (zero_Command, Some e)
      | inl output =>
          let (response, err) := json_Unmarshal output in
          match err with
          | Some e => ret (response, Some e)
          | None => ret (response, None)
          end
      end
  end.

(** [func (ac *TransmissionClient) ExecuteCommand(cmd *Command)
     ( *Command, error )] *)
Definition ExecuteCommand (ac : TransmissionClient) (cmd : Command)
  : M (option Command * option error) :=
  let out := Some zero_Command in
  match json_Marshal cmd with
  | inr e => ret (out, Some e)
  | inl body =>
      r <- Post (apiclient ac) body ;;
      match r with
      | inr e => ret (out, Some e)
      | inl output =>
          let (out, err) := json_Unmarshal_ptr output in
          match err with
          | Some e => _ <- log_output output ;; ret (out, Some e)
          | None => ret (out, None)
          end
      end
  end.

(** [func New(url string, username string, password string)
     ( *TransmissionClient, error )] *)
Definition New (url username password : string)
  : M (option TransmissionClient * option error) :=
  let apiclient := NewClient url username password in
  let client := {| apiclient := apiclient |} in
  let cmd := Command_of_Method "session-get" in
  '(_, err) <- sendCommand client cmd ;;
  match err with
  | Some e => ret (Some client, Some e)
  | None => ret (Some client, None)
  end.

(** [func (ac *TransmissionClient) GetTorrents() (Torrents, error)] *)
Definition GetTorrents (ac : TransmissionClient)
  : M (Torrents * option error) :=
  let cmd := NewGetTorrentsCmd in
  '(out, err) <- ExecuteCommand ac cmd ;;
  match err with
  | Some e => ret ([], Some e)
  | None =>
      o <- deref out ;;
      let torrents := arguments_Torrents (Command_Arguments o) in
      st <- get_sortType ;;
      torrents <- deref (GetTorrents_switch st torrents) ;;
      ret (torrents, None)
  end.

(** [func (ac *TransmissionClient) GetTorrent(id string)
     ( *Torrent, error )] *)
Definition GetTorrent (ac : TransmissionClient) (id : string)
  : M (option Torrent * option error) :=
  let cmd := NewGetTorrentsCmd in
  let cmd :=
    upd_Arguments
      (with_Ids (arguments_Ids (Command_Arguments cmd) ++ [id])) cmd in
  '(out, err) <- ExecuteCommand ac cmd ;;
  match err with
  | Some e => ret (Some zero_Torrent, Some e)
  | None =>
      o <- deref out ;;
      match arguments_Torrents (Command_Arguments o) with
      | t :: _ => ret (t, None)
      | [] => ret (Some zero_Torrent, Some ErrNoTorrent)
      end
  end.

(** [func (ac *TransmissionClient) DeleteTorrent(id string, withData bool)
     (string, error)] *)
Definition DeleteTorrent (ac : TransmissionClient) (id : string)
    (withData : bool) : M (string * option error) :=
  '(torrent, err) <- GetTorrent ac id ;;
  match err with
  | Some e => ret ("", Some e)
  | None =>
      let cmd := newDelCmd id withData in
      '(_, err) <- ExecuteCommand ac cmd ;;
      match err with
      | Some e => ret ("", Some e)
      | None =>
          t <- deref torrent ;;
          ret (Torrent_Name t, None)
      end
  end.

(** [func (ac *TransmissionClient) GetStats() ( *Stats, error )] *)
Definition GetStats (ac : TransmissionClient)
  : M (option Stats * option error) :=
  let cmd := Command_of_Method "session-stats" in
  '(out, err) <- ExecuteCommand ac cmd ;;
  match err with
  | Some e => ret (None, Some e)
  | None =>
      o <- deref out ;;
      let a := Command_Arguments o in
      ret (Some {| Stats_ActiveTorrentCount := arguments_ActiveTorrentCount a;
                   Stats_CumulativeStats := arguments_CumulativeStats a;
                   Stats_CurrentStats := arguments_CurrentStats a;
                   Stats_DownloadSpeed := arguments_DownloadSpeed a;
                   Stats_PausedTorrentCount := arguments_PausedTorrentCount a;
                   Stats_TorrentCount := arguments_TorrentCount a;
                   Stats_UploadSpeed := arguments_UploadSpeed a |},
           None)
  end.

(** [func (ac *TransmissionClient) sendSimpleCommand(method string,
     ids ...string) (result string, err error)] *)
Definition sendSimpleCommand (ac : TransmissionClient) (method : string)
    (ids : list string) : M (string * option error) :=
  let cmd := Command_of_Method method in
  let cmd := upd_Arguments (with_Ids ([] ++ ids)) cmd in
  '(resp, err) <- sendCommand ac cmd ;;
  ret (Command_Result resp, err).

(** [StartTorrent], [StopTorrent], [VerifyTorrent] *)
Definition StartTorrent (ac : TransmissionClient) (ids : list string) :=
  sendSimpleCommand ac "torrent-start" ids.
Definition StopTorrent (ac : TransmissionClient) (ids : list string) :=
  sendSimpleCommand ac "torrent-stop" ids.
Definition VerifyTorrent (ac : TransmissionClient) (ids : list string) :=
  sendSimpleCommand ac "torrent-verify" ids.

(** The body shared by [StartAll], [StopAll] and [VerifyAll], which
    differ in the method name only. *)
Definition sendToAll (ac : TransmissionClient) (method : string)
  : M (option error) :=
  let cmd := Command_of_Method method in
  '(torrents, err) <- GetTorrents ac ;;
  match err with
  | Some e => ret (Some e)
  | None =>
      ids <- Torrents_GetIDs torrents ;;
      let cmd := upd_Arguments (with_Ids ids) cmd in
      '(_, err) <- sendCommand ac cmd ;;
      match err with
      | Some e => ret (Some e)
      | None => ret None
      end
  end.

(** [func (ac *TransmissionClient) StartAll() error] and its siblings *)
Definition StartAll (ac : TransmissionClient) := sendToAll ac "torrent-start".
Definition StopAll (ac : TransmissionClient) := sendToAll ac "torrent-stop".
Definition VerifyAll (ac : TransmissionClient) :=
  sendToAll ac "torrent-verify".

(** [func NewAddCmdByFile(file string) ( *Command, error )] *)
Definition NewAddCmdByFile (file : string)
  : M (option Command * option error) :=
  let cmd := NewAddCmd in
  r <- ReadFile file ;;
  match r with
  | inr e => ret (None, Some e)
  | inl fileData =>
      ret (Some (upd_Arguments
                   (with_MetaInfo (base64.EncodeToString fileData)) cmd),
           None)
  end.

(** [func encodeFile(file string) (string, error)] *)
Definition encodeFile (file : string) : M (string * option error) :=
  r <- ReadFile file ;;
  match r with
  | inr e => ret ("", Some e)
  | inl fileData => ret (base64.EncodeToString fileData, None)
  end.

(** [func (ac *TransmissionClient) ExecuteAddCommand(addCmd *Command)
     (TorrentAdded, error)] *)
Definition ExecuteAddCommand (ac : TransmissionClient) (addCmd : Command)
  : M (TorrentAdded * option error) :=
  '(outCmd, err) <- ExecuteCommand ac addCmd ;;
  match err with
  | Some e => ret (zero_TorrentAdded, Some e)
  | None =>
      o <- deref outCmd ;;
      if negb (String.eqb (TorrentAdded_HashString
                             (arguments_TorrentDuplicate
                                (Command_Arguments o))) "")
      then ret (arguments_TorrentDuplicate (Command_Arguments o), None)
      else ret (arguments_TorrentAdded (Command_Arguments o), None)
  end.

(** [func (ac *TransmissionClient) Version() string] *)
Definition Version (ac : TransmissionClient) : M string :=
  let cmd := Command_of_Method "session-get" in
  '(resp, _) <- sendCommand ac cmd ;;
  ret (arguments_Version (Command_Arguments resp)).

(** One round trip of [cmd] from state [s] fails with [e]: the command
    does not serialize, or the transport fails, or the response does not
    decode. *)
Inductive round_trip_fails (ac : TransmissionClient) (cmd : Command)
    (s : State) (e : error) : Prop :=
| Marshal_fails :
    json_Marshal cmd = inr e -> round_trip_fails ac cmd s e
| Post_fails (body : string) (w : World) :
    json_Marshal cmd = inl body ->
    ApiClient_Post (apiclient ac) body (world s) = (inr e, w) ->
    round_trip_fails ac cmd s e
| Unmarshal_fails (body : string) (output : bytes) (w : World)
    (c : Command) :
    json_Marshal cmd = inl body ->
    ApiClient_Post (apiclient ac) body (world s) = (inl output, w) ->
    json_Unmarshal output = (c, Some e) ->
    round_trip_fails ac cmd s e.

(** The public operations that take ids, with their method names. *)
Definition simple_operations
  : list ((TransmissionClient -> list string -> M (string * option error))
          * string) :=
  [ (StartTorrent, "torrent-start"); (StopTorrent, "torrent-stop");
    (VerifyTorrent, "torrent-verify") ].

(** The public operations on all torrents, with their method names. *)
Definition bulk_operations
  : list ((TransmissionClient -> M (option error)) * string) :=
  [ (StartAll, "torrent-start"); (StopAll, "torrent-stop");
    (VerifyAll, "torrent-verify") ].

End Operations.

(* ================================================================== *)
(** * client.go: the transport *)

(** Modelled from the spec: client.go, which declares [ApiClient],
    [NewClient] and [Post], is not among the sources.  This module follows
    the spec's description of the transport (2, 4.2, 6). *)
Module Transport.

(** Modelled from the spec: the two states of the session handshake. *)
Inductive TokenState : Type :=
| NoToken
| HaveToken (token : string).

(** Modelled from the spec: one HTTP POST as the daemon sees it, with the
    body, the session token attached (none in [NoToken]) and the
    basic-auth credentials. *)
Record Request : Type := {
  req_body : string;
  req_token : TokenState;
  req_username : string;
  req_password : string
}.

(** Modelled from the spec: the answer, with the status, the value of
    the session-token header and the body. *)
Record Response : Type := {
  StatusCode : Z;
  SessionId : string;
  Body : bytes
}.

(** Modelled from the spec: the HTTP layer, an external collaborator; a
    POST to a URL is answered, or fails on the network ([None]). *)
Class Network : Type := {
  Net : Type;
  http_POST : string -> Request -> Net -> option Response * Net
}.

(** Modelled from the spec: the transport's configuration, "a configured
    URL" and "configured username/password". *)
Record ApiClient : Type := {
  url : string;
  username : string;
  password : string
}.

Section Handshake.
Context `{Network}.

(** Modelled from the spec: the token is the transport's only state;
    [sent] is a history of the requests made, kept to count the
    attempts. *)
Record TState : Type := {
  token : TokenState;
  net : Net;
  sent : list Request
}.

(** Modelled from the spec: a status of success. *)
Definition is_2xx (status : Z) : bool :=
  (200 <=? status) && (status <? 300).

(** Modelled from the spec: the request [Post] makes for [body] when the
    token is [t]. *)
Definition request_of (ac : ApiClient) (body : string) (t : TokenState)
  : Request :=
  {| req_body := body; req_token := t; req_username := username ac;
     req_password := password ac |}.

(** Modelled from the spec: step 1, attach the current token and the
    credentials; send. *)
Definition send (ac : ApiClient) (body : string) (st : TState)
  : option Response * TState :=
  let req := request_of ac body (token st) in
  let (r, n) := http_POST (url ac) req (net st) in
  (r, {| token := token st; net := n; sent := sent st ++ [req] |}).

(** Modelled from the spec: step 2, the move to [HaveToken]. *)
Definition set_token (t : string) (st : TState) : TState :=
  {| token := HaveToken t; net := net st; sent := sent st |}.

(** Modelled from the spec: steps 3 and 4, a 2xx answer gives its body,
    any other status is a transport error. *)
Definition finish (r : Response) : bytes + error :=
  if is_2xx (StatusCode r) then inl (Body r)
  else inr (TransportError "unexpected HTTP status").

(** Modelled from the spec: [Post] is not among the sources.  The spec
    (4.2) has it attach the current token and send; on a status of
    exactly 409 read the new token from the response header, move to
    [HaveToken] and retry the same body exactly once; treat any other
    non-2xx status as a terminal transport error; on success return
    the raw response body. *)
Definition Post (ac : ApiClient) (body : string) (st : TState)
  : (bytes + error) * TState :=
  match send ac body st with
  | (None, st1) => (inr (TransportError "request failed"), st1)
  | (Some r1, st1) =>
      if StatusCode r1 =? 409 then
        let st2 := set_token (SessionId r1) st1 in
        match send ac body st2 with
        | (None, st3) => (inr (TransportError "request failed"), st3)
        | (Some r2, st3) => (finish r2, st3)
        end
      else (finish r1, st1)
  end.
End Handshake.

End Transport.

(* ================================================================== *)
(** * A scripted daemon *)

(** Collaborators for running the client on concrete inputs.  The world
    is the list of answers the transport will give to the coming posts; a
    request body is the method name; a response body of one byte is decoded
    by looking the byte up in [answers], the body [null] is the JSON
    literal, and anything else is malformed.  One file exists. *)
Module Scripted.

Definition null_body : bytes :=
  [Byte.x6e; Byte.x75; Byte.x6c; Byte.x6c].

Definition eqb_bytes (a b : bytes) : bool :=
  if list_eq_dec Byte.byte_eq_dec a b then true else false.

Fixpoint lookup (k : Byte.byte) (answers : list (Byte.byte * Command))
  : option Command :=
  match answers with
  | [] => None
  | (k', c) :: rest => if Byte.eqb k k' then Some c else lookup k rest
  end.

Definition decode (answers : list (Byte.byte * Command)) (output : bytes)
  : Command * option error :=
  match output with
  | [k] =>
      match lookup k answers with
      | Some c => (c, None)
      | None => (zero_Command, Some (SerializationError "unexpected value"))
      end
  | _ =>
      if eqb_bytes output null_body then (zero_Command, None)
      else (zero_Command, Some (SerializationError "invalid character"))
  end.

Definition post (body : string) (w : list (bytes + error))
  : (bytes + error) * list (bytes + error) :=
  match w with
  | r :: w' => (r, w')
  | [] => (inr (TransportError "connection refused"), [])
  end.

Definition torrent_file : bytes := [Byte.x64; Byte.x38; Byte.x3a].

Definition read_file (file : string) : bytes + error :=
  if String.eqb file "a.torrent" then inl torrent_file
  else inr (LocalIOError "no such file or directory").

Definition decode_null (answers : list (Byte.byte * Command))
    (output : bytes) :
  eqb_bytes output null_body = true ->
  decode answers output = (zero_Command, None).
Proof.
  unfold eqb_bytes.
  destruct (list_eq_dec Byte.byte_eq_dec output null_body) as [-> | ];
    [ reflexivity | discriminate ].
Defined.

Definition collaborators (answers : list (Byte.byte * Command))
  : Collaborators :=
  {| World := list (bytes + error);
     ApiClient := string;
     NewClient := fun url _ _ => url;
     ApiClient_Post := fun _ body w => post body w;
     json_Marshal := fun c => inl (Command_Method c);
     json_Unmarshal := decode answers;
     json_isNull := fun output => eqb_bytes output null_body;
     ioutil_ReadFile := fun file _ => read_file file;
     json_Unmarshal_null := decode_null answers |}.

(** Sample data. *)

Definition ubuntu : Torrent :=
  {| Torrent_ID := 1; Torrent_Name := "ubuntu.iso"; Torrent_Status := 4;
     Torrent_AddedDate := 1700000000; Torrent_StartDate := 1700000100;
     Torrent_DoneDate := 0; Torrent_LeftUntilDone := 500;
     Torrent_SizeWhenDone := 1000; Torrent_Eta := 60;
     Torrent_UploadRatio := (1 # 2)%Q; Torrent_RateDownload := 10;
     Torrent_RateUpload := 5; Torrent_DownloadDir := "/srv";
     Torrent_DownloadedEver := 500; Torrent_UploadedEver := 250;
     Torrent_HaveUnchecked := 0; Torrent_HaveValid := 500;
     Torrent_IsFinished := false; Torrent_PercentDone := (1 # 2)%Q;
     Torrent_SeedRatioMode := 0; Torrent_Files := []; Torrent_Peers := [];
     Torrent_Trackers := []; Torrent_TrackerStats := [];
     Torrent_Error := 0; Torrent_ErrorString := "";
     Torrent_InfoHash := "aa11"; Torrent_TotalSize := 1000;
     Torrent_DownloadSeconds := 50; Torrent_SeedSeconds := 0 |}.

Definition debian : Torrent :=
  {| Torrent_ID := 2; Torrent_Name := "debian.iso"; Torrent_Status := 6;
     Torrent_AddedDate := 1600000000; Torrent_StartDate := 1600000100;
     Torrent_DoneDate := 1600009000; Torrent_LeftUntilDone := 0;
     Torrent_SizeWhenDone := 700; Torrent_Eta := (-1);
     Torrent_UploadRatio := (3 # 1)%Q; Torrent_RateDownload := 0;
     Torrent_RateUpload := 20; Torrent_DownloadDir := "/srv";
     Torrent_DownloadedEver := 700; Torrent_UploadedEver := 2100;
     Torrent_HaveUnchecked := 0; Torrent_HaveValid := 700;
     Torrent_IsFinished := false; Torrent_PercentDone := (1 # 1)%Q;
     Torrent_SeedRatioMode := 0; Torrent_Files := []; Torrent_Peers := [];
     Torrent_Trackers := []; Torrent_TrackerStats := [];
     Torrent_Error := 0; Torrent_ErrorString := "";
     Torrent_InfoHash := "bb22"; Torrent_TotalSize := 700;
     Torrent_DownloadSeconds := 90; Torrent_SeedSeconds := 4000 |}.

Definition with_Torrents (v : Torrents) (a : arguments) : arguments :=
  {| arguments_Fields := arguments_Fields a;
     arguments_Torrents := v;
     arguments_Ids := arguments_Ids a;
     arguments_DeleteData := arguments_DeleteData a;
     arguments_DownloadDir := arguments_DownloadDir a;
     arguments_MetaInfo := arguments_MetaInfo a;
     arguments_Filename := arguments_Filename a;
     arguments_TorrentAdded := arguments_TorrentAdded a;
     arguments_TorrentDuplicate := arguments_TorrentDuplicate a;
     arguments_ActiveTorrentCount := arguments_ActiveTorrentCount a;
     arguments_CumulativeStats := arguments_CumulativeStats a;
     arguments_CurrentStats := arguments_CurrentStats a;
     arguments_DownloadSpeed := arguments_DownloadSpeed a;
     arguments_PausedTorrentCount := arguments_PausedTorrentCount a;
     arguments_TorrentCount := arguments_TorrentCount a;
     arguments_UploadSpeed := arguments_UploadSpeed a;
     arguments_Version := arguments_Version a |}.

Definition with_added (added duplicate : TorrentAdded) (a : arguments)
  : arguments :=
  {| arguments_Fields := arguments_Fields a;
     arguments_Torrents := arguments_Torrents a;
     arguments_Ids := arguments_Ids a;
     arguments_DeleteData := arguments_DeleteData a;
     arguments_DownloadDir := arguments_DownloadDir a;
     arguments_MetaInfo := arguments_MetaInfo a;
     arguments_Filename := arguments_Filename a;
     arguments_TorrentAdded := added;
     arguments_TorrentDuplicate := duplicate;
     arguments_ActiveTorrentCount := arguments_ActiveTorrentCount a;
     arguments_CumulativeStats := arguments_CumulativeStats a;
     arguments_CurrentStats := arguments_CurrentStats a;
     arguments_DownloadSpeed := arguments_DownloadSpeed a;
     arguments_PausedTorrentCount := arguments_PausedTorrentCount a;
     arguments_TorrentCount := arguments_TorrentCount a;
     arguments_UploadSpeed := arguments_UploadSpeed a;
     arguments_Version := arguments_Version a |}.

Definition success : Command :=
  {| Command_Method := ""; Command_Arguments := zero_arguments;
     Command_Result := "success" |}.

Definition list_of_two : Command :=
  upd_Arguments (with_Torrents [Some ubuntu; Some debian]) success.

Definition list_of_one : Command :=
  upd_Arguments (with_Torrents [Some ubuntu]) success.

Definition fresh_add : Command :=
  upd_Arguments
    (with_added
       {| TorrentAdded_HashString := "cc33"; TorrentAdded_ID := 3;
          TorrentAdded_Name := "arch.iso" |}
       zero_TorrentAdded) success.

Definition duplicate_add : Command :=
  upd_Arguments
    (with_added
       {| TorrentAdded_HashString := "dd44"; TorrentAdded_ID := 9;
          TorrentAdded_Name := "other" |}
       {| TorrentAdded_HashString := "aa11"; TorrentAdded_ID := 1;
          TorrentAdded_Name := "ubuntu.iso" |}) success.

Definition list_descending : Command :=
  upd_Arguments (with_Torrents [Some debian; Some ubuntu]) success.

(** A torrent list whose one entry is [null]. *)
Definition list_with_nil : Command :=
  upd_Arguments (with_Torrents [None]) success.

(** The answers of the sample daemon, by the byte that selects them. *)
Definition answers : list (Byte.byte * Command) :=
  [ (Byte.x00, success); (Byte.x01, list_of_two); (Byte.x02, list_of_one);
    (Byte.x03, fresh_add); (Byte.x04, duplicate_add);
    (Byte.x05, list_descending); (Byte.x06, list_with_nil) ].

Definition daemon : Collaborators := collaborators answers.

(** The state of a fresh process facing the answers [w]. *)
Definition start (w : list (bytes + error)) : @State daemon :=
  @Build_State daemon w SortID [] [].

Definition rpc_url : string := "http://127.0.0.1:9091/transmission/rpc".

Definition client : @TransmissionClient daemon :=
  @Build_TransmissionClient daemon rpc_url.

(** A network that answers the coming requests from a list; [None], or
    an exhausted list, is a network failure. *)
Definition scripted_network : Transport.Network :=
  {| Transport.Net := list (option Transport.Response);
     Transport.http_POST := fun _ _ n =>
       match n with
       | r :: n' => (r, n')
       | [] => (None, [])
       end |}.

Definition conflict (sid : string) : Transport.Response :=
  {| Transport.StatusCode := 409; Transport.SessionId := sid;
     Transport.Body := [] |}.

Definition answer (status : Z) (body : bytes) : Transport.Response :=
  {| Transport.StatusCode := status; Transport.SessionId := "";
     Transport.Body := body |}.

Definition local_daemon : Transport.ApiClient :=
  {| Transport.url := rpc_url;
     Transport.username := "admin"; Transport.password := "secret" |}.

Definition fresh_transport (n : list (option Transport.Response))
  : @Transport.TState scripted_network :=
  @Transport.Build_TState scripted_network Transport.NoToken n [].

(** The state a run against the scripted daemon ends in: the answers
    left, the sort mode and the requests posted. *)
Definition final (w : list (bytes + error)) (st : Sorting)
    (methods : list string) : @State daemon :=
  @Build_State daemon w st [] (map (fun m => (rpc_url, m)) methods).

End Scripted.

(* ================================================================== *)
(** * transmission.go: the methods of [Torrent] and [Stats] *)

(** Go's [uint64] and [int64] arithmetic wraps around. *)
Definition uint64_wrap (x : Z) : Z := x mod 2 ^ 64.

Definition int64_wrap (x : Z) : Z := (x + 2 ^ 63) mod 2 ^ 64 - 2 ^ 63.

Definition in_uint64 (x : Z) : Prop := 0 <= x < 2 ^ 64.

Definition in_int64 (x : Z) : Prop := - 2 ^ 63 <= x < 2 ^ 63.

(** [time.Second], a [Duration] in nanoseconds. *)
Definition time_Second : Z := 1000000000.

(** The string returned for an unknown ETA: the three UTF-8 bytes of the
    infinity sign (U+221E). *)
Definition infinity : string :=
  String "226"%char (String "136"%char (String "158"%char "")).

(** The line feed of ["%s\n"]. *)
Definition newline : ascii := "010"%char.

(** [func (t *Torrent) GetSize() uint64] *)
Definition Torrent_GetSize (t : Torrent) : Z := Torrent_TotalSize t.

(** [func (t *Torrent) Have() uint64] *)
Definition Torrent_Have (t : Torrent) : Z :=
  uint64_wrap (Torrent_HaveValid t + Torrent_HaveUnchecked t).

(** The loop of [GetTrackers]: each tracker writes its announce URL and a
    line feed to the buffer. *)
Fixpoint write_announces (ts : trackers) : string :=
  match ts with
  | [] => ""
  | t :: ts' =>
      String.append (String.append (tracker_Announce t) (String newline ""))
        (write_announces ts')
  end.

(** [func (t *Torrent) GetTrackers() string] *)
Definition Torrent_GetTrackers (t : Torrent) : string :=
  write_announces (Torrent_Trackers t).

Section Durations.
(** [time.Duration.String], of the time package. *)
Variable Duration_String : Z -> string.

(** [func (t *Torrent) ETA() string] *)
Definition Torrent_ETA (t : Torrent) : string :=
  if Torrent_Eta t <? 0 then infinity
  else Duration_String (int64_wrap (time_Second * Torrent_Eta t)).

(** [func (s *Stats) CurrentActiveTime() string] *)
Definition Stats_CurrentActiveTime (s : Stats) : string :=
  Duration_String
    (int64_wrap
       (time_Second * currentStats_SecondsActive (Stats_CurrentStats s))).

(** [func (s *Stats) CumulativeActiveTime() string] *)
Definition Stats_CumulativeActiveTime (s : Stats) : string :=
  Duration_String
    (int64_wrap
       (time_Second
        * cumulativeStats_SecondsActive (Stats_CumulativeStats s))).
End Durations.

(** ** Notions used to state properties *)

(** The lines of a text: the pieces that end in a line feed, and a last
    piece without one if the text does not end in a line feed. *)
Fixpoint lines (s : string) : list string :=
  match s with
  | EmptyString => []
  | String c s' =>
      if Ascii.eqb c newline then "" :: lines s'
      else match lines s' with
           | [] => [String c ""]
           | l :: ls => String c l :: ls
           end
  end.

(** Whether a string holds a line feed. *)
Fixpoint has_newline (s : string) : bool :=
  match s with
  | EmptyString => false
  | String c s' => Ascii.eqb c newline || has_newline s'
  end.

(** The member names of a JSON object. *)
Definition object_keys (j : json) : list string :=
  match j with
  | JObject members => map fst members
  | _ => []
  end.

(** A test for two lists of names being permutations of each other. *)
Fixpoint remove_first (x : string) (l : list string) : option (list string) :=
  match l with
  | [] => None
  | y :: l' =>
      if String.eqb x y then Some l'
      else match remove_first x l' with
           | Some r => Some (y :: r)
           | None => None
           end
  end.

Fixpoint permb (l l' : list string) : bool :=
  match l with
  | [] => is_nil l'
  | x :: r =>
      match remove_first x l' with
      | Some l'' => permb r l''
      | None => false
      end
  end.

Section Answers.
Context `{Collaborators}.

(** The state after [ac] has posted [body] and the world has moved to
    [w]. *)
Definition after_post (ac : TransmissionClient) (body : string) (w : World)
    (s : State) : State :=
  {| world := w; sortType := sortType s; logged := logged s;
     posted := posted s ++ [(apiclient ac, body)] |}.

(** The round trip of [cmd] from [s] is answered with the JSON literal
    [null], leaving the state [s']. *)
Definition answered_null (ac : TransmissionClient) (cmd : Command)
    (s s' : State) : Prop :=
  exists body output w,
    json_Marshal cmd = inl body
    /\ ApiClient_Post (apiclient ac) body (world s) = (inl output, w)
    /\ json_isNull output = true
    /\ s' = after_post ac body w s.

(** The state with the sort mode set to [st]. *)
Definition with_sortType (st : Sorting) (s : State) : State :=
  {| world := world s; sortType := st; logged := logged s;
     posted := posted s |}.
End Answers.

(* ================================================================== *)
(** * Properties of [Status] *)

Ltac status_cases ts :=
  unfold Status_String, Status_IsStarted, TrStopped, TrCheckPending,
    TrChecking, TrDownloadPending, TrDownloading, TrSeedPending, TrSeeding
    in *;
  repeat match goal with
         | |- context [ts =? ?k] => destruct (Z.eqb_spec ts k); subst
         end.

Lemma Status_enumerated (ts : Status) :
  TrStopped <= ts <= TrSeeding <-> In ts (map fst status_names).
Proof.
  unfold TrStopped, TrSeeding; simpl.
  unfold TrStopped, TrCheckPending, TrChecking, TrDownloadPending,
    TrDownloading, TrSeedPending, TrSeeding.
  split; [intros Hr | intros Hin; intuition lia].
  assert (ts = 0 \/ ts = 1 \/ ts = 2 \/ ts = 3 \/ ts = 4 \/ ts = 5 \/ ts = 6)
    by lia.
  intuition auto.
Qed.

(** C9.  [String] is a total function of the status: on each of the seven
    enumerated values, [TrStopped] to [TrSeeding], it gives that value's
    name, on every other value it gives "unknown"; [IsStarted] is true
    exactly on [TrChecking], [TrDownloadPending], [TrDownloading],
    [TrSeedPending] and [TrSeeding]. *)
Theorem Status_String_IsStarted_total (ts : Status) :
  (forall name, In (ts, name) status_names -> Status_String ts = name)
  /\ (~ TrStopped <= ts <= TrSeeding -> Status_String ts = "unknown")
  /\ In (Status_String ts) (map snd status_names ++ ["unknown"])
  /\ (Status_IsStarted ts = true <->
      In ts [TrChecking; TrDownloadPending; TrDownloading; TrSeedPending;
             TrSeeding]).
Proof.
  repeat split.
  - intros name Hin; simpl in Hin.
    repeat (destruct Hin as [Heq | Hin];
            [ injection Heq as <- <-; reflexivity | ]).
    contradiction.
  - intros Hout.
    assert (Hne : ts <> 0 /\ ts <> 1 /\ ts <> 2 /\ ts <> 3 /\ ts <> 4
                  /\ ts <> 5 /\ ts <> 6)
      by (unfold TrStopped, TrSeeding in Hout; lia).
    status_cases ts; try reflexivity; lia.
  - status_cases ts; simpl; tauto.
  - status_cases ts; simpl; intros Hs; try discriminate; auto 10.
  - intros Hin; simpl in Hin.
    unfold TrChecking, TrDownloadPending, TrDownloading, TrSeedPending,
      TrSeeding in Hin.
    repeat (destruct Hin as [<- | Hin]; [ reflexivity | ]).
    contradiction.
Qed.

Lemma Status_String_IsStarted_total_witness :
  Status_String TrDownloading = "Downloading"
  /\ Status_String 7 = "unknown"
  /\ Status_IsStarted TrDownloading = true.
Proof.
  split; [ | split ].
  - apply (proj1 (Status_String_IsStarted_total TrDownloading)).
    simpl; tauto.
  - apply (proj1 (proj2 (Status_String_IsStarted_total 7))).
    unfold TrStopped, TrSeeding; lia.
  - apply (proj2 (proj2 (proj2 (Status_String_IsStarted_total TrDownloading)))).
    simpl; tauto.
Defined.

(* ================================================================== *)
(** * Properties of the client *)

Section ClientProperties.
Context `{Collaborators}.

Lemma json_Unmarshal_ptr_error (output : bytes) (c : Command) (e : error) :
  json_Unmarshal output = (c, Some e) ->
  json_Unmarshal_ptr output = (Some c, Some e).
Proof.
  intros Hdec. unfold json_Unmarshal_ptr.
  destruct (json_isNull output) eqn:Hnull.
  - rewrite (json_Unmarshal_null _ Hnull) in Hdec. discriminate.
  - rewrite Hdec. reflexivity.
Qed.

(** [sendCommand] always returns. *)
Lemma sendCommand_returns (ac : TransmissionClient) (cmd : Command)
    (s : State) :
  exists resp err s', sendCommand ac cmd s = Returned (resp, err) s'.
Proof.
  unfold sendCommand.
  destruct (json_Marshal cmd) as [body | e]; [ | unfold ret; eauto ].
  unfold bind, Post.
  destruct (ApiClient_Post (apiclient ac) body (world s)) as [[output | e] w];
    [ | unfold ret; eauto ].
  destruct (json_Unmarshal output) as [response [e | ]];
    unfold ret; eauto.
Qed.

Lemma sendCommand_fails (ac : TransmissionClient) (cmd : Command)
    (s : State) (e : error) :
  round_trip_fails ac cmd s e ->
  exists resp s', sendCommand ac cmd s = Returned (resp, Some e) s'.
Proof.
  intros [Hm | body w Hm Hp | body output w c Hm Hp Hd];
    unfold sendCommand; rewrite Hm; [ unfold ret; eauto | | ];
    unfold bind, Post; rewrite Hp; [ unfold ret; eauto | ].
  rewrite Hd. unfold ret; eauto.
Qed.

Lemma ExecuteCommand_fails (ac : TransmissionClient) (cmd : Command)
    (s : State) (e : error) :
  round_trip_fails ac cmd s e ->
  exists out s', ExecuteCommand ac cmd s = Returned (out, Some e) s'.
Proof.
  intros [Hm | body w Hm Hp | body output w c Hm Hp Hd];
    unfold ExecuteCommand; rewrite Hm; [ unfold ret; eauto | | ];
    unfold bind, Post; rewrite Hp; [ unfold ret; eauto | ].
  rewrite (json_Unmarshal_ptr_error _ _ _ Hd).
  unfold bind, log_output, ret; eauto.
Qed.

(** A round trip that reports no error has posted exactly one request,
    the serialized command. *)
Lemma ExecuteCommand_ok_posted (ac : TransmissionClient) (cmd : Command)
    (s s' : State) (out : option Command) :
  ExecuteCommand ac cmd s = Returned (out, None) s' ->
  exists body,
    json_Marshal cmd = inl body
    /\ posted s' = posted s ++ [(apiclient ac, body)].
Proof.
  unfold ExecuteCommand.
  destruct (json_Marshal cmd) as [body | e]; [ | unfold ret; discriminate ].
  unfold bind, Post.
  destruct (ApiClient_Post (apiclient ac) body (world s)) as [[output | e] w];
    [ | unfold ret; discriminate ].
  destruct (json_Unmarshal_ptr output) as [o [e | ]];
    unfold bind, log_output, ret; simpl; [ discriminate | ].
  intros Heq. injection Heq as _ <-. eauto.
Qed.

(** Whatever its result, a round trip posts at most one request, the
    serialized command. *)
Lemma ExecuteCommand_posted (ac : TransmissionClient) (cmd : Command)
    (r : option Command * option error) (s s' : State) :
  ExecuteCommand ac cmd s = Returned r s' ->
  posted s' = posted s
  \/ exists body,
       json_Marshal cmd = inl body
       /\ posted s' = posted s ++ [(apiclient ac, body)].
Proof.
  unfold ExecuteCommand.
  destruct (json_Marshal cmd) as [body | e];
    [ | unfold ret; intros Heq; injection Heq as _ <-; left; reflexivity ].
  unfold bind, Post.
  destruct (ApiClient_Post (apiclient ac) body (world s)) as [[output | e] w];
    [ | unfold ret; intros Heq; injection Heq as _ <-; right; eauto ].
  destruct (json_Unmarshal_ptr output) as [o [e | ]];
    unfold bind, log_output, ret; intros Heq; injection Heq as _ <-;
    right; eauto.
Qed.

(** C1.  When [ExecuteCommand] returns a response envelope without an
    error, [ExecuteAddCommand] returns the envelope's torrent-duplicate
    descriptor if that descriptor's hashString is not empty, whatever
    torrent-added holds, and the torrent-added descriptor if it is
    empty. *)
Theorem ExecuteAddCommand_duplicate_precedence
    (ac : TransmissionClient) (addCmd out : Command) (s s' : State) :
  ExecuteCommand ac addCmd s = Returned (Some out, None) s' ->
  let added := arguments_TorrentAdded (Command_Arguments out) in
  let duplicate := arguments_TorrentDuplicate (Command_Arguments out) in
  (TorrentAdded_HashString duplicate <> "" ->
   ExecuteAddCommand ac addCmd s = Returned (duplicate, None) s')
  /\ (TorrentAdded_HashString duplicate = "" ->
      ExecuteAddCommand ac addCmd s = Returned (added, None) s').
Proof.
  intros Hexec added duplicate.
  unfold ExecuteAddCommand, bind. rewrite Hexec. simpl.
  fold duplicate added.
  destruct (String.eqb_spec (TorrentAdded_HashString duplicate) "")
    as [Hempty | Hfull]; simpl; split; intros Hh;
    try reflexivity; contradiction.
Qed.

(** The command [GetTorrent] sends: the list command with [id] appended
    to its (empty) id list. *)
Lemma GetTorrent_command (id : string) :
  upd_Arguments
    (with_Ids (arguments_Ids (Command_Arguments NewGetTorrentsCmd) ++ [id]))
    NewGetTorrentsCmd
  = upd_Arguments (with_Ids [id]) NewGetTorrentsCmd.
Proof. reflexivity. Qed.

(** C6.  When the response to the id-scoped torrent-get holds an empty
    torrents list, [GetTorrent] returns [ErrNoTorrent] together with the
    default-valued [Torrent]; when the list is not empty it returns the
    first entry of the list with a nil error. *)
Theorem GetTorrent_empty_or_first
    (ac : TransmissionClient) (id : string) (out : Command) (s s' : State) :
  ExecuteCommand ac (upd_Arguments (with_Ids [id]) NewGetTorrentsCmd) s
  = Returned (Some out, None) s' ->
  let torrents := arguments_Torrents (Command_Arguments out) in
  (torrents = [] ->
   GetTorrent ac id s = Returned (Some zero_Torrent, Some ErrNoTorrent) s')
  /\ (forall t rest,
        torrents = t :: rest ->
        GetTorrent ac id s = Returned (t, None) s' /\ In t torrents).
Proof.
  intros Hexec torrents.
  unfold GetTorrent. rewrite GetTorrent_command.
  unfold bind. rewrite Hexec. simpl. fold torrents.
  split.
  - intros ->. reflexivity.
  - intros t rest ->. split; [ reflexivity | left; reflexivity ].
Qed.

(** A failed lookup: [GetTorrent] hands the error on with a default
    [Torrent]. *)
Lemma GetTorrent_error
    (ac : TransmissionClient) (id : string) (out : option Command)
    (e : error) (s s' : State) :
  ExecuteCommand ac (upd_Arguments (with_Ids [id]) NewGetTorrentsCmd) s
  = Returned (out, Some e) s' ->
  GetTorrent ac id s = Returned (Some zero_Torrent, Some e) s'.
Proof.
  intros Hexec. unfold GetTorrent. rewrite GetTorrent_command.
  unfold bind. rewrite Hexec. reflexivity.
Qed.

(** The lookup posts at most its own request. *)
Lemma GetTorrent_posted
    (ac : TransmissionClient) (id : string)
    (r : option Torrent * option error) (s s' : State) :
  GetTorrent ac id s = Returned r s' ->
  posted s' = posted s
  \/ exists body,
       json_Marshal (upd_Arguments (with_Ids [id]) NewGetTorrentsCmd)
       = inl body
       /\ posted s' = posted s ++ [(apiclient ac, body)].
Proof.
  unfold GetTorrent. rewrite GetTorrent_command. unfold bind.
  destruct (ExecuteCommand ac
              (upd_Arguments (with_Ids [id]) NewGetTorrentsCmd) s)
    as [[out err] s1 | s1] eqn:Hexec; [ | discriminate ].
  pose proof (ExecuteCommand_posted _ _ _ _ _ Hexec) as Hposted.
  destruct err as [e | ].
  - unfold ret. intros Heq. injection Heq as _ <-. exact Hposted.
  - destruct out as [o | ]; simpl; [ | discriminate ].
    destruct (arguments_Torrents (Command_Arguments o));
      unfold ret; intros Heq; injection Heq as _ <-; exact Hposted.
Qed.

(** [newDelCmd] builds [torrent-remove] for the one id and the flag. *)
Lemma newDelCmd_fields (id : string) (removeFile : bool) :
  Command_Method (newDelCmd id removeFile) = "torrent-remove"
  /\ arguments_Ids (Command_Arguments (newDelCmd id removeFile)) = [id]
  /\ arguments_DeleteData (Command_Arguments (newDelCmd id removeFile))
     = removeFile.
Proof. repeat split. Qed.

(** The flow of [DeleteTorrent] when the lookup fails or yields a
    torrent.  [DeleteTorrent] looks the torrent up by id first.  If the lookup
    reports an error, that error is returned with the empty string, in the
    state the lookup left: the lookup's own request is all that was
    posted, and no [torrent-remove].  If the lookup gives a
    torrent and the [torrent-remove] round trip reports no error, the
    request posted after the lookup is the serialized [newDelCmd id
    withData], whose ids are [[id]] and whose delete-local-data is
    [withData], and the name returned is the one of the torrent looked
    up. *)
Theorem DeleteTorrent_lookup_then_remove
    (ac : TransmissionClient) (id : string) (withData : bool) (s : State) :
  (forall t e s1,
      GetTorrent ac id s = Returned (t, Some e) s1 ->
      DeleteTorrent ac id withData s = Returned ("", Some e) s1
      /\ (posted s1 = posted s
          \/ exists body,
               json_Marshal (upd_Arguments (with_Ids [id]) NewGetTorrentsCmd)
               = inl body
               /\ posted s1 = posted s ++ [(apiclient ac, body)]))
  /\ (forall t out s1 s2,
        GetTorrent ac id s = Returned (Some t, None) s1 ->
        ExecuteCommand ac (newDelCmd id withData) s1
        = Returned (out, None) s2 ->
        DeleteTorrent ac id withData s = Returned (Torrent_Name t, None) s2
        /\ exists body,
            json_Marshal (newDelCmd id withData) = inl body
            /\ posted s2 = posted s1 ++ [(apiclient ac, body)])
  /\ (Command_Method (newDelCmd id withData) = "torrent-remove"
      /\ arguments_Ids (Command_Arguments (newDelCmd id withData)) = [id]
      /\ arguments_DeleteData (Command_Arguments (newDelCmd id withData))
         = withData).
Proof.
  split; [ | split ].
  - intros t e s1 Hget. split.
    + unfold DeleteTorrent, bind. rewrite Hget. reflexivity.
    + exact (GetTorrent_posted _ _ _ _ _ Hget).
  - intros t out s1 s2 Hget Hdel. split.
    + unfold DeleteTorrent, bind. rewrite Hget. simpl.
      rewrite Hdel. reflexivity.
    + exact (ExecuteCommand_ok_posted _ _ _ _ _ Hdel).
  - apply newDelCmd_fields.
Qed.

(** The two other exits of [DeleteTorrent]: a failed [torrent-remove]
    gives its error and the empty string; a lookup that yields a nil
    entry is dereferenced after the removal. *)
Lemma DeleteTorrent_remove_error
    (ac : TransmissionClient) (id : string) (withData : bool)
    (t out : _) (e : error) (s s1 s2 : State) :
  GetTorrent ac id s = Returned (t, None) s1 ->
  ExecuteCommand ac (newDelCmd id withData) s1 = Returned (out, Some e) s2 ->
  DeleteTorrent ac id withData s = Returned ("", Some e) s2.
Proof.
  intros Hget Hdel. unfold DeleteTorrent, bind.
  rewrite Hget. simpl. rewrite Hdel. reflexivity.
Qed.

Lemma DeleteTorrent_nil_entry
    (ac : TransmissionClient) (id : string) (withData : bool)
    (out : _) (s s1 s2 : State) :
  GetTorrent ac id s = Returned (None, None) s1 ->
  ExecuteCommand ac (newDelCmd id withData) s1 = Returned (out, None) s2 ->
  DeleteTorrent ac id withData s = Panicked s2.
Proof.
  intros Hget Hdel. unfold DeleteTorrent, bind.
  rewrite Hget. simpl. rewrite Hdel. reflexivity.
Qed.

(** C10.  [New] returns a non-nil client, built on [NewClient url username
    password], in every case; when the session-get probe fails with [e],
    the caller receives that client together with [e]. *)
Theorem New_returns_client_on_probe_failure
    (url username password : string) (s : State) :
  let client := {| apiclient := NewClient url username password |} in
  (exists err s', New url username password s = Returned (Some client, err) s')
  /\ (forall resp e s',
        sendCommand client (Command_of_Method "session-get") s
        = Returned (resp, Some e) s' ->
        New url username password s = Returned (Some client, Some e) s').
Proof.
  intros client. split.
  - destruct (sendCommand_returns client (Command_of_Method "session-get") s)
      as (resp & err & s' & Hsend).
    exists err, s'. unfold New, bind. fold client. rewrite Hsend.
    destruct err; reflexivity.
  - intros resp e s' Hsend.
    unfold New, bind. fold client. rewrite Hsend. reflexivity.
Qed.

(** ** Errors reach the caller *)

Ltac run_failed Hfail lemma :=
  let out := fresh "out" in
  let s' := fresh "s'" in
  let Hrun := fresh "Hrun" in
  destruct (lemma _ _ _ _ Hfail) as (out & s' & Hrun);
  unfold bind; try rewrite Hrun; simpl; eauto.

Lemma ExecuteAddCommand_fails (ac : TransmissionClient) (addCmd : Command)
    (s : State) (e : error) :
  round_trip_fails ac addCmd s e ->
  exists s', ExecuteAddCommand ac addCmd s
             = Returned (zero_TorrentAdded, Some e) s'.
Proof.
  intros Hfail. unfold ExecuteAddCommand.
  run_failed Hfail ExecuteCommand_fails.
Qed.

Lemma GetTorrents_fails (ac : TransmissionClient) (s : State) (e : error) :
  round_trip_fails ac NewGetTorrentsCmd s e ->
  exists s', GetTorrents ac s = Returned ([], Some e) s'.
Proof.
  intros Hfail. unfold GetTorrents.
  run_failed Hfail ExecuteCommand_fails.
Qed.

Lemma GetTorrent_fails (ac : TransmissionClient) (id : string) (s : State)
    (e : error) :
  round_trip_fails ac (upd_Arguments (with_Ids [id]) NewGetTorrentsCmd) s e ->
  exists s', GetTorrent ac id s = Returned (Some zero_Torrent, Some e) s'.
Proof.
  intros Hfail.
  destruct (ExecuteCommand_fails _ _ _ _ Hfail) as (out & s' & Hrun).
  exists s'. exact (GetTorrent_error _ _ _ _ _ _ Hrun).
Qed.

Lemma GetStats_fails (ac : TransmissionClient) (s : State) (e : error) :
  round_trip_fails ac (Command_of_Method "session-stats") s e ->
  exists s', GetStats ac s = Returned (None, Some e) s'.
Proof.
  intros Hfail. unfold GetStats.
  run_failed Hfail ExecuteCommand_fails.
Qed.

Lemma sendSimpleCommand_fails (ac : TransmissionClient) (method : string)
    (ids : list string) (s : State) (e : error) :
  round_trip_fails ac
    (upd_Arguments (with_Ids ids) (Command_of_Method method)) s e ->
  exists result s',
    sendSimpleCommand ac method ids s = Returned (result, Some e) s'.
Proof.
  intros Hfail. unfold sendSimpleCommand. simpl app.
  run_failed Hfail sendCommand_fails.
Qed.

Lemma sendToAll_fetch_fails (ac : TransmissionClient) (method : string)
    (s : State) (e : error) :
  round_trip_fails ac NewGetTorrentsCmd s e ->
  exists s', sendToAll ac method s = Returned (Some e) s'.
Proof.
  intros Hfail.
  destruct (GetTorrents_fails _ _ _ Hfail) as (s' & Hrun).
  exists s'. unfold sendToAll, bind. rewrite Hrun. reflexivity.
Qed.

Lemma sendToAll_send_fails (ac : TransmissionClient) (method : string)
    (torrents : Torrents) (ids : list string) (s s1 s2 : State) (e : error) :
  GetTorrents ac s = Returned (torrents, None) s1 ->
  Torrents_GetIDs torrents s1 = Returned ids s2 ->
  round_trip_fails ac
    (upd_Arguments (with_Ids ids) (Command_of_Method method)) s2 e ->
  exists s', sendToAll ac method s = Returned (Some e) s'.
Proof.
  intros Hget Hids Hfail.
  destruct (sendCommand_fails _ _ _ _ Hfail) as (resp & s' & Hrun).
  exists s'. unfold sendToAll, bind. rewrite Hget. simpl.
  rewrite Hids. rewrite Hrun. reflexivity.
Qed.

Lemma NewAddCmdByFile_fails (file : string) (s : State) (e : error) :
  ioutil_ReadFile file (world s) = inr e ->
  NewAddCmdByFile file s = Returned (None, Some e) s.
Proof.
  intros Hread. unfold NewAddCmdByFile, bind, ReadFile.
  rewrite Hread. reflexivity.
Qed.

(** [Version] has no error result: it returns the version field of
    whatever [sendCommand] handed back. *)
Lemma Version_of_response (ac : TransmissionClient) (resp : Command)
    (err : option error) (s s' : State) :
  sendCommand ac (Command_of_Method "session-get") s
  = Returned (resp, err) s' ->
  Version ac s = Returned (arguments_Version (Command_Arguments resp)) s'.
Proof.
  intros Hsend. unfold Version, bind. rewrite Hsend. reflexivity.
Qed.

(** C3, as amended.  Every public operation that has an error result
    returns the error of the step that failed: a round trip that fails
    with [e] (in serialization, transport or decoding) makes
    [ExecuteCommand], [ExecuteAddCommand], [GetTorrents], [GetTorrent],
    [GetStats], [DeleteTorrent] (at its lookup and at its removal),
    [StartTorrent], [StopTorrent], [VerifyTorrent], [StartAll], [StopAll],
    [VerifyAll] (at their fetch and at their send) and [New] return [e],
    and a failed file read makes [NewAddCmdByFile] return the read error
    and no command.  [Version], which has no error result, returns the
    version field of whatever response [sendCommand] produced. *)
Theorem errors_reach_the_caller
    (ac : TransmissionClient) (s : State) (e : error) :
  (forall cmd,
      round_trip_fails ac cmd s e ->
      exists out s', ExecuteCommand ac cmd s = Returned (out, Some e) s')
  /\ (forall addCmd,
        round_trip_fails ac addCmd s e ->
        exists s', ExecuteAddCommand ac addCmd s
                   = Returned (zero_TorrentAdded, Some e) s')
  /\ (round_trip_fails ac NewGetTorrentsCmd s e ->
      exists s', GetTorrents ac s = Returned ([], Some e) s')
  /\ (forall id,
        round_trip_fails ac
          (upd_Arguments (with_Ids [id]) NewGetTorrentsCmd) s e ->
        exists s', GetTorrent ac id s
                   = Returned (Some zero_Torrent, Some e) s')
  /\ (round_trip_fails ac (Command_of_Method "session-stats") s e ->
      exists s', GetStats ac s = Returned (None, Some e) s')
  /\ (forall id withData,
        round_trip_fails ac
          (upd_Arguments (with_Ids [id]) NewGetTorrentsCmd) s e ->
        exists s', DeleteTorrent ac id withData s = Returned ("", Some e) s')
  /\ (forall id withData t s1,
        GetTorrent ac id s = Returned (t, None) s1 ->
        round_trip_fails ac (newDelCmd id withData) s1 e ->
        exists s', DeleteTorrent ac id withData s = Returned ("", Some e) s')
  /\ (forall op method ids,
        In (op, method) simple_operations ->
        round_trip_fails ac
          (upd_Arguments (with_Ids ids) (Command_of_Method method)) s e ->
        exists result s', op ac ids s = Returned (result, Some e) s')
  /\ (forall op method,
        In (op, method) bulk_operations ->
        round_trip_fails ac NewGetTorrentsCmd s e ->
        exists s', op ac s = Returned (Some e) s')
  /\ (forall op method torrents ids s1 s2,
        In (op, method) bulk_operations ->
        GetTorrents ac s = Returned (torrents, None) s1 ->
        Torrents_GetIDs torrents s1 = Returned ids s2 ->
        round_trip_fails ac
          (upd_Arguments (with_Ids ids) (Command_of_Method method)) s2 e ->
        exists s', op ac s = Returned (Some e) s')
  /\ (forall url username password,
        let client := {| apiclient := NewClient url username password |} in
        round_trip_fails client (Command_of_Method "session-get") s e ->
        exists s', New url username password s
                   = Returned (Some client, Some e) s')
  /\ (forall file,
        ioutil_ReadFile file (world s) = inr e ->
        NewAddCmdByFile file s = Returned (None, Some e) s)
  /\ (forall resp err s',
        sendCommand ac (Command_of_Method "session-get") s
        = Returned (resp, err) s' ->
        Version ac s
        = Returned (arguments_Version (Command_Arguments resp)) s').
Proof.
  repeat match goal with |- _ /\ _ => split end.
  - intros cmd. apply ExecuteCommand_fails.
  - intros addCmd. apply ExecuteAddCommand_fails.
  - apply GetTorrents_fails.
  - intros id. apply GetTorrent_fails.
  - apply GetStats_fails.
  - intros id withData Hfail.
    destruct (GetTorrent_fails _ _ _ _ Hfail) as (s' & Hget).
    exists s'. unfold DeleteTorrent, bind. rewrite Hget. reflexivity.
  - intros id withData t s1 Hget Hfail.
    destruct (ExecuteCommand_fails _ _ _ _ Hfail) as (out & s' & Hdel).
    exists s'. exact (DeleteTorrent_remove_error _ _ _ _ _ _ _ _ _ Hget Hdel).
  - intros op method ids Hin Hfail. simpl in Hin.
    destruct Hin as [Heq | [Heq | [Heq | []]]];
      injection Heq as <- <-; exact (sendSimpleCommand_fails _ _ _ _ _ Hfail).
  - intros op method Hin Hfail. simpl in Hin.
    destruct Hin as [Heq | [Heq | [Heq | []]]];
      injection Heq as <- <-; exact (sendToAll_fetch_fails _ _ _ _ Hfail).
  - intros op method torrents ids s1 s2 Hin Hget Hids Hfail. simpl in Hin.
    destruct Hin as [Heq | [Heq | [Heq | []]]];
      injection Heq as <- <-;
      exact (sendToAll_send_fails _ _ _ _ _ _ _ _ Hget Hids Hfail).
  - intros url username password client Hfail.
    destruct (sendCommand_fails _ _ _ _ Hfail) as (resp & s' & Hsend).
    exists s'. unfold New, bind. fold client. rewrite Hsend. reflexivity.
  - intros file. apply NewAddCmdByFile_fails.
  - intros resp err s'. apply Version_of_response.
Qed.
End ClientProperties.

Lemma ExecuteAddCommand_duplicate_precedence_witness :
  @ExecuteAddCommand Scripted.daemon Scripted.client
    (NewAddCmdByURL "magnet:?xt=urn:btih:aa11")
    (Scripted.start [inl [Byte.x04]])
  = Returned
      ({| TorrentAdded_HashString := "aa11"; TorrentAdded_ID := 1;
          TorrentAdded_Name := "ubuntu.iso" |}, None)
      (@Build_State Scripted.daemon [] SortID []
         [("http://127.0.0.1:9091/transmission/rpc", "torrent-add")]).
Proof.
  refine (proj1 (@ExecuteAddCommand_duplicate_precedence Scripted.daemon
                   Scripted.client _ Scripted.duplicate_add _
                   (@Build_State Scripted.daemon [] SortID []
                      [("http://127.0.0.1:9091/transmission/rpc",
                        "torrent-add")]) _) _).
  - reflexivity.
  - simpl. discriminate.
Defined.

(* ================================================================== *)
(** * Properties of the wire form *)

Lemma keys_omitempty_slice (key : string) (elems : list json) :
  map fst (member_omitempty_slice key elems)
  = if is_nil elems then [] else [key].
Proof. destruct elems; reflexivity. Qed.

Lemma keys_omitempty_string (key s : string) :
  map fst (member_omitempty_string key s)
  = if String.eqb s "" then [] else [key].
Proof. unfold member_omitempty_string. destruct (String.eqb s ""); reflexivity. Qed.

Lemma keys_omitempty_bool (key : string) (b : bool) :
  map fst (member_omitempty_bool key b) = if negb b then [] else [key].
Proof. destruct b; reflexivity. Qed.

Lemma is_nil_map {A B : Type} (f : A -> B) (l : list A) :
  is_nil (map f l) = is_nil l.
Proof. destruct l; reflexivity. Qed.

Lemma wire_keys_written (a : arguments) :
  wire_keys a
  = keys_written (is_nil (arguments_Fields a)) (is_nil (arguments_Torrents a))
      (is_nil (arguments_Ids a)) (negb (arguments_DeleteData a))
      (String.eqb (arguments_DownloadDir a) "")
      (String.eqb (arguments_MetaInfo a) "")
      (String.eqb (arguments_Filename a) "").
Proof.
  unfold wire_keys, arguments_members, keys_written.
  repeat rewrite map_app.
  repeat rewrite keys_omitempty_slice.
  repeat rewrite keys_omitempty_string.
  rewrite keys_omitempty_bool.
  repeat rewrite is_nil_map.
  reflexivity.
Qed.

Lemma mem_In (key : string) (l : list string) :
  mem key l = true <-> In key l.
Proof.
  unfold mem. rewrite existsb_exists. split.
  - intros (x & Hin & Heq). apply String.eqb_eq in Heq. now subst.
  - intros Hin. exists key. split; [ exact Hin | apply String.eqb_refl ].
Qed.

Lemma omitempty_keys_written (fields torrents ids del dir meta file : bool) :
  map (fun key => mem key (keys_written fields torrents ids del dir meta file))
      omitempty_keys
  = map negb [fields; torrents; ids; del; dir; meta; file].
Proof.
  destruct fields, torrents, ids, del, dir, meta, file; vm_compute;
    reflexivity.
Qed.

Lemma keys_written_known (fields torrents ids del dir meta file : bool) :
  forallb (fun key => mem key (omitempty_keys ++ plain_keys))
          (keys_written fields torrents ids del dir meta file)
  = true.
Proof.
  destruct fields, torrents, ids, del, dir, meta, file; vm_compute;
    reflexivity.
Qed.

Lemma omitempty_key_written (fields torrents ids del dir meta file : bool)
    (key : string) (zero : bool) :
  In (key, zero)
     [ ("fields", fields); ("torrents", torrents); ("ids", ids);
       ("delete-local-data", del); ("download-dir", dir);
       ("metainfo", meta); ("filename", file) ] ->
  zero = true <->
  ~ In key (keys_written fields torrents ids del dir meta file).
Proof.
  intros Hin.
  pose proof (omitempty_keys_written fields torrents ids del dir meta file)
    as Hmem.
  rewrite <- mem_In.
  unfold omitempty_keys in Hmem. cbn [map] in Hmem.
  injection Hmem as H1 H2 H3 H4 H5 H6 H7.
  simpl in Hin.
  repeat (destruct Hin as [Heq | Hin]; [ injection Heq as <- <- | ]);
    try contradiction;
    match goal with
    | Hk : mem ?k _ = negb ?z |- ?z = true <-> _ =>
        rewrite Hk; destruct z; simpl; intuition congruence
    end.
Qed.

(** C4, as amended.  In the encoded argument bag of every command, a
    field whose tag carries [omitempty] (fields, torrents, ids,
    delete-local-data, download-dir, metainfo, filename) is left out
    exactly when it holds its zero value; the other ten fields
    (torrent-added, torrent-duplicate, the session statistics and version)
    are written whatever they hold, zero included. *)
Theorem wire_omits_exactly_the_empty_omitempty_fields (c : Command) :
  let a := Command_Arguments c in
  (forall key zero,
      In (key, zero) (fields_at_zero a) ->
      In key omitempty_keys ->
      (zero = true <-> ~ In key (wire_keys a)))
  /\ (forall key, In key plain_keys -> In key (wire_keys a))
  /\ (forall key, In key (wire_keys a) ->
                  In key (omitempty_keys ++ plain_keys)).
Proof.
  intros a. rewrite wire_keys_written. split; [ | split ].
  - intros key zero Hin Hom.
    apply omitempty_key_written.
    unfold fields_at_zero in Hin.
    simpl in Hin, Hom.
    repeat (destruct Hin as [Heq | Hin];
            [ injection Heq as <- <-;
              first [ simpl; tauto
                    | exfalso;
                      repeat (destruct Hom as [Hom | Hom];
                              [ discriminate Hom | ]);
                      exact Hom ] | ]).
    contradiction.
  - intros key Hin. unfold keys_written.
    repeat (apply in_or_app; right). exact Hin.
  - intros key Hin. apply mem_In.
    pose proof (keys_written_known
                  (is_nil (arguments_Fields a)) (is_nil (arguments_Torrents a))
                  (is_nil (arguments_Ids a)) (negb (arguments_DeleteData a))
                  (String.eqb (arguments_DownloadDir a) "")
                  (String.eqb (arguments_MetaInfo a) "")
                  (String.eqb (arguments_Filename a) "")) as Hall.
    rewrite forallb_forall in Hall. exact (Hall key Hin).
Qed.

(** The claim as written fails on the command of [NewAddCmdByURL]: the
    torrent-added descriptor holds its zero value and is on the wire, as
    are nine more zero-valued fields. *)
Lemma wire_keeps_zero_valued_fields :
  let a := Command_Arguments (NewAddCmdByURL "magnet:?xt=urn:btih:aa11") in
  In ("torrent-added", true) (fields_at_zero a)
  /\ In "torrent-added" (wire_keys a)
  /\ wire_keys a
     = [ "filename"; "torrent-added"; "torrent-duplicate";
         "activeTorrentCount"; "cumulative-stats"; "current-stats";
         "downloadSpeed"; "pausedTorrentCount"; "torrentCount";
         "uploadSpeed"; "version" ].
Proof.
  repeat split; simpl; tauto.
Qed.

(* ================================================================== *)
(** * Properties of the add-command constructors *)

(** The encoder on the test vectors of RFC 4648. *)
Lemma EncodeToString_rfc4648 :
  map (fun s => base64.EncodeToString (list_byte_of_string s))
      [ ""; "f"; "fo"; "foo"; "foob"; "fooba"; "foobar" ]
  = [ ""; "Zg=="; "Zm8="; "Zm9v"; "Zm9vYg=="; "Zm9vYmE="; "Zm9vYmFy" ].
Proof. reflexivity. Qed.

(** Only the empty input encodes to the empty string. *)
Lemma EncodeToString_empty (src : bytes) :
  base64.EncodeToString src = "" <-> src = [].
Proof.
  destruct src as [ | a [ | b [ | c rest ] ] ]; simpl;
    split; intros Heq; try reflexivity; discriminate Heq.
Qed.

(** Four characters for every group of three bytes, the last group
    padded. *)
Lemma EncodeToString_length_step (a b c : Byte.byte) (rest : bytes) :
  String.length (base64.EncodeToString (a :: b :: c :: rest))
  = (4 + String.length (base64.EncodeToString rest))%nat.
Proof. reflexivity. Qed.

Lemma EncodeToString_length_aux (n : nat) :
  forall src : bytes,
    (List.length src <= n)%nat ->
    String.length (base64.EncodeToString src)
    = (4 * ((List.length src + 2) / 3))%nat.
Proof.
  induction n as [ | n IH ]; intros src Hlen.
  - destruct src; [ reflexivity | simpl in Hlen; lia ].
  - destruct src as [ | a [ | b [ | c rest ] ] ]; try reflexivity.
    rewrite EncodeToString_length_step.
    rewrite IH by (simpl in Hlen; lia).
    cbn [List.length].
    replace (S (S (S (List.length rest))) + 2)%nat
      with ((List.length rest + 2) + 1 * 3)%nat by lia.
    rewrite Nat.div_add by discriminate. lia.
Qed.

Lemma EncodeToString_length (src : bytes) :
  String.length (base64.EncodeToString src)
  = (4 * ((List.length src + 2) / 3))%nat.
Proof. apply (EncodeToString_length_aux (List.length src)). lia. Qed.

Section AddCommands.
Context `{Collaborators}.

(** C7, as amended.  Every add-command constructor that returns a command
    returns one with method "torrent-add".  [NewAddCmd] populates neither
    filename nor metainfo.  The URL and filename variants set filename to
    the string given and leave metainfo empty; the bytes and file variants
    set metainfo to the base64 encoding of the bytes (of the file read) and
    leave filename empty.  So at most one of the two is populated, and one
    is exactly when the string or the bytes given are not empty.  When the
    read of the file fails, [NewAddCmdByFile] returns the read error and no
    command. *)
Theorem add_command_constructors :
  (Command_Method NewAddCmd = "torrent-add"
   /\ Command_Filename NewAddCmd = "" /\ Command_MetaInfo NewAddCmd = "")
  /\ (forall url,
        Command_Method (NewAddCmdByURL url) = "torrent-add"
        /\ Command_Filename (NewAddCmdByURL url) = url
        /\ Command_MetaInfo (NewAddCmdByURL url) = "")
  /\ (forall filename,
        Command_Method (NewAddCmdByFilename filename) = "torrent-add"
        /\ Command_Filename (NewAddCmdByFilename filename) = filename
        /\ Command_MetaInfo (NewAddCmdByFilename filename) = "")
  /\ (forall b,
        exists cmd,
          NewAddCmdByBytes b = (Some cmd, None)
          /\ Command_Method cmd = "torrent-add"
          /\ Command_MetaInfo cmd = base64.EncodeToString b
          /\ Command_Filename cmd = "")
  /\ (forall file fileData s,
        ioutil_ReadFile file (world s) = inl fileData ->
        exists cmd,
          NewAddCmdByFile file s = Returned (Some cmd, None) s
          /\ Command_Method cmd = "torrent-add"
          /\ Command_MetaInfo cmd = base64.EncodeToString fileData
          /\ Command_Filename cmd = "")
  /\ (forall file e s,
        ioutil_ReadFile file (world s) = inr e ->
        NewAddCmdByFile file s = Returned (None, Some e) s)
  /\ (forall b, base64.EncodeToString b <> "" <-> b <> []).
Proof.
  split; [ repeat split | ].
  split; [ intros url; repeat split | ].
  split; [ intros filename; repeat split | ].
  split; [ intros b; eexists; repeat split | ].
  split; [ | split ].
  - intros file fileData s Hread.
    unfold NewAddCmdByFile, bind, ReadFile. rewrite Hread.
    eexists. repeat split.
  - intros file e s. apply NewAddCmdByFile_fails.
  - intros b. split.
    + intros Hne ->. apply Hne. reflexivity.
    + intros Hne Henc. apply Hne. apply EncodeToString_empty. exact Henc.
Qed.
End AddCommands.

(** The claim as written fails: [NewAddCmd], the URL variant on the empty
    string and the bytes variant on no bytes populate neither field. *)
Lemma add_constructors_may_populate_neither :
  (Command_Filename NewAddCmd = "" /\ Command_MetaInfo NewAddCmd = "")
  /\ (Command_Filename (NewAddCmdByURL "") = ""
      /\ Command_MetaInfo (NewAddCmdByURL "") = "")
  /\ NewAddCmdByBytes [] = (Some NewAddCmd, None).
Proof. repeat split. Qed.

(* ================================================================== *)
(** * Properties of the sort *)

Section SortFacts.
Context {A : Type}.
Variable less : A -> A -> bool.
Hypothesis less_swo : StrictWeakOrder less.

Lemma insert_sorted_perm (x : A) (l : list A) :
  Permutation (x :: l) (insert_sorted less x l).
Proof.
  induction l as [ | y l IH ]; simpl.
  - apply Permutation_refl.
  - destruct (less x y).
    + apply Permutation_refl.
    + apply perm_trans with (y :: x :: l).
      * apply perm_swap.
      * apply perm_skip. exact IH.
Qed.

Lemma sort_by_perm (l : list A) : Permutation l (sort_by less l).
Proof.
  induction l as [ | x l IH ]; simpl.
  - apply perm_nil.
  - apply perm_trans with (x :: sort_by less l).
    + apply perm_skip. exact IH.
    + apply insert_sorted_perm.
Qed.

Lemma insert_sorted_non_decreasing (x : A) (l : list A) :
  non_decreasing less l -> non_decreasing less (insert_sorted less x l).
Proof.
  unfold non_decreasing.
  induction l as [ | y l IH ]; intros Hs; simpl.
  - constructor; constructor.
  - apply StronglySorted_inv in Hs. destruct Hs as [Hl Hy].
    destruct (less x y) eqn:Hxy.
    + constructor.
      * constructor; assumption.
      * constructor.
        -- apply (less_asym less less_swo). exact Hxy.
        -- rewrite Forall_forall in *. intros b Hb.
           apply (less_negtrans less less_swo) with y.
           ++ apply (less_asym less less_swo). exact Hxy.
           ++ apply Hy. exact Hb.
    + constructor.
      * apply IH. exact Hl.
      * apply Permutation_Forall with (x :: l).
        -- apply insert_sorted_perm.
        -- constructor; assumption.
Qed.

Lemma sort_by_non_decreasing (l : list A) :
  non_decreasing less (sort_by less l).
Proof.
  induction l as [ | x l IH ]; simpl.
  - constructor.
  - apply insert_sorted_non_decreasing. exact IH.
Qed.

Lemma reverse_less_swo : StrictWeakOrder (reverse_less less).
Proof.
  split; unfold reverse_less.
  - intros a b. apply (less_asym less less_swo).
  - intros a b c Hab Hbc. apply (less_negtrans less less_swo) with b; assumption.
Qed.

Lemma distinct_keys_perm (l l' : list A) :
  Permutation l l' -> distinct_keys less l -> distinct_keys less l'.
Proof.
  unfold distinct_keys.
  induction 1 as [ | x l l' Hp IH | x y l | l l' l'' Hp1 IH1 Hp2 IH2 ];
    intros Hd.
  - constructor.
  - inversion Hd as [ | ? ? Hx Hl ]; subst. constructor.
    + apply Permutation_Forall with l; assumption.
    + apply IH. exact Hl.
  - inversion Hd as [ | ? ? Hy Hxl ]; subst.
    inversion Hxl as [ | ? ? Hx Hl ]; subst.
    inversion Hy as [ | ? ? Hyx Hyl ]; subst.
    constructor.
    + constructor; [ tauto | exact Hx ].
    + constructor; assumption.
  - apply IH2. apply IH1. exact Hd.
Qed.

Lemma distinct_keys_reverse (l : list A) :
  distinct_keys less l -> distinct_keys (reverse_less less) l.
Proof.
  unfold distinct_keys, reverse_less.
  induction 1 as [ | a l Ha Hl IH ]; constructor.
  - rewrite Forall_forall in *. intros b Hb.
    destruct (Ha b Hb); tauto.
  - exact IH.
Qed.

(** With distinct keys a non-decreasing list is strictly increasing. *)
Lemma non_decreasing_strict (l : list A) :
  non_decreasing less l -> distinct_keys less l ->
  StronglySorted (fun a b => less a b = true) l.
Proof.
  unfold non_decreasing, distinct_keys.
  induction l as [ | a l IH ]; intros Hs Hd.
  - constructor.
  - apply StronglySorted_inv in Hs. destruct Hs as [Hl Ha].
    inversion Hd as [ | ? ? Hda Hdl ]; subst.
    constructor.
    + apply IH; assumption.
    + rewrite Forall_forall in *. intros b Hb.
      destruct (Hda b Hb) as [Hab | Hba]; [ exact Hab | ].
      rewrite (Ha b Hb) in Hba. discriminate.
Qed.

(** A strictly increasing list is the only strictly increasing
    arrangement of its entries. *)
Lemma strictly_sorted_unique (l1 : list A) :
  forall l2,
    StronglySorted (fun a b => less a b = true) l1 ->
    StronglySorted (fun a b => less a b = true) l2 ->
    Permutation l1 l2 -> l1 = l2.
Proof.
  induction l1 as [ | a l1 IH ]; intros l2 H1 H2 Hp.
  - apply Permutation_nil in Hp. now subst.
  - destruct l2 as [ | b l2 ].
    + apply Permutation_sym, Permutation_nil in Hp. discriminate.
    + apply StronglySorted_inv in H1. destruct H1 as [Hs1 Ha].
      apply StronglySorted_inv in H2. destruct H2 as [Hs2 Hb].
      rewrite Forall_forall in Ha, Hb.
      assert (Heq : a = b).
      { assert (Hina : In a (b :: l2))
          by (apply Permutation_in with (a :: l1); [ exact Hp | now left ]).
        assert (Hinb : In b (a :: l1))
          by (apply Permutation_in with (b :: l2);
              [ apply Permutation_sym; exact Hp | now left ]).
        destruct Hina as [Hba | Hina]; [ now subst | ].
        destruct Hinb as [Hab | Hinb]; [ exact Hab | ].
        pose proof (Hb a Hina) as Hlt1.
        pose proof (Ha b Hinb) as Hlt2.
        apply (less_asym less less_swo) in Hlt1.
        rewrite Hlt1 in Hlt2. discriminate. }
      subst b. f_equal. apply IH; try assumption.
      apply Permutation_cons_inv with a. exact Hp.
Qed.

Lemma strictly_sorted_rev (l : list A) :
  StronglySorted (fun a b => less a b = true) l ->
  StronglySorted (fun a b => less b a = true) (rev l).
Proof.
  induction l as [ | a l IH ]; intros Hs; simpl.
  - constructor.
  - apply StronglySorted_inv in Hs. destruct Hs as [Hl Ha].
    specialize (IH Hl).
    assert (Hall : Forall (fun x => less a x = true) (rev l))
      by (apply Permutation_Forall with l;
          [ apply Permutation_rev | exact Ha ]).
    clear Ha Hl. induction IH as [ | b m Hm IHm Hb ]; simpl.
    + constructor; constructor.
    + inversion Hall as [ | ? ? Hab Hrest ]; subst.
      constructor.
      * apply IHm. exact Hrest.
      * apply Forall_app. split; [ exact Hb | ].
        constructor; [ exact Hab | constructor ].
Qed.
End SortFacts.

(** Sorting in one direction and then in the other reverses the list when
    the keys are pairwise distinct. *)
Lemma sort_by_then_reverse {A : Type} (less : A -> A -> bool) (l : list A) :
  StrictWeakOrder less -> distinct_keys less l ->
  sort_by (reverse_less less) (sort_by less l) = rev (sort_by less l).
Proof.
  intros Hswo Hd.
  pose proof (reverse_less_swo less Hswo) as Hrswo.
  assert (Hds : distinct_keys less (sort_by less l))
    by (apply distinct_keys_perm with l; [ apply sort_by_perm | exact Hd ]).
  apply (strictly_sorted_unique (reverse_less less) Hrswo).
  - apply (non_decreasing_strict (reverse_less less)).
    + apply sort_by_non_decreasing. exact Hrswo.
    + apply distinct_keys_perm with (sort_by less l).
      * apply sort_by_perm.
      * apply distinct_keys_reverse. exact Hds.
  - apply (strictly_sorted_rev less).
    apply non_decreasing_strict; [ | exact Hds ].
    apply sort_by_non_decreasing. exact Hswo.
  - apply perm_trans with (sort_by less l).
    + apply Permutation_sym. apply sort_by_perm.
    + apply Permutation_rev.
Qed.

(** Sorting by the exchanged comparison gives a non-increasing list. *)
Lemma sort_by_reverse_non_increasing {A : Type} (less : A -> A -> bool)
    (l : list A) :
  StrictWeakOrder less ->
  non_increasing less (sort_by (reverse_less less) l).
Proof.
  intros Hswo.
  exact (sort_by_non_decreasing (reverse_less less)
           (reverse_less_swo less Hswo) l).
Qed.

(** ** The comparisons of the sort modes *)

Lemma Zltb_swo : StrictWeakOrder Z.ltb.
Proof.
  split.
  - intros a b Hab. apply Z.ltb_lt in Hab. apply Z.ltb_ge. lia.
  - intros a b c Hab Hbc. apply Z.ltb_ge in Hab, Hbc. apply Z.ltb_ge. lia.
Qed.

Lemma Qltb_true (x y : Q) : Qltb x y = true <-> (x < y)%Q.
Proof.
  unfold Qltb. rewrite negb_true_iff. split.
  - intros Hle. apply Qnot_le_lt. intros Hyx.
    apply Qle_bool_iff in Hyx. congruence.
  - intros Hlt. destruct (Qle_bool y x) eqn:Hle; [ | reflexivity ].
    apply Qle_bool_iff in Hle. exfalso. exact (Qlt_not_le _ _ Hlt Hle).
Qed.

Lemma Qltb_false (x y : Q) : Qltb x y = false <-> (y <= x)%Q.
Proof.
  unfold Qltb. rewrite negb_false_iff. apply Qle_bool_iff.
Qed.

Lemma Qltb_swo : StrictWeakOrder Qltb.
Proof.
  split.
  - intros a b Hab. apply Qltb_true in Hab. apply Qltb_false.
    apply Qlt_le_weak. exact Hab.
  - intros a b c Hab Hbc. apply Qltb_false in Hab, Hbc. apply Qltb_false.
    apply Qle_trans with b; assumption.
Qed.

Lemma String_ltb_lt (a b : string) :
  String.ltb a b = true <-> String_as_OT.lt a b.
Proof.
  rewrite <- String_as_OT.cmp_lt. unfold String.ltb, String_as_OT.cmp.
  destruct (String.compare a b); split; intros Heq;
    try reflexivity; discriminate.
Qed.

Lemma String_ltb_swo : StrictWeakOrder String.ltb.
Proof.
  split.
  - intros a b Hab. unfold String.ltb in *.
    rewrite String.compare_antisym.
    destruct (String.compare a b); try discriminate. reflexivity.
  - intros a b c Hba Hcb.
    destruct (String.ltb c a) eqn:Hca; [ exfalso | reflexivity ].
    apply String_ltb_lt in Hca.
    unfold String.ltb in Hcb.
    destruct (String.compare c b) eqn:Hcmp; try discriminate.
    + apply String.compare_eq_iff in Hcmp. subst c.
      apply String_ltb_lt in Hca. congruence.
    + assert (Hbc : String_as_OT.lt b c).
      { apply String_as_OT.cmp_lt. unfold String_as_OT.cmp.
        rewrite String.compare_antisym, Hcmp. reflexivity. }
      pose proof (String_as_OT.lt_trans _ _ _ Hbc Hca) as Hlt.
      apply String_ltb_lt in Hlt. congruence.
Qed.

(** A comparison of keys is a comparison of the entries that carry them. *)
Lemma by_key_swo {A K : Type} (key : A -> K) (ltb : K -> K -> bool) :
  StrictWeakOrder ltb -> StrictWeakOrder (fun a b => ltb (key a) (key b)).
Proof.
  intros [Hasym Hneg]. split.
  - intros a b. apply Hasym.
  - intros a b c. apply Hneg.
Qed.

Lemma Sorting_less_swo (st : Sorting) : StrictWeakOrder (Sorting_less st).
Proof.
  destruct st; simpl;
    first [ exact (by_key_swo Torrent_ID Z.ltb Zltb_swo)
          | exact (by_key_swo Torrent_Name String.ltb String_ltb_swo)
          | exact (by_key_swo Torrent_AddedDate Z.ltb Zltb_swo)
          | exact (by_key_swo Torrent_SizeWhenDone Z.ltb Zltb_swo)
          | exact (by_key_swo Torrent_PercentDone Qltb Qltb_swo)
          | exact (by_key_swo Torrent_RateDownload Z.ltb Zltb_swo)
          | exact (by_key_swo Torrent_RateUpload Z.ltb Zltb_swo)
          | exact (by_key_swo Torrent_DownloadedEver Z.ltb Zltb_swo)
          | exact (by_key_swo Torrent_UploadedEver Z.ltb Zltb_swo)
          | exact (by_key_swo Torrent_UploadRatio Qltb Qltb_swo) ].
Qed.

Lemma deref_all_Some (l : list Torrent) : deref_all (map Some l) = Some l.
Proof.
  induction l as [ | x l IH ]; simpl; [ reflexivity | ].
  rewrite IH. reflexivity.
Qed.

(** On a slice without nil entries the sort method is the list sort. *)
Lemma sort_Torrents_Some (less : Torrent -> Torrent -> bool) (reverse : bool)
    (l : list Torrent) :
  sort_Torrents less reverse (map Some l)
  = Some (map Some (sort_by (if reverse then reverse_less less else less) l)).
Proof.
  destruct l as [ | x [ | y l ] ]; try reflexivity.
  unfold sort_Torrents. rewrite deref_all_Some.
  cbn [map]. reflexivity.
Qed.

Lemma GetTorrents_switch_sorts (st : Sorting) (l : list Torrent) :
  st <> SortID ->
  GetTorrents_switch st (map Some l)
  = Some (map Some
            (sort_by (if Sorting_reverse st
                      then reverse_less (Sorting_less st)
                      else Sorting_less st) l)).
Proof.
  intros Hst.
  destruct st; try contradiction; apply sort_Torrents_Some.
Qed.

(** The sort modes other than [SortID]: the result is a permutation of
    the slice, ordered by the key in the direction of the mode. *)
Lemma GetTorrents_switch_sorted (st : Sorting) (l : list Torrent) :
  st <> SortID ->
  exists r,
    GetTorrents_switch st (map Some l) = Some (map Some r)
    /\ Permutation l r /\ ordered_by st r.
Proof.
  intros Hst. eexists. split; [ apply GetTorrents_switch_sorts; exact Hst | ].
  pose proof (Sorting_less_swo st) as Hswo.
  unfold ordered_by. destruct (Sorting_reverse st); split.
  - apply sort_by_perm.
  - apply sort_by_reverse_non_increasing. exact Hswo.
  - apply sort_by_perm.
  - apply sort_by_non_decreasing. exact Hswo.
Qed.

(** A mode whose key is not the id, followed by its reverse pair, on
    pairwise-distinct keys: the second result is the first one reversed. *)
Lemma GetTorrents_switch_reverse_pair (st : Sorting) (l : list Torrent) :
  st <> SortID -> st <> SortRevID ->
  distinct_keys (Sorting_less st) l ->
  exists r,
    GetTorrents_switch st (map Some l) = Some (map Some r)
    /\ GetTorrents_switch (reverse_pair st) (map Some r)
       = Some (map Some (rev r)).
Proof.
  intros Hid Hrev Hd.
  eexists. split; [ apply GetTorrents_switch_sorts; exact Hid | ].
  rewrite GetTorrents_switch_sorts by (destruct st; simpl; congruence).
  do 2 f_equal.
  pose proof (Sorting_less_swo st) as Hswo.
  destruct st; try contradiction; simpl;
    first [ apply sort_by_then_reverse; assumption
          | apply (sort_by_then_reverse (reverse_less _));
            [ apply reverse_less_swo; assumption
            | apply distinct_keys_reverse; assumption ] ].
Qed.

(** Sorting in the descending direction gives the reverse of sorting in
    the ascending one when the keys are pairwise distinct. *)
Lemma sort_by_reverse_rev {A : Type} (less : A -> A -> bool) (l : list A) :
  StrictWeakOrder less -> distinct_keys less l ->
  sort_by (reverse_less less) l = rev (sort_by less l).
Proof.
  intros Hswo Hd.
  pose proof (reverse_less_swo less Hswo) as Hrswo.
  apply (strictly_sorted_unique (reverse_less less) Hrswo).
  - apply (non_decreasing_strict (reverse_less less)).
    + apply sort_by_non_decreasing. exact Hrswo.
    + apply distinct_keys_perm with l.
      * apply sort_by_perm.
      * apply distinct_keys_reverse. exact Hd.
  - apply (strictly_sorted_rev less).
    apply non_decreasing_strict.
    + apply sort_by_non_decreasing. exact Hswo.
    + apply distinct_keys_perm with l; [ apply sort_by_perm | exact Hd ].
  - apply perm_trans with l.
    + apply Permutation_sym. apply sort_by_perm.
    + apply perm_trans with (sort_by less l).
      * apply sort_by_perm.
      * apply Permutation_rev.
Qed.

(** Sorting leaves a list alone that is in order already, when the keys
    are pairwise distinct. *)
Lemma sort_by_ordered {A : Type} (less : A -> A -> bool) (l : list A) :
  StrictWeakOrder less -> non_decreasing less l -> distinct_keys less l ->
  sort_by less l = l.
Proof.
  intros Hswo Hasc Hd.
  apply (strictly_sorted_unique less Hswo).
  - apply non_decreasing_strict.
    + apply sort_by_non_decreasing. exact Hswo.
    + apply distinct_keys_perm with l; [ apply sort_by_perm | exact Hd ].
  - apply non_decreasing_strict; assumption.
  - apply Permutation_sym. apply sort_by_perm.
Qed.

(** Every sort mode, on a slice delivered in ascending order of id: the
    result is a permutation of the slice, ordered by the key in the
    direction of the mode. *)
Lemma GetTorrents_switch_ordered (st : Sorting) (l : list Torrent) :
  non_decreasing byID l ->
  exists r,
    GetTorrents_switch st (map Some l) = Some (map Some r)
    /\ Permutation l r /\ ordered_by st r.
Proof.
  intros Hasc.
  assert (Hcases : st = SortID \/ st <> SortID)
    by (destruct st; (left; reflexivity) || (right; discriminate)).
  destruct Hcases as [-> | Hid].
  - exists l. split; [ reflexivity | split ].
    + apply Permutation_refl.
    + exact Hasc.
  - apply GetTorrents_switch_sorted. exact Hid.
Qed.

(** Every sort mode and its reverse pair, on a slice delivered in
    ascending order of id with pairwise-distinct keys: the two results are
    the reverse of each other; and the reverse pair applied to the first
    result reverses it, unless the reverse pair is [SortID], which does
    not sort. *)
Lemma GetTorrents_switch_pair (st : Sorting) (l : list Torrent) :
  non_decreasing byID l ->
  distinct_keys (Sorting_less st) l ->
  exists r,
    GetTorrents_switch st (map Some l) = Some (map Some r)
    /\ GetTorrents_switch (reverse_pair st) (map Some l)
       = Some (map Some (rev r))
    /\ (st <> SortRevID ->
        GetTorrents_switch (reverse_pair st) (map Some r)
        = Some (map Some (rev r))).
Proof.
  intros Hasc Hd.
  pose proof (Sorting_less_swo st) as Hswo.
  assert (Hcases : st = SortID \/ st = SortRevID
                   \/ (st <> SortID /\ st <> SortRevID))
    by (destruct st;
        first [ left; reflexivity
              | right; left; reflexivity
              | right; right; split; discriminate ]).
  destruct Hcases as [-> | [-> | [Hid Hrev]]].
  - simpl in Hd, Hswo.
    assert (Hrevl : GetTorrents_switch SortRevID (map Some l)
                    = Some (map Some (rev l))).
    { simpl. unfold Torrents_SortID. rewrite sort_Torrents_Some.
      rewrite (sort_by_reverse_rev byID l Hswo Hd).
      rewrite (sort_by_ordered byID l Hswo Hasc Hd). reflexivity. }
    exists l. split; [ reflexivity | split ].
    + exact Hrevl.
    + intros _. exact Hrevl.
  - simpl in Hd, Hswo.
    exists (rev l). split; [ | split ].
    + simpl. unfold Torrents_SortID. rewrite sort_Torrents_Some.
      rewrite (sort_by_reverse_rev byID l Hswo Hd).
      rewrite (sort_by_ordered byID l Hswo Hasc Hd). reflexivity.
    + simpl. rewrite rev_involutive. reflexivity.
    + intros Habs. contradiction.
  - destruct (GetTorrents_switch_reverse_pair st l Hid Hrev Hd)
      as (r & Hsw & Hcomp).
    exists r. split; [ exact Hsw | split ].
    + rewrite GetTorrents_switch_sorts in Hsw by exact Hid.
      injection Hsw as Hr.
      assert (Hr' : r = sort_by (if Sorting_reverse st
                                 then reverse_less (Sorting_less st)
                                 else Sorting_less st) l).
      { clear -Hr. revert r Hr.
        generalize (sort_by (if Sorting_reverse st
                             then reverse_less (Sorting_less st)
                             else Sorting_less st) l).
        intros l1. induction l1 as [ | x l1 IH ]; intros [ | y r ] Hr;
          try discriminate Hr; try reflexivity.
        simpl in Hr. injection Hr as <- Hr. f_equal. apply IH. exact Hr. }
      subst r.
      rewrite GetTorrents_switch_sorts by (destruct st; simpl; congruence).
      do 2 f_equal.
      destruct st; try contradiction; simpl in Hswo, Hd |- *;
        first [ apply sort_by_reverse_rev; assumption
              | rewrite (sort_by_reverse_rev _ l Hswo Hd);
                rewrite rev_involutive; reflexivity ].
    + intros _. exact Hcomp.
Qed.

Section GetTorrentsProperties.
Context `{Collaborators}.

(** A round trip does not touch the sort mode. *)
Lemma ExecuteCommand_sortType (ac : TransmissionClient) (cmd : Command)
    (r : option Command * option error) (s s' : State) :
  ExecuteCommand ac cmd s = Returned r s' -> sortType s' = sortType s.
Proof.
  unfold ExecuteCommand.
  destruct (json_Marshal cmd) as [body | e];
    [ | unfold ret; intros Heq; injection Heq as _ <-; reflexivity ].
  unfold bind, Post.
  destruct (ApiClient_Post (apiclient ac) body (world s)) as [[output | e] w];
    [ | unfold ret; intros Heq; injection Heq as _ <-; reflexivity ].
  destruct (json_Unmarshal_ptr output) as [o [e | ]];
    unfold bind, log_output, ret; intros Heq; injection Heq as _ <-;
    reflexivity.
Qed.

(** After a successful fetch [GetTorrents] is its switch applied to the
    fetched slice, under the sort mode in force. *)
Lemma GetTorrents_fetched (ac : TransmissionClient) (out : Command)
    (s s' : State) :
  ExecuteCommand ac NewGetTorrentsCmd s = Returned (Some out, None) s' ->
  GetTorrents ac s
  = match GetTorrents_switch (sortType s)
            (arguments_Torrents (Command_Arguments out)) with
    | Some torrents => Returned (torrents, None) s'
    | None => Panicked s'
    end.
Proof.
  intros Hexec. pose proof (ExecuteCommand_sortType _ _ _ _ _ Hexec) as Hst.
  unfold GetTorrents, bind. rewrite Hexec. simpl.
  unfold get_sortType. rewrite Hst.
  destruct (GetTorrents_switch (sortType s)
              (arguments_Torrents (Command_Arguments out)));
    reflexivity.
Qed.

(** C5.  For every fetched collection, which the daemon delivers in
    ascending order of id, and every sort mode: [GetTorrents] returns a
    permutation of the collection that is non-decreasing by the key of the
    mode, non-increasing for the reverse modes; under the default mode
    [SortID] that is the collection exactly as delivered, with no re-sort;
    and when the keys are pairwise distinct, [GetTorrents] under the
    reverse pair of the mode returns, for the same collection, the exact
    reverse.  The reverse pair applied to the result itself gives the
    reverse as well, for each mode whose reverse pair sorts. *)
Theorem GetTorrents_order (ac : TransmissionClient) (out : Command)
    (s s' : State) (l : list Torrent) :
  ExecuteCommand ac NewGetTorrentsCmd s = Returned (Some out, None) s' ->
  arguments_Torrents (Command_Arguments out) = map Some l ->
  non_decreasing byID l ->
  (exists r,
      GetTorrents ac s = Returned (map Some r, None) s'
      /\ Permutation l r /\ ordered_by (sortType s) r)
  /\ (sortType s = SortID ->
      GetTorrents ac s = Returned (map Some l, None) s')
  /\ (distinct_keys (Sorting_less (sortType s)) l ->
      exists r,
        GetTorrents ac s = Returned (map Some r, None) s'
        /\ (forall ac2 out2 s2 s2',
              ExecuteCommand ac2 NewGetTorrentsCmd s2
              = Returned (Some out2, None) s2' ->
              arguments_Torrents (Command_Arguments out2) = map Some l ->
              sortType s2 = reverse_pair (sortType s) ->
              GetTorrents ac2 s2 = Returned (map Some (rev r), None) s2')
        /\ (sortType s <> SortRevID ->
            GetTorrents_switch (reverse_pair (sortType s)) (map Some r)
            = Some (map Some (rev r)))).
Proof.
  intros Hexec Hl Hasc.
  pose proof (GetTorrents_fetched _ _ _ _ Hexec) as Hget.
  rewrite Hl in Hget.
  split; [ | split ].
  - destruct (GetTorrents_switch_ordered (sortType s) l Hasc)
      as (r & Hsw & Hperm & Hord).
    rewrite Hsw in Hget. eauto.
  - intros Hid. rewrite Hid in Hget. exact Hget.
  - intros Hd.
    destruct (GetTorrents_switch_pair (sortType s) l Hasc Hd)
      as (r & Hsw & Hpair & Hcomp).
    rewrite Hsw in Hget.
    exists r. split; [ exact Hget | split ].
    + intros ac2 out2 s2 s2' Hexec2 Hl2 Hst2.
      rewrite (GetTorrents_fetched _ _ _ _ Hexec2), Hl2, Hst2, Hpair.
      reflexivity.
    + exact Hcomp.
Qed.
End GetTorrentsProperties.

(* ================================================================== *)
(** * Properties of the session handshake *)

Section HandshakeProperties.
Import Transport.
Context `{Network}.

(** C2.  When the first send of [body] is answered with status 409,
    [Post] stores the token of the response header and sends the same body
    once more with that token, and that is all it sends: two requests. If
    the retry is answered with a 2xx status, [Post] returns the body of
    that answer; if it is answered with any other status, 409 included,
    [Post] fails with a [TransportError]. *)
Theorem Post_retries_once_on_conflict
    (ac : ApiClient) (body : string) (st : TState)
    (r1 : Response) (n1 : Net) (retry : option Response) (n2 : Net) :
  http_POST (url ac) (request_of ac body (token st)) (net st)
  = (Some r1, n1) ->
  StatusCode r1 = 409 ->
  http_POST (url ac) (request_of ac body (HaveToken (SessionId r1))) n1
  = (retry, n2) ->
  token (snd (Post ac body st)) = HaveToken (SessionId r1)
  /\ sent (snd (Post ac body st))
     = sent st ++ [ request_of ac body (token st);
                    request_of ac body (HaveToken (SessionId r1)) ]
  /\ net (snd (Post ac body st)) = n2
  /\ (forall r2,
        retry = Some r2 -> is_2xx (StatusCode r2) = true ->
        fst (Post ac body st) = inl (Body r2))
  /\ (forall r2,
        retry = Some r2 -> is_2xx (StatusCode r2) = false ->
        exists msg, fst (Post ac body st) = inr (TransportError msg)).
Proof.
  intros Hfirst Hconflict Hsecond.
  unfold Post, send. fold (request_of ac body (token st)).
  rewrite Hfirst. rewrite Hconflict. simpl.
  fold (request_of ac body (HaveToken (SessionId r1))).
  rewrite Hsecond.
  destruct retry as [r2 | ]; simpl; rewrite <- app_assoc; simpl.
  - repeat split; try reflexivity.
    + intros r2' Heq H2xx. injection Heq as <-.
      unfold finish. rewrite H2xx. reflexivity.
    + intros r2' Heq H2xx. injection Heq as <-.
      unfold finish. rewrite H2xx. eauto.
  - repeat split; try reflexivity; intros r2 Heq; discriminate Heq.
Qed.

(** A first answer other than 409 is final: one request, no retry. *)
Lemma Post_without_conflict
    (ac : ApiClient) (body : string) (st : TState) (r1 : Response) (n1 : Net) :
  http_POST (url ac) (request_of ac body (token st)) (net st)
  = (Some r1, n1) ->
  StatusCode r1 <> 409 ->
  Post ac body st
  = (finish r1,
     {| token := token st; net := n1;
        sent := sent st ++ [request_of ac body (token st)] |}).
Proof.
  intros Hfirst Hstatus.
  unfold Post, send. fold (request_of ac body (token st)).
  rewrite Hfirst.
  destruct (Z.eqb_spec (StatusCode r1) 409); [ contradiction | reflexivity ].
Qed.
End HandshakeProperties.

Lemma Post_retries_once_on_conflict_witness :
  let st := Scripted.fresh_transport
              [ Some (Scripted.conflict "token-1");
                Some (Scripted.answer 200 [Byte.x7b; Byte.x7d]);
                Some (Scripted.answer 200 []) ] in
  fst (@Transport.Post Scripted.scripted_network Scripted.local_daemon "{}" st)
  = inl [Byte.x7b; Byte.x7d]
  /\ List.length
       (Transport.sent (snd (@Transport.Post Scripted.scripted_network Scripted.local_daemon
                               "{}" st))) = 2%nat.
Proof.
  intros st.
  destruct (@Post_retries_once_on_conflict Scripted.scripted_network Scripted.local_daemon
              "{}" st (Scripted.conflict "token-1")
              [ Some (Scripted.answer 200 [Byte.x7b; Byte.x7d]); Some (Scripted.answer 200 []) ]
              (Some (Scripted.answer 200 [Byte.x7b; Byte.x7d]))
              [ Some (Scripted.answer 200 []) ]
              eq_refl eq_refl eq_refl)
    as (_ & Hsent & _ & Hok & _).
  split.
  - apply (Hok (Scripted.answer 200 [Byte.x7b; Byte.x7d])); reflexivity.
  - rewrite Hsent. reflexivity.
Defined.

(* ================================================================== *)
(** * The theorems on concrete runs *)

Lemma GetTorrent_empty_or_first_witness :
  @GetTorrent Scripted.daemon Scripted.client "aa11"
    (Scripted.start [inl [Byte.x00]])
  = Returned (Some zero_Torrent, Some ErrNoTorrent)
      (Scripted.final [] SortID ["torrent-get"])
  /\ @GetTorrent Scripted.daemon Scripted.client "aa11"
       (Scripted.start [inl [Byte.x01]])
     = Returned (Some Scripted.ubuntu, None)
         (Scripted.final [] SortID ["torrent-get"]).
Proof.
  split.
  - refine (proj1 (@GetTorrent_empty_or_first Scripted.daemon Scripted.client
                     "aa11" Scripted.success _
                     (Scripted.final [] SortID ["torrent-get"]) _) _);
      reflexivity.
  - refine (proj1 (proj2 (@GetTorrent_empty_or_first Scripted.daemon
                            Scripted.client "aa11" Scripted.list_of_two _
                            (Scripted.final [] SortID ["torrent-get"]) _)
                     (Some Scripted.ubuntu) [Some Scripted.debian] _));
      reflexivity.
Defined.

Lemma DeleteTorrent_lookup_then_remove_witness :
  @DeleteTorrent Scripted.daemon Scripted.client "aa11" true
    (Scripted.start [inl [Byte.x02]; inl [Byte.x00]])
  = Returned ("ubuntu.iso", None)
      (Scripted.final [] SortID ["torrent-get"; "torrent-remove"])
  /\ @DeleteTorrent Scripted.daemon Scripted.client "ee55" true
       (Scripted.start [inl [Byte.x00]; inl [Byte.x00]])
     = Returned ("", Some ErrNoTorrent)
         (Scripted.final [inl [Byte.x00]] SortID ["torrent-get"]).
Proof.
  split.
  - refine (proj1 (proj1 (proj2 (@DeleteTorrent_lookup_then_remove
                                   Scripted.daemon Scripted.client "aa11" true
                                   _))
                     Scripted.ubuntu (Some Scripted.success)
                     (Scripted.final [inl [Byte.x00]] SortID ["torrent-get"])
                     (Scripted.final [] SortID ["torrent-get"; "torrent-remove"])
                     _ _));
      reflexivity.
  - refine (proj1 (proj1 (@DeleteTorrent_lookup_then_remove Scripted.daemon
                            Scripted.client "ee55" true _)
                     (Some zero_Torrent) ErrNoTorrent
                     (Scripted.final [inl [Byte.x00]] SortID ["torrent-get"])
                     _));
      reflexivity.
Defined.

(** C8.  The code departs from the claim when the id-scoped lookup is
    answered with a torrent list whose first entry is [null]: the lookup
    returns a nil torrent with a nil error, so it has not failed;
    [DeleteTorrent] then sends [torrent-remove], and after the removal it
    dereferences the nil torrent for its name and panics, where the claim
    has it return the name obtained from the lookup. *)
Theorem DeleteTorrent_removes_then_panics_on_nil_entry :
  @GetTorrent Scripted.daemon Scripted.client "aa11"
    (Scripted.start [inl [Byte.x06]; inl [Byte.x00]])
  = Returned (None, None)
      (Scripted.final [inl [Byte.x00]] SortID ["torrent-get"])
  /\ @ExecuteCommand Scripted.daemon Scripted.client (newDelCmd "aa11" true)
       (Scripted.final [inl [Byte.x00]] SortID ["torrent-get"])
     = Returned (Some Scripted.success, None)
         (Scripted.final [] SortID ["torrent-get"; "torrent-remove"])
  /\ @DeleteTorrent Scripted.daemon Scripted.client "aa11" true
       (Scripted.start [inl [Byte.x06]; inl [Byte.x00]])
     = Panicked (Scripted.final [] SortID ["torrent-get"; "torrent-remove"]).
Proof. repeat split. Qed.

Lemma New_returns_client_on_probe_failure_witness :
  @New Scripted.daemon Scripted.rpc_url "admin" "secret" (Scripted.start [])
  = Returned
      (Some Scripted.client, Some (TransportError "connection refused"))
      (Scripted.final [] SortID ["session-get"]).
Proof.
  refine (proj2 (@New_returns_client_on_probe_failure Scripted.daemon
                   Scripted.rpc_url "admin" "secret" (Scripted.start []))
            zero_Command (TransportError "connection refused")
            (Scripted.final [] SortID ["session-get"]) _).
  reflexivity.
Defined.

(** With the daemon unreachable every round trip fails in the transport. *)
Lemma unreachable (cmd : Command) :
  @round_trip_fails Scripted.daemon Scripted.client cmd (Scripted.start [])
    (TransportError "connection refused").
Proof.
  apply (@Post_fails Scripted.daemon Scripted.client cmd (Scripted.start [])
           (TransportError "connection refused") (Command_Method cmd) []);
    reflexivity.
Defined.

Lemma errors_reach_the_caller_witness :
  (exists s',
      @GetTorrents Scripted.daemon Scripted.client (Scripted.start [])
      = Returned ([], Some (TransportError "connection refused")) s')
  /\ (exists result s',
        @StopTorrent Scripted.daemon Scripted.client ["aa11"]
          (Scripted.start [])
        = Returned (result, Some (TransportError "connection refused")) s')
  /\ @NewAddCmdByFile Scripted.daemon "missing.torrent" (Scripted.start [])
     = Returned (None, Some (LocalIOError "no such file or directory"))
         (Scripted.start []).
Proof.
  split; [ | split ].
  - apply (proj1 (proj2 (proj2
             (@errors_reach_the_caller Scripted.daemon Scripted.client
                (Scripted.start [])
                (TransportError "connection refused"))))).
    apply unreachable.
  - apply (proj1 (proj2 (proj2 (proj2 (proj2 (proj2 (proj2 (proj2
             (@errors_reach_the_caller Scripted.daemon Scripted.client
                (Scripted.start [])
                (TransportError "connection refused"))))))))))
      with (method := "torrent-stop").
    + simpl. tauto.
    + apply unreachable.
  - apply (proj1 (proj2 (proj2 (proj2 (proj2 (proj2 (proj2 (proj2 (proj2
             (proj2 (proj2 (proj2
             (@errors_reach_the_caller Scripted.daemon Scripted.client
                (Scripted.start [])
                (LocalIOError "no such file or directory")))))))))))))).
    reflexivity.
Defined.

(** The claim as written fails on [Version]: with the daemon unreachable
    the round trip fails, and [Version] returns the empty string and no
    error. *)
Lemma Version_discards_the_error :
  @round_trip_fails Scripted.daemon Scripted.client
    (Command_of_Method "session-get") (Scripted.start [])
    (TransportError "connection refused")
  /\ @sendCommand Scripted.daemon Scripted.client
       (Command_of_Method "session-get") (Scripted.start [])
     = Returned (zero_Command, Some (TransportError "connection refused"))
         (Scripted.final [] SortID ["session-get"])
  /\ @Version Scripted.daemon Scripted.client (Scripted.start [])
     = Returned "" (Scripted.final [] SortID ["session-get"]).
Proof.
  split; [ apply unreachable | split; reflexivity ].
Qed.

Lemma wire_omits_exactly_the_empty_omitempty_fields_witness :
  ~ In "metainfo"
      (wire_keys (Command_Arguments (NewAddCmdByURL "magnet:?xt=urn:btih:aa11")))
  /\ In "version"
       (wire_keys
          (Command_Arguments (NewAddCmdByURL "magnet:?xt=urn:btih:aa11"))).
Proof.
  split.
  - refine (proj1 (proj1 (wire_omits_exactly_the_empty_omitempty_fields
                           (NewAddCmdByURL "magnet:?xt=urn:btih:aa11"))
                     "metainfo" true _ _) eq_refl);
      simpl; tauto.
  - apply (proj1 (proj2 (wire_omits_exactly_the_empty_omitempty_fields
                          (NewAddCmdByURL "magnet:?xt=urn:btih:aa11")))).
    simpl; tauto.
Defined.

Lemma add_command_constructors_witness :
  (exists cmd,
      @NewAddCmdByFile Scripted.daemon "a.torrent" (Scripted.start [])
      = Returned (Some cmd, None) (Scripted.start [])
      /\ Command_Method cmd = "torrent-add"
      /\ Command_MetaInfo cmd = base64.EncodeToString Scripted.torrent_file
      /\ Command_Filename cmd = "")
  /\ @NewAddCmdByFile Scripted.daemon "missing.torrent" (Scripted.start [])
     = Returned (None, Some (LocalIOError "no such file or directory"))
         (Scripted.start []).
Proof.
  split.
  - apply (proj1 (proj2 (proj2 (proj2 (proj2
             (@add_command_constructors Scripted.daemon)))))).
    reflexivity.
  - apply (proj1 (proj2 (proj2 (proj2 (proj2 (proj2
             (@add_command_constructors Scripted.daemon))))))).
    reflexivity.
Defined.

Lemma GetTorrents_order_witness :
  (exists r,
      @GetTorrents Scripted.daemon Scripted.client
        (@Build_State Scripted.daemon [inl [Byte.x01]] SortName [] [])
      = Returned (map Some r, None)
          (Scripted.final [] SortName ["torrent-get"])
      /\ Permutation [Scripted.ubuntu; Scripted.debian] r
      /\ ordered_by SortName r)
  /\ @GetTorrents Scripted.daemon Scripted.client
       (Scripted.start [inl [Byte.x01]])
     = Returned ([Some Scripted.ubuntu; Some Scripted.debian], None)
         (Scripted.final [] SortID ["torrent-get"]).
Proof.
  assert (Hasc : non_decreasing byID [Scripted.ubuntu; Scripted.debian]).
  { unfold non_decreasing. repeat constructor. }
  split.
  - exact (proj1 (@GetTorrents_order Scripted.daemon Scripted.client
                    Scripted.list_of_two
                    (@Build_State Scripted.daemon [inl [Byte.x01]]
                       SortName [] [])
                    (Scripted.final [] SortName ["torrent-get"])
                    [Scripted.ubuntu; Scripted.debian]
                    eq_refl eq_refl Hasc)).
  - exact (proj1 (proj2 (@GetTorrents_order Scripted.daemon Scripted.client
                           Scripted.list_of_two
                           (Scripted.start [inl [Byte.x01]])
                           (Scripted.final [] SortID ["torrent-get"])
                           [Scripted.ubuntu; Scripted.debian]
                           eq_refl eq_refl Hasc))
             eq_refl).
Defined.

(* ================================================================== *)
(** * Further properties: [Status], [Torrent] and [Stats] *)

(** X9.  The seven enumerated statuses have seven different names, none
    of them "unknown": a status in the range [TrStopped] to [TrSeeding] is
    determined by its name, and "unknown" is the name of exactly the
    values outside that range. *)
Theorem Status_String_distinguishes (a b : Status) :
  TrStopped <= a <= TrSeeding ->
  (Status_String a = Status_String b -> a = b)
  /\ Status_String a <> "unknown"
  /\ (Status_String b = "unknown" <-> ~ TrStopped <= b <= TrSeeding).
Proof.
  intros Ha.
  assert (Hcases : a = 0 \/ a = 1 \/ a = 2 \/ a = 3 \/ a = 4 \/ a = 5 \/ a = 6)
    by (unfold TrStopped, TrSeeding in Ha; lia).
  split; [ | split ].
  - unfold TrStopped, TrSeeding in Ha.
    status_cases b;
      destruct Hcases as [-> | [-> | [-> | [-> | [-> | [-> | ->]]]]]];
      simpl; intros Heq; try reflexivity; discriminate Heq.
  - destruct Hcases as [-> | [-> | [-> | [-> | [-> | [-> | ->]]]]]];
      simpl; discriminate.
  - unfold TrStopped, TrSeeding. split.
    + status_cases b; simpl; intros Heq; try discriminate Heq; lia.
    + intros Hout. status_cases b; try reflexivity; lia.
Qed.

Lemma Status_String_distinguishes_witness :
  Status_String TrSeeding <> Status_String TrSeedPending.
Proof.
  intros Heq.
  pose proof (proj1 (Status_String_distinguishes TrSeeding TrSeedPending
                       ltac:(unfold TrStopped, TrSeeding; lia)) Heq) as Habs.
  discriminate Habs.
Defined.

(** X10.  [Have] adds the two counters as [uint64] values: the result is
    their sum when the sum fits in 64 bits; otherwise it is the sum less
    2^64, which is below either counter. *)
Theorem Torrent_Have_wraps (t : Torrent) :
  in_uint64 (Torrent_HaveValid t) ->
  in_uint64 (Torrent_HaveUnchecked t) ->
  in_uint64 (Torrent_Have t)
  /\ (Torrent_HaveValid t + Torrent_HaveUnchecked t < 2 ^ 64 ->
      Torrent_Have t = Torrent_HaveValid t + Torrent_HaveUnchecked t)
  /\ (2 ^ 64 <= Torrent_HaveValid t + Torrent_HaveUnchecked t ->
      Torrent_Have t = Torrent_HaveValid t + Torrent_HaveUnchecked t - 2 ^ 64
      /\ Torrent_Have t < Torrent_HaveValid t
      /\ Torrent_Have t < Torrent_HaveUnchecked t).
Proof.
  unfold in_uint64, Torrent_Have, uint64_wrap.
  change (2 ^ 64) with 18446744073709551616.
  intros Hv Hu. split; [ | split ].
  - apply Z.mod_pos_bound. lia.
  - intros Hfit. apply Z.mod_small. lia.
  - intros Hover.
    assert (Hmod : (Torrent_HaveValid t + Torrent_HaveUnchecked t)
                   mod 18446744073709551616
                   = Torrent_HaveValid t + Torrent_HaveUnchecked t
                     - 18446744073709551616)
      by (symmetry; apply Z.mod_unique with 1; lia).
    rewrite Hmod. lia.
Qed.

Lemma Torrent_Have_wraps_witness :
  Torrent_Have Scripted.ubuntu = 500.
Proof.
  refine (proj1 (proj2 (Torrent_Have_wraps Scripted.ubuntu _ _)) _);
    unfold in_uint64; simpl; lia.
Defined.

Section DurationProperties.
Variable Duration_String : Z -> string.

Lemma int64_wrap_exact (x : Z) : in_int64 x -> int64_wrap x = x.
Proof.
  unfold in_int64, int64_wrap.
  change (2 ^ 63) with 9223372036854775808.
  change (2 ^ 64) with 18446744073709551616.
  intros Hx. rewrite Z.mod_small by lia. lia.
Qed.

Lemma int64_wrap_range (x : Z) : in_int64 (int64_wrap x).
Proof.
  unfold in_int64, int64_wrap.
  change (2 ^ 63) with 9223372036854775808.
  change (2 ^ 64) with 18446744073709551616.
  pose proof (Z.mod_pos_bound (x + 9223372036854775808) 18446744073709551616)
    as Hb.
  lia.
Qed.

(** X11.  [ETA] returns the infinity sign for every negative eta and
    formats nothing then.  For an eta of 0 to 9223372036 seconds it formats
    exactly that many seconds; from 9223372037 seconds on, the product with
    [time.Second] overflows [int64] and another duration is formatted. *)
Theorem Torrent_ETA_range (t : Torrent) :
  in_int64 (Torrent_Eta t) ->
  (Torrent_Eta t < 0 -> Torrent_ETA Duration_String t = infinity)
  /\ (0 <= Torrent_Eta t <= 9223372036 ->
      Torrent_ETA Duration_String t
      = Duration_String (Torrent_Eta t * 1000000000))
  /\ (9223372036 < Torrent_Eta t ->
      Torrent_ETA Duration_String t
      = Duration_String (int64_wrap (time_Second * Torrent_Eta t))
      /\ int64_wrap (time_Second * Torrent_Eta t)
         <> Torrent_Eta t * 1000000000).
Proof.
  intros Hrange. unfold Torrent_ETA. split; [ | split ].
  - intros Hneg. destruct (Z.ltb_spec (Torrent_Eta t) 0); [ reflexivity | lia ].
  - intros Hfit. destruct (Z.ltb_spec (Torrent_Eta t) 0); [ lia | ].
    rewrite int64_wrap_exact.
    + unfold time_Second. f_equal. lia.
    + unfold in_int64, time_Second.
      change (2 ^ 63) with 9223372036854775808. lia.
  - intros Hbig. destruct (Z.ltb_spec (Torrent_Eta t) 0); [ lia | ].
    split; [ reflexivity | ].
    pose proof (int64_wrap_range (time_Second * Torrent_Eta t)) as Hw.
    unfold in_int64, time_Second in *.
    change (2 ^ 63) with 9223372036854775808 in *. lia.
Qed.

(** X12.  The two active times format exactly the seconds counted when
    their number lies between -9223372036 and 9223372036; beyond that the
    product with [time.Second] overflows [int64]. *)
Theorem Stats_active_time_range (s : Stats) :
  let current := currentStats_SecondsActive (Stats_CurrentStats s) in
  let total := cumulativeStats_SecondsActive (Stats_CumulativeStats s) in
  (- 9223372036 <= current <= 9223372036 ->
   Stats_CurrentActiveTime Duration_String s
   = Duration_String (current * 1000000000))
  /\ (- 9223372036 <= total <= 9223372036 ->
      Stats_CumulativeActiveTime Duration_String s
      = Duration_String (total * 1000000000))
  /\ (9223372036 < current \/ current < - 9223372036 ->
      int64_wrap (time_Second * current) <> current * 1000000000)
  /\ (9223372036 < total \/ total < - 9223372036 ->
      int64_wrap (time_Second * total) <> total * 1000000000).
Proof.
  intros current total.
  assert (Hexact : forall x, - 9223372036 <= x <= 9223372036 ->
                             int64_wrap (time_Second * x) = x * 1000000000).
  { intros x Hx. rewrite int64_wrap_exact.
    - unfold time_Second. lia.
    - unfold in_int64, time_Second.
      change (2 ^ 63) with 9223372036854775808. lia. }
  assert (Hwrap : forall x, 9223372036 < x \/ x < - 9223372036 ->
                            int64_wrap (time_Second * x) <> x * 1000000000).
  { intros x Hx.
    pose proof (int64_wrap_range (time_Second * x)) as Hw.
    unfold in_int64, time_Second in *.
    change (2 ^ 63) with 9223372036854775808 in *. lia. }
  unfold Stats_CurrentActiveTime, Stats_CumulativeActiveTime.
  fold current total.
  repeat split.
  - intros Hc. rewrite Hexact by exact Hc. reflexivity.
  - intros Hc. rewrite Hexact by exact Hc. reflexivity.
  - apply Hwrap.
  - apply Hwrap.
Qed.
End DurationProperties.

Lemma Torrent_ETA_range_witness :
  Torrent_ETA (fun d => if d =? 60000000000 then "1m0s" else "?")
    Scripted.ubuntu = "1m0s"
  /\ Torrent_ETA (fun _ => "?") Scripted.debian = infinity.
Proof.
  split.
  - refine (proj1 (proj2 (Torrent_ETA_range _ Scripted.ubuntu _)) _).
    + unfold in_int64. change (2 ^ 63) with 9223372036854775808.
      simpl. lia.
    + simpl. lia.
  - refine (proj1 (Torrent_ETA_range _ Scripted.debian _) _).
    + unfold in_int64. change (2 ^ 63) with 9223372036854775808.
      simpl. lia.
    + simpl. lia.
Defined.

Lemma Stats_active_time_range_witness :
  Stats_CurrentActiveTime (fun d => if d =? 90000000000 then "1m30s" else "?")
    {| Stats_ActiveTorrentCount := 1;
       Stats_CumulativeStats := zero_cumulativeStats;
       Stats_CurrentStats :=
         {| currentStats_DownloadedBytes := 0; currentStats_FilesAdded := 0;
            currentStats_SecondsActive := 90; currentStats_SessionCount := 1;
            currentStats_UploadedBytes := 0 |};
       Stats_DownloadSpeed := 0; Stats_PausedTorrentCount := 0;
       Stats_TorrentCount := 1; Stats_UploadSpeed := 0 |}
  = "1m30s".
Proof.
  rewrite (proj1 (Stats_active_time_range _ _)); [ reflexivity | simpl; lia ].
Defined.

(** ** [GetTrackers] *)

Lemma lines_line (a rest : string) :
  has_newline a = false ->
  lines (String.append (String.append a (String newline "")) rest)
  = a :: lines rest.
Proof.
  induction a as [ | c a IH ]; simpl; intros Hnl.
  - reflexivity.
  - apply orb_false_iff in Hnl. destruct Hnl as [Hc Ha].
    rewrite Hc. rewrite (IH Ha). reflexivity.
Qed.

Lemma length_append (a b : string) :
  String.length (String.append a b)
  = (String.length a + String.length b)%nat.
Proof.
  induction a as [ | c a IH ]; simpl; [ reflexivity | ].
  rewrite IH. reflexivity.
Qed.

(** X13.  [GetTrackers] writes one line per tracker, in order: when no
    announce URL holds a line feed, the lines of the text are the announce
    URLs of the torrent's trackers.  The text is empty exactly when the
    torrent has no tracker, and each tracker adds the length of its URL
    plus one. *)
Theorem Torrent_GetTrackers_lines (t : Torrent) :
  Forall (fun tr => has_newline (tracker_Announce tr) = false)
         (Torrent_Trackers t) ->
  lines (Torrent_GetTrackers t) = map tracker_Announce (Torrent_Trackers t)
  /\ (Torrent_GetTrackers t = "" <-> Torrent_Trackers t = [])
  /\ String.length (Torrent_GetTrackers t)
     = fold_right
         (fun tr n => (String.length (tracker_Announce tr) + 1 + n)%nat)
         0%nat (Torrent_Trackers t).
Proof.
  unfold Torrent_GetTrackers.
  generalize (Torrent_Trackers t) as ts. clear t.
  intros ts Hall. split; [ | split ].
  - induction Hall as [ | tr ts Htr Hts IH ]; simpl.
    + reflexivity.
    + rewrite lines_line by exact Htr. rewrite IH. reflexivity.
  - destruct ts as [ | tr ts ]; simpl.
    + tauto.
    + split; [ | discriminate ].
      intros Heq. apply (f_equal String.length) in Heq.
      rewrite !length_append in Heq. simpl in Heq. lia.
  - clear Hall. induction ts as [ | tr ts IH ]; simpl.
    + reflexivity.
    + rewrite !length_append, IH. simpl. lia.
Qed.

Lemma Torrent_GetTrackers_lines_witness :
  let t :=
    {| Torrent_ID := 1; Torrent_Name := "ubuntu.iso"; Torrent_Status := 4;
       Torrent_AddedDate := 0; Torrent_StartDate := 0; Torrent_DoneDate := 0;
       Torrent_LeftUntilDone := 0; Torrent_SizeWhenDone := 0;
       Torrent_Eta := 0; Torrent_UploadRatio := 0%Q;
       Torrent_RateDownload := 0; Torrent_RateUpload := 0;
       Torrent_DownloadDir := ""; Torrent_DownloadedEver := 0;
       Torrent_UploadedEver := 0; Torrent_HaveUnchecked := 0;
       Torrent_HaveValid := 0; Torrent_IsFinished := false;
       Torrent_PercentDone := 0%Q; Torrent_SeedRatioMode := 0;
       Torrent_Files := []; Torrent_Peers := [];
       Torrent_Trackers :=
         [ {| tracker_Announce := "udp://a.example:6969/announce";
              tracker_Id := 0; tracker_Scrape := ""; tracker_Tire := 0 |};
           {| tracker_Announce := "http://b.example/announce";
              tracker_Id := 1; tracker_Scrape := ""; tracker_Tire := 1 |} ];
       Torrent_TrackerStats := []; Torrent_Error := 0;
       Torrent_ErrorString := ""; Torrent_InfoHash := "aa11";
       Torrent_TotalSize := 0; Torrent_DownloadSeconds := 0;
       Torrent_SeedSeconds := 0 |} in
  lines (Torrent_GetTrackers t)
  = [ "udp://a.example:6969/announce"; "http://b.example/announce" ].
Proof.
  intros t. apply (proj1 (Torrent_GetTrackers_lines t
                            ltac:(repeat constructor))).
Defined.

(* ================================================================== *)
(** * Further properties: the commands and their wire form *)

Lemma remove_first_perm (x : string) (l r : list string) :
  remove_first x l = Some r -> Permutation l (x :: r).
Proof.
  revert r. induction l as [ | y l IH ]; simpl; intros r Hrem.
  - discriminate.
  - destruct (String.eqb_spec x y) as [-> | Hne].
    + injection Hrem as <-. apply Permutation_refl.
    + destruct (remove_first x l) as [r' | ]; [ | discriminate ].
      injection Hrem as <-.
      apply perm_trans with (y :: x :: r').
      * apply perm_skip. apply IH. reflexivity.
      * apply perm_swap.
Qed.

Lemma permb_sound (l : list string) :
  forall l', permb l l' = true -> Permutation l l'.
Proof.
  induction l as [ | x l IH ]; simpl; intros l' Hp.
  - destruct l'; [ apply perm_nil | discriminate ].
  - destruct (remove_first x l') as [r | ] eqn:Hrem; [ | discriminate ].
    apply perm_trans with (x :: r).
    + apply perm_skip. apply IH. exact Hp.
    + apply Permutation_sym. apply remove_first_perm. exact Hrem.
Qed.

(** X14.  The field list of the list command and the JSON names of the
    [Torrent] struct are the same thirty names: every field the struct
    decodes is requested, nothing else is, and none is requested twice. *)
Theorem NewGetTorrentsCmd_requests_the_Torrent_fields (t : Torrent) :
  Permutation (arguments_Fields (Command_Arguments NewGetTorrentsCmd))
              (object_keys (encode_Torrent t))
  /\ NoDup (arguments_Fields (Command_Arguments NewGetTorrentsCmd))
  /\ List.length (arguments_Fields (Command_Arguments NewGetTorrentsCmd))
     = 30%nat.
Proof.
  split; [ | split ].
  - apply permb_sound. reflexivity.
  - replace (arguments_Fields (Command_Arguments NewGetTorrentsCmd))
      with (nodup string_dec
              (arguments_Fields (Command_Arguments NewGetTorrentsCmd)))
      by (vm_compute; reflexivity).
    apply NoDup_nodup.
  - reflexivity.
Qed.

Lemma wire_keys_SetDownloadDir (dir : string) (cmd : Command) :
  wire_keys (Command_Arguments (SetDownloadDir dir cmd))
  = keys_written (is_nil (arguments_Fields (Command_Arguments cmd)))
      (is_nil (arguments_Torrents (Command_Arguments cmd)))
      (is_nil (arguments_Ids (Command_Arguments cmd)))
      (negb (arguments_DeleteData (Command_Arguments cmd)))
      (String.eqb dir "")
      (String.eqb (arguments_MetaInfo (Command_Arguments cmd)) "")
      (String.eqb (arguments_Filename (Command_Arguments cmd)) "").
Proof. rewrite wire_keys_written. reflexivity. Qed.

(** X15.  [SetDownloadDir] sets the download directory and nothing else:
    method, result and every other argument are kept, the last directory
    set is the one that counts, and on the wire the command gains or loses
    only the download-dir member, which is written exactly when the
    directory is not empty. *)
Theorem SetDownloadDir_sets_only_the_directory (dir : string) (cmd : Command) :
  arguments_DownloadDir (Command_Arguments (SetDownloadDir dir cmd)) = dir
  /\ Command_Method (SetDownloadDir dir cmd) = Command_Method cmd
  /\ Command_Result (SetDownloadDir dir cmd) = Command_Result cmd
  /\ with_DownloadDir "" (Command_Arguments (SetDownloadDir dir cmd))
     = with_DownloadDir "" (Command_Arguments cmd)
  /\ (forall dir', SetDownloadDir dir (SetDownloadDir dir' cmd)
                   = SetDownloadDir dir cmd)
  /\ (In "download-dir"
         (wire_keys (Command_Arguments (SetDownloadDir dir cmd)))
      <-> dir <> "")
  /\ (forall key,
        key <> "download-dir" ->
        (In key (wire_keys (Command_Arguments (SetDownloadDir dir cmd)))
         <-> In key (wire_keys (Command_Arguments cmd)))).
Proof.
  repeat match goal with |- _ /\ _ => split end; try reflexivity.
  - rewrite <- mem_In, wire_keys_SetDownloadDir.
    match goal with
    | |- mem _ (keys_written ?f ?t ?i ?d ?dr ?m ?fl) = true <-> _ =>
        pose proof (omitempty_keys_written f t i d dr m fl) as Hkeys
    end.
    unfold omitempty_keys in Hkeys. cbn [map] in Hkeys.
    injection Hkeys as _ _ _ _ Hdir _ _.
    rewrite Hdir.
    destruct (String.eqb_spec dir "") as [-> | Hne]; simpl.
    + split; [ discriminate | intros Hne; contradiction ].
    + split; [ intros _; exact Hne | reflexivity ].
  - intros key Hkey.
    rewrite wire_keys_SetDownloadDir, wire_keys_written.
    unfold keys_written. repeat rewrite in_app_iff.
    destruct (String.eqb dir ""),
      (String.eqb (arguments_DownloadDir (Command_Arguments cmd)) "");
      simpl; intuition congruence.
Qed.

(** X16.  The wire form of the remove command: the envelope has a method
    and an arguments member and no result; the arguments carry the ids,
    and the delete-local-data flag only when it is true (a false flag is
    not transmitted). *)
Theorem newDelCmd_wire (id : string) (removeFile : bool) :
  object_keys (encode_Command (newDelCmd id removeFile))
  = [ "method"; "arguments" ]
  /\ wire_keys (Command_Arguments (newDelCmd id removeFile))
     = "ids" :: (if removeFile then [ "delete-local-data" ] else [])
             ++ plain_keys
  /\ In ("ids", JArray [ JString id ])
        (arguments_members (Command_Arguments (newDelCmd id removeFile)))
  /\ (In "delete-local-data"
         (wire_keys (Command_Arguments (newDelCmd id removeFile)))
      <-> removeFile = true).
Proof.
  destruct removeFile; repeat split; simpl; try tauto; try discriminate.
  intros Hin.
  repeat (destruct Hin as [Hin | Hin]; [ discriminate Hin | ]).
  contradiction.
Qed.

(* ================================================================== *)
(** * Further properties: the round trip and the operations built on it *)

Section MoreClientProperties.
Context `{Collaborators}.

(** The three ways a round trip of [ExecuteCommand] can go. *)
Lemma ExecuteCommand_cases (ac : TransmissionClient) (cmd : Command)
    (s : State) :
  (exists e, json_Marshal cmd = inr e
             /\ ExecuteCommand ac cmd s
                = Returned (Some zero_Command, Some e) s)
  \/ (exists body e w,
        json_Marshal cmd = inl body
        /\ ApiClient_Post (apiclient ac) body (world s) = (inr e, w)
        /\ ExecuteCommand ac cmd s
           = Returned (Some zero_Command, Some e) (after_post ac body w s))
  \/ (exists body output w,
        json_Marshal cmd = inl body
        /\ ApiClient_Post (apiclient ac) body (world s) = (inl output, w)
        /\ ((exists out e,
               json_Unmarshal_ptr output = (out, Some e)
               /\ ExecuteCommand ac cmd s
                  = Returned (out, Some e)
                      {| world := w; sortType := sortType s;
                         logged := logged s ++ [output];
                         posted := posted s ++ [(apiclient ac, body)] |})
            \/ (exists out,
                  json_Unmarshal_ptr output = (out, None)
                  /\ ExecuteCommand ac cmd s
                     = Returned (out, None) (after_post ac body w s)))).
Proof.
  unfold ExecuteCommand.
  destruct (json_Marshal cmd) as [body | e]; [ | left; eauto ].
  right. unfold bind, Post.
  destruct (ApiClient_Post (apiclient ac) body (world s))
    as [[output | e] w] eqn:Hp;
    [ right | left; exists body, e, w; auto ].
  exists body, output, w. split; [ reflexivity | split; [ exact Hp | ] ].
  destruct (json_Unmarshal_ptr output) as [out [e | ]].
  - left. exists out, e. split; reflexivity.
  - right. exists out. split; reflexivity.
Qed.

(** The three ways a round trip of [sendCommand] can go. *)
Lemma sendCommand_cases (ac : TransmissionClient) (cmd : Command)
    (s : State) :
  (exists e, json_Marshal cmd = inr e
             /\ sendCommand ac cmd s = Returned (zero_Command, Some e) s)
  \/ (exists body e w,
        json_Marshal cmd = inl body
        /\ ApiClient_Post (apiclient ac) body (world s) = (inr e, w)
        /\ sendCommand ac cmd s
           = Returned (zero_Command, Some e) (after_post ac body w s))
  \/ (exists body output w response err,
        json_Marshal cmd = inl body
        /\ ApiClient_Post (apiclient ac) body (world s) = (inl output, w)
        /\ json_Unmarshal output = (response, err)
        /\ sendCommand ac cmd s
           = Returned (response, err) (after_post ac body w s)).
Proof.
  unfold sendCommand.
  destruct (json_Marshal cmd) as [body | e]; [ | left; eauto ].
  right. unfold bind, Post.
  destruct (ApiClient_Post (apiclient ac) body (world s))
    as [[output | e] w] eqn:Hp;
    [ right | left; exists body, e, w; auto ].
  destruct (json_Unmarshal output) as [response err] eqn:Hdec.
  exists body, output, w, response, err.
  split; [ reflexivity | split; [ exact Hp | split; [ exact Hdec | ] ] ].
  destruct err; reflexivity.
Qed.

Lemma json_Unmarshal_ptr_cases (output : bytes) :
  (json_isNull output = true /\ json_Unmarshal_ptr output = (None, None)
   /\ json_Unmarshal output = (zero_Command, None))
  \/ (json_isNull output = false
      /\ exists c err, json_Unmarshal output = (c, err)
                       /\ json_Unmarshal_ptr output = (Some c, err)).
Proof.
  unfold json_Unmarshal_ptr.
  destruct (json_isNull output) eqn:Hnull.
  - left. repeat split. apply json_Unmarshal_null. exact Hnull.
  - right. split; [ reflexivity | ].
    destruct (json_Unmarshal output) as [c err]. eauto.
Qed.

(** X4.  [ExecuteCommand] writes the raw response to the log exactly when
    the response fails to decode: a decode error appends the response body
    to the log and is returned with the partly decoded envelope; a round
    trip that ends in any other way leaves the log as it was.
    [sendCommand] never logs. *)
Theorem ExecuteCommand_logs_undecodable_responses
    (ac : TransmissionClient) (cmd : Command) (s : State) :
  (forall body output w c e,
      json_Marshal cmd = inl body ->
      ApiClient_Post (apiclient ac) body (world s) = (inl output, w) ->
      json_Unmarshal output = (c, Some e) ->
      exists s',
        ExecuteCommand ac cmd s = Returned (Some c, Some e) s'
        /\ logged s' = logged s ++ [output])
  /\ (forall out err s',
        ExecuteCommand ac cmd s = Returned (out, err) s' ->
        logged s' = logged s
        \/ exists body output w c e,
             json_Marshal cmd = inl body
             /\ ApiClient_Post (apiclient ac) body (world s) = (inl output, w)
             /\ json_Unmarshal output = (c, Some e)
             /\ err = Some e
             /\ logged s' = logged s ++ [output])
  /\ (forall r s', sendCommand ac cmd s = Returned r s' ->
                   logged s' = logged s).
Proof.
  split; [ | split ].
  - intros body output w c e Hm Hp Hd.
    unfold ExecuteCommand. rewrite Hm. unfold bind, Post. rewrite Hp.
    rewrite (json_Unmarshal_ptr_error _ _ _ Hd).
    eexists. split; reflexivity.
  - intros out err s' Hexec.
    destruct (ExecuteCommand_cases ac cmd s)
      as [(e & Hm & Hrun)
         | [(body & e & w & Hm & Hp & Hrun)
           | (body & output & w & Hm & Hp
              & [(o & e & Hd & Hrun) | (o & Hd & Hrun)])]];
      rewrite Hrun in Hexec; injection Hexec as <- <- <-;
      try (left; reflexivity).
    right.
    destruct (json_Unmarshal_ptr_cases output)
      as [(_ & Hptr & _) | (_ & c & err & Hdec & Hptr)];
      rewrite Hptr in Hd; [ discriminate | ].
    injection Hd as <- ->.
    exists body, output, w, c, e. repeat split; assumption.
  - intros r s' Hsend.
    destruct (sendCommand_cases ac cmd s)
      as [(e & Hm & Hrun)
         | [(body & e & w & Hm & Hp & Hrun)
           | (body & output & w & response & err & Hm & Hp & Hd & Hrun)]];
      rewrite Hrun in Hsend; injection Hsend as _ <-; reflexivity.
Qed.

(** X5.  The two round trips agree: [ExecuteCommand] ends with the same
    error, the same world and the same requests posted as [sendCommand],
    and with the same envelope behind its pointer, except that for the
    response [null] the pointer is nil where [sendCommand] has the zero
    envelope. *)
Theorem ExecuteCommand_agrees_with_sendCommand
    (ac : TransmissionClient) (cmd : Command) (s : State) :
  exists response out err s1 s2,
    sendCommand ac cmd s = Returned (response, err) s1
    /\ ExecuteCommand ac cmd s = Returned (out, err) s2
    /\ world s2 = world s1
    /\ posted s2 = posted s1
    /\ sortType s2 = sortType s1
    /\ (out = Some response
        \/ (out = None /\ response = zero_Command /\ err = None)).
Proof.
  destruct (sendCommand_cases ac cmd s)
    as [(e & Hm & Hrun)
       | [(body & e & w & Hm & Hp & Hrun)
         | (body & output & w & response & err & Hm & Hp & Hd & Hrun)]].
  - exists zero_Command, (Some zero_Command), (Some e), s, s.
    split; [ exact Hrun | ].
    unfold ExecuteCommand. rewrite Hm. repeat split. left. reflexivity.
  - exists zero_Command, (Some zero_Command), (Some e),
      (after_post ac body w s), (after_post ac body w s).
    split; [ exact Hrun | ].
    unfold ExecuteCommand. rewrite Hm. unfold bind, Post. rewrite Hp.
    repeat split. left. reflexivity.
  - destruct (json_Unmarshal_ptr_cases output)
      as [(_ & Hptr & Hzero) | (_ & c & err' & Hdec & Hptr)].
    + rewrite Hzero in Hd. injection Hd as <- <-.
      exists zero_Command, None, None,
        (after_post ac body w s), (after_post ac body w s).
      split; [ exact Hrun | ].
      unfold ExecuteCommand. rewrite Hm. unfold bind, Post. rewrite Hp, Hptr.
      repeat split. right. repeat split.
    + rewrite Hdec in Hd. injection Hd as <- <-.
      destruct err' as [e | ].
      * exists c, (Some c), (Some e), (after_post ac body w s),
          {| world := w; sortType := sortType s;
             logged := logged s ++ [output];
             posted := posted s ++ [(apiclient ac, body)] |}.
        split; [ exact Hrun | ].
        unfold ExecuteCommand. rewrite Hm. unfold bind, Post.
        rewrite Hp, Hptr. repeat split. left. reflexivity.
      * exists c, (Some c), None,
          (after_post ac body w s), (after_post ac body w s).
        split; [ exact Hrun | ].
        unfold ExecuteCommand. rewrite Hm. unfold bind, Post.
        rewrite Hp, Hptr. repeat split. left. reflexivity.
Qed.
End MoreClientProperties.

Section OperationProperties.
Context `{Collaborators}.

Lemma Torrents_GetIDs_Some (l : list Torrent) (s : State) :
  Torrents_GetIDs (map Some l) s = Returned (map Torrent_InfoHash l) s.
Proof.
  induction l as [ | x l IH ]; simpl.
  - reflexivity.
  - unfold bind. simpl. rewrite IH. reflexivity.
Qed.

Lemma Torrents_GetIDs_nil_entry (t : Torrents) (s : State) :
  In None t <-> Torrents_GetIDs t s = Panicked s.
Proof.
  induction t as [ | [x | ] t IH ]; simpl.
  - split; [ contradiction | discriminate ].
  - unfold bind. simpl. split.
    + intros [Habs | Hin]; [ discriminate | ].
      rewrite (proj1 IH Hin). reflexivity.
    + destruct (Torrents_GetIDs t s) as [ids s1 | s1] eqn:Hrest.
      * discriminate.
      * intros Heq. injection Heq as ->. right. apply IH. reflexivity.
  - unfold bind. simpl. split; [ reflexivity | left; reflexivity ].
Qed.

(** X1.  [GetIDs] returns the info hash of every torrent of the slice, in
    the order of the slice (not the numeric ids), and leaves the state as
    it is; it panics exactly when the slice holds a nil entry. *)
Theorem Torrents_GetIDs_hashes (t : Torrents) (s : State) :
  (forall l, t = map Some l ->
             Torrents_GetIDs t s = Returned (map Torrent_InfoHash l) s)
  /\ (In None t <-> Torrents_GetIDs t s = Panicked s)
  /\ (forall ids s', Torrents_GetIDs t s = Returned ids s' ->
                     s' = s /\ List.length ids = List.length t).
Proof.
  split; [ | split ].
  - intros l ->. apply Torrents_GetIDs_Some.
  - apply Torrents_GetIDs_nil_entry.
  - induction t as [ | [x | ] t IH ]; simpl; intros ids s'.
    + unfold ret. intros Heq. injection Heq as <- <-. split; reflexivity.
    + unfold bind. simpl.
      destruct (Torrents_GetIDs t s) as [ids1 s1 | s1] eqn:Hrest;
        [ | discriminate ].
      unfold ret. intros Heq. injection Heq as <- <-.
      destruct (IH ids1 s1 eq_refl) as [-> Hlen].
      split; [ reflexivity | simpl; rewrite Hlen; reflexivity ].
    + unfold bind. simpl. discriminate.
Qed.

(** X2.  [StartAll], [StopAll] and [VerifyAll] fetch the torrents and then
    send one command with their method and the info hashes of the fetched
    torrents, in the fetched order; the error of that send, or none, is
    the result.  With no torrent fetched the command is sent all the same,
    with an empty id list.  A nil entry among the fetched torrents makes
    them panic after the fetch, before anything is sent. *)
Theorem bulk_operations_send_the_fetched_hashes
    (ac : TransmissionClient) (s : State)
    (op : TransmissionClient -> M (option error)) (method : string) :
  In (op, method) bulk_operations ->
  (forall l s1 resp err s2,
      GetTorrents ac s = Returned (map Some l, None) s1 ->
      sendCommand ac
        (upd_Arguments (with_Ids (map Torrent_InfoHash l))
           (Command_of_Method method)) s1
      = Returned (resp, err) s2 ->
      op ac s = Returned err s2)
  /\ (forall t s1,
        GetTorrents ac s = Returned (t, None) s1 ->
        In None t ->
        op ac s = Panicked s1).
Proof.
  intros Hin.
  assert (Hop : op = fun ac => sendToAll ac method).
  { simpl in Hin. destruct Hin as [Heq | [Heq | [Heq | []]]];
      injection Heq as <- <-; reflexivity. }
  subst op. split.
  - intros l s1 resp err s2 Hget Hsend.
    unfold sendToAll, bind. rewrite Hget. simpl.
    rewrite Torrents_GetIDs_Some.
    rewrite Hsend. destruct err; reflexivity.
  - intros t s1 Hget Hnil.
    unfold sendToAll, bind. rewrite Hget. simpl.
    rewrite (proj1 (Torrents_GetIDs_nil_entry t s1) Hnil).
    reflexivity.
Qed.

(** X3.  A response that is the JSON literal [null] is no error for the
    round trip: [ExecuteCommand] returns a nil envelope with a nil error.
    Every operation that reads the envelope then panics
    ([ExecuteAddCommand], [GetTorrents], [GetTorrent], [GetStats]), while
    [Version], built on [sendCommand], returns the empty string. *)
Theorem null_response_is_dereferenced
    (ac : TransmissionClient) (s s' : State) :
  (forall cmd,
      answered_null ac cmd s s' ->
      ExecuteCommand ac cmd s = Returned (None, None) s'
      /\ ExecuteAddCommand ac cmd s = Panicked s')
  /\ (answered_null ac NewGetTorrentsCmd s s' ->
      GetTorrents ac s = Panicked s')
  /\ (forall id,
        answered_null ac (upd_Arguments (with_Ids [id]) NewGetTorrentsCmd)
          s s' ->
        GetTorrent ac id s = Panicked s')
  /\ (answered_null ac (Command_of_Method "session-stats") s s' ->
      GetStats ac s = Panicked s')
  /\ (answered_null ac (Command_of_Method "session-get") s s' ->
      Version ac s = Returned "" s').
Proof.
  assert (Hexec : forall cmd,
             answered_null ac cmd s s' ->
             ExecuteCommand ac cmd s = Returned (None, None) s').
  { intros cmd (body & output & w & Hm & Hp & Hnull & ->).
    unfold ExecuteCommand. rewrite Hm. unfold bind, Post. rewrite Hp.
    unfold json_Unmarshal_ptr. rewrite Hnull. reflexivity. }
  repeat match goal with |- _ /\ _ => split end.
  - intros cmd Hnull. split; [ apply Hexec; exact Hnull | ].
    unfold ExecuteAddCommand, bind. rewrite (Hexec _ Hnull). reflexivity.
  - intros Hnull. unfold GetTorrents, bind.
    rewrite (Hexec _ Hnull). reflexivity.
  - intros id Hnull. unfold GetTorrent. rewrite GetTorrent_command.
    unfold bind. rewrite (Hexec _ Hnull). reflexivity.
  - intros Hnull. unfold GetStats, bind.
    rewrite (Hexec _ Hnull). reflexivity.
  - intros (body & output & w & Hm & Hp & Hnull & ->).
    unfold Version, bind, sendCommand. rewrite Hm.
    unfold bind, Post. rewrite Hp.
    rewrite (json_Unmarshal_null _ Hnull). reflexivity.
Qed.

Lemma json_Unmarshal_ptr_error_some (output : bytes) (out : option Command)
    (e : error) :
  json_Unmarshal_ptr output = (out, Some e) -> out <> None.
Proof.
  unfold json_Unmarshal_ptr.
  destruct (json_isNull output); [ discriminate | ].
  destruct (json_Unmarshal output) as [c err].
  intros Heq. injection Heq as <- _. discriminate.
Qed.

Lemma ExecuteCommand_error_envelope (ac : TransmissionClient) (cmd : Command)
    (out : option Command) (e : error) (s s' : State) :
  ExecuteCommand ac cmd s = Returned (out, Some e) s' -> out <> None.
Proof.
  intros Hexec.
  destruct (ExecuteCommand_cases ac cmd s)
    as [(e' & Hm & Hrun)
       | [(body & e' & w & Hm & Hp & Hrun)
         | (body & output & w & Hm & Hp
            & [(o & e' & Hd & Hrun) | (o & Hd & Hrun)])]];
    rewrite Hrun in Hexec; injection Hexec as <- ?; try discriminate.
  exact (json_Unmarshal_ptr_error_some _ _ _ Hd).
Qed.

(** [ExecuteCommand] always returns. *)
Lemma ExecuteCommand_returns (ac : TransmissionClient) (cmd : Command)
    (s : State) :
  exists out err s', ExecuteCommand ac cmd s = Returned (out, err) s'.
Proof.
  destruct (ExecuteCommand_cases ac cmd s)
    as [(e' & Hm & Hrun)
       | [(body & e' & w & Hm & Hp & Hrun)
         | (body & output & w & Hm & Hp
            & [(o & e' & Hd & Hrun) | (o & Hd & Hrun)])]];
    rewrite Hrun; eauto.
Qed.

(** X6.  What comes with an error.  Whenever one of these operations
    returns an error, whatever its cause, the value beside it is the
    default one: a non-nil envelope from [ExecuteCommand], the zero
    descriptor from [ExecuteAddCommand], a nil slice from [GetTorrents],
    a pointer to a zero [Torrent] from [GetTorrent], the empty name from
    [DeleteTorrent]; and [GetStats] returns a nil pointer exactly when it
    returns an error. *)
Theorem errors_come_with_defaults (ac : TransmissionClient) (s : State) :
  (forall cmd out e s',
      ExecuteCommand ac cmd s = Returned (out, Some e) s' -> out <> None)
  /\ (forall cmd added e s',
        ExecuteAddCommand ac cmd s = Returned (added, Some e) s' ->
        added = zero_TorrentAdded)
  /\ (forall torrents e s',
        GetTorrents ac s = Returned (torrents, Some e) s' -> torrents = [])
  /\ (forall id t e s',
        GetTorrent ac id s = Returned (t, Some e) s' -> t = Some zero_Torrent)
  /\ (forall id withData name e s',
        DeleteTorrent ac id withData s = Returned (name, Some e) s' ->
        name = "")
  /\ (forall stats err s',
        GetStats ac s = Returned (stats, err) s' ->
        (stats = None <-> err <> None)).
Proof.
  repeat match goal with |- _ /\ _ => split end.
  - intros cmd out e s'. apply ExecuteCommand_error_envelope.
  - intros cmd added e s'. unfold ExecuteAddCommand, bind.
    destruct (ExecuteCommand ac cmd s) as [[out [e1 | ]] s1 | s1];
      simpl; try discriminate.
    + unfold ret. intros Heq. injection Heq as <- _ _. reflexivity.
    + destruct out as [o | ]; simpl; [ | discriminate ].
      destruct (negb _); unfold ret; discriminate.
  - intros torrents e s'. unfold GetTorrents, bind.
    destruct (ExecuteCommand ac NewGetTorrentsCmd s)
      as [[out [e1 | ]] s1 | s1]; simpl; try discriminate.
    + unfold ret. intros Heq. injection Heq as <- _ _. reflexivity.
    + destruct out as [o | ]; simpl; [ | discriminate ].
      unfold get_sortType.
      destruct (GetTorrents_switch (sortType s1)
                  (arguments_Torrents (Command_Arguments o)));
        simpl; unfold ret; discriminate.
  - intros id t e s'. unfold GetTorrent, bind.
    destruct (ExecuteCommand ac _ s) as [[out [e1 | ]] s1 | s1];
      simpl; try discriminate.
    + unfold ret. intros Heq. injection Heq as <- _ _. reflexivity.
    + destruct out as [o | ]; simpl; [ | discriminate ].
      destruct (arguments_Torrents (Command_Arguments o));
        unfold ret; intros Heq; [ | discriminate ].
      injection Heq as <- _ _. reflexivity.
  - intros id withData name e s'. unfold DeleteTorrent, bind.
    destruct (GetTorrent ac id s) as [[t [e1 | ]] s1 | s1];
      simpl; try discriminate.
    + unfold ret. intros Heq. injection Heq as <- _ _. reflexivity.
    + destruct (ExecuteCommand ac (newDelCmd id withData) s1)
        as [[out [e2 | ]] s2 | s2]; simpl; try discriminate.
      * unfold ret. intros Heq. injection Heq as <- _ _. reflexivity.
      * destruct t; simpl; unfold ret; discriminate.
  - intros stats err s'. unfold GetStats, bind.
    destruct (ExecuteCommand ac _ s) as [[out [e1 | ]] s1 | s1];
      simpl; try discriminate.
    + unfold ret. intros Heq. injection Heq as <- <- _.
      split; [ discriminate | reflexivity ].
    + destruct out as [o | ]; simpl; [ | discriminate ].
      unfold ret. intros Heq. injection Heq as <- <- _.
      split; [ discriminate | intros Habs; contradiction ].
Qed.
End OperationProperties.

Section SortModeProperties.
Context `{Collaborators}.

(** X7.  The sort mode is one variable for the whole process: after
    [SetSort st] through any client, [GetTorrents] of any client arranges
    what it fetches by the switch at [st], whatever the mode was before,
    and the mode is still [st] afterwards.  [SetSort] changes nothing
    else. *)
Theorem SetSort_governs_GetTorrents
    (ac1 ac2 : TransmissionClient) (st : Sorting) (out : Command)
    (s s' : State) :
  ExecuteCommand ac2 NewGetTorrentsCmd (with_sortType st s)
  = Returned (Some out, None) s' ->
  SetSort ac1 st s = Returned tt (with_sortType st s)
  /\ (_ <- SetSort ac1 st ;; GetTorrents ac2) s
     = match GetTorrents_switch st
               (arguments_Torrents (Command_Arguments out)) with
       | Some torrents => Returned (torrents, None) s'
       | None => Panicked s'
       end
  /\ sortType s' = st.
Proof.
  intros Hexec. split; [ reflexivity | split ].
  - unfold bind at 1. unfold SetSort, put_sortType.
    fold (with_sortType st s).
    rewrite (GetTorrents_fetched _ _ _ _ Hexec). reflexivity.
  - rewrite (ExecuteCommand_sortType _ _ _ _ _ Hexec). reflexivity.
Qed.

(** X8.  [StartTorrent], [StopTorrent] and [VerifyTorrent] never panic
    and make at most one request: the serialized command that carries
    their method and exactly the ids given, in the order given.  When the
    command does not serialize nothing is posted.  They write nothing to
    the log and leave the sort mode alone. *)
Theorem simple_operations_post_once
    (ac : TransmissionClient) (s : State)
    (op : TransmissionClient -> list string -> M (string * option error))
    (method : string) (ids : list string) :
  In (op, method) simple_operations ->
  let cmd := upd_Arguments (with_Ids ids) (Command_of_Method method) in
  exists result err s',
    op ac ids s = Returned (result, err) s'
    /\ Command_Method cmd = method
    /\ arguments_Ids (Command_Arguments cmd) = ids
    /\ ((exists e, json_Marshal cmd = inr e /\ err = Some e /\ s' = s)
        \/ (exists body,
              json_Marshal cmd = inl body
              /\ posted s' = posted s ++ [(apiclient ac, body)]))
    /\ logged s' = logged s
    /\ sortType s' = sortType s.
Proof.
  intros Hin cmd.
  assert (Hop : op = fun ac ids => sendSimpleCommand ac method ids).
  { simpl in Hin. destruct Hin as [Heq | [Heq | [Heq | []]]];
      injection Heq as <- <-; reflexivity. }
  subst op. unfold sendSimpleCommand, bind. simpl app. fold cmd.
  destruct (sendCommand_cases ac cmd s)
    as [(e & Hm & Hrun)
       | [(body & e & w & Hm & Hp & Hrun)
         | (body & output & w & response & err & Hm & Hp & Hd & Hrun)]];
    rewrite Hrun; simpl; unfold ret;
    do 3 eexists; (split; [ reflexivity | ]);
    repeat split; eauto.
Qed.
End SortModeProperties.

(* ================================================================== *)
(** * The further properties on concrete runs *)

Lemma bulk_operations_send_the_fetched_hashes_witness :
  @StopAll Scripted.daemon Scripted.client
    (Scripted.start [inl [Byte.x01]; inl [Byte.x00]])
  = Returned None (Scripted.final [] SortID ["torrent-get"; "torrent-stop"])
  /\ @StartAll Scripted.daemon Scripted.client
       (Scripted.start [inl [Byte.x00]])
     = Returned (Some (TransportError "connection refused"))
         (Scripted.final [] SortID ["torrent-get"; "torrent-start"]).
Proof.
  split.
  - refine (proj1 (@bulk_operations_send_the_fetched_hashes Scripted.daemon
                     Scripted.client _ _ "torrent-stop" _)
              [Scripted.ubuntu; Scripted.debian]
              (Scripted.final [inl [Byte.x00]] SortID ["torrent-get"])
              Scripted.success None _ _ _).
    + simpl. tauto.
    + reflexivity.
    + reflexivity.
  - refine (proj1 (@bulk_operations_send_the_fetched_hashes Scripted.daemon
                     Scripted.client _ _ "torrent-start" _)
              []
              (Scripted.final [] SortID ["torrent-get"])
              zero_Command (Some (TransportError "connection refused")) _ _ _).
    + simpl. tauto.
    + reflexivity.
    + reflexivity.
Defined.

Lemma null_response_is_dereferenced_witness :
  @GetStats Scripted.daemon Scripted.client
    (Scripted.start [inl Scripted.null_body])
  = Panicked (Scripted.final [] SortID ["session-stats"])
  /\ @Version Scripted.daemon Scripted.client
       (Scripted.start [inl Scripted.null_body])
     = Returned "" (Scripted.final [] SortID ["session-get"]).
Proof.
  split.
  - apply (proj1 (proj2 (proj2 (proj2
             (@null_response_is_dereferenced Scripted.daemon Scripted.client
                (Scripted.start [inl Scripted.null_body])
                (Scripted.final [] SortID ["session-stats"])))))).
    exists "session-stats", Scripted.null_body, [].
    repeat split.
  - apply (proj2 (proj2 (proj2 (proj2
             (@null_response_is_dereferenced Scripted.daemon Scripted.client
                (Scripted.start [inl Scripted.null_body])
                (Scripted.final [] SortID ["session-get"])))))).
    exists "session-get", Scripted.null_body, [].
    repeat split.
Defined.

Lemma ExecuteCommand_logs_undecodable_responses_witness :
  exists s',
    @ExecuteCommand Scripted.daemon Scripted.client NewGetTorrentsCmd
      (Scripted.start [inl [Byte.x3c]])
    = Returned (Some zero_Command,
                Some (SerializationError "unexpected value")) s'
    /\ logged s' = [[Byte.x3c]].
Proof.
  apply (proj1 (@ExecuteCommand_logs_undecodable_responses Scripted.daemon
                  Scripted.client NewGetTorrentsCmd
                  (Scripted.start [inl [Byte.x3c]]))
           "torrent-get" [Byte.x3c] [] zero_Command
           (SerializationError "unexpected value"));
    reflexivity.
Defined.

Lemma SetSort_governs_GetTorrents_witness :
  (_ <- @SetSort Scripted.daemon Scripted.client SortRevUpSpeed ;;
   @GetTorrents Scripted.daemon Scripted.client)
    (Scripted.start [inl [Byte.x01]])
  = Returned ([Some Scripted.debian; Some Scripted.ubuntu], None)
      (Scripted.final [] SortRevUpSpeed ["torrent-get"]).
Proof.
  apply (proj1 (proj2 (@SetSort_governs_GetTorrents Scripted.daemon
                         Scripted.client Scripted.client SortRevUpSpeed
                         Scripted.list_of_two
                         (Scripted.start [inl [Byte.x01]])
                         (Scripted.final [] SortRevUpSpeed ["torrent-get"])
                         eq_refl))).
Defined.

Lemma simple_operations_post_once_witness :
  exists result err s',
    @VerifyTorrent Scripted.daemon Scripted.client ["aa11"; "bb22"]
      (Scripted.start [inl [Byte.x00]])
    = Returned (result, err) s'
    /\ posted s' = [(Scripted.rpc_url, "torrent-verify")].
Proof.
  destruct (@simple_operations_post_once Scripted.daemon Scripted.client
              (Scripted.start [inl [Byte.x00]]) _ "torrent-verify"
              ["aa11"; "bb22"] ltac:(simpl; tauto))
    as (result & err & s' & Hrun & _ & _ & Hposted & _).
  exists result, err, s'. split; [ exact Hrun | ].
  destruct Hposted as [(e & Hm & _) | (body & Hm & Hp)].
  - discriminate Hm.
  - injection Hm as <-. exact Hp.
Defined.

(* ================================================================== *)
(** * Further properties: the metainfo of an add command *)

Lemma lor_shiftl_add (hi lo n : Z) :
  0 <= n -> 0 <= lo < 2 ^ n -> Z.lor (Z.shiftl hi n) lo = hi * 2 ^ n + lo.
Proof.
  intros Hn Hlo. rewrite Z.shiftl_mul_pow2 by exact Hn.
  assert (Hland : Z.land (hi * 2 ^ n) lo = 0).
  { apply Z.bits_inj'. intros m Hm.
    rewrite Z.land_spec, Z.bits_0.
    destruct (Z.lt_ge_cases m n) as [Hlt | Hge].
    - rewrite Z.mul_pow2_bits_low by exact Hlt. reflexivity.
    - rewrite <- (Z.mod_small lo (2 ^ n)) by exact Hlo.
      rewrite Z.mod_pow2_bits_high by lia.
      apply andb_false_r. }
  rewrite <- (Z.lxor_lor _ _ Hland).
  symmetry. apply Z.add_nocarry_lxor. exact Hland.
Qed.

Lemma byteZ_range (b : Byte.byte) : 0 <= base64.byteZ b < 256.
Proof.
  unfold base64.byteZ.
  pose proof (Byte.to_N_bounded b) as Hb. lia.
Qed.

Lemma byteZ_inj (a b : Byte.byte) : base64.byteZ a = base64.byteZ b -> a = b.
Proof.
  unfold base64.byteZ. intros Heq.
  apply N2Z.inj in Heq.
  apply (f_equal Byte.of_N) in Heq.
  rewrite !Byte.of_to_N in Heq. injection Heq as ->. reflexivity.
Qed.

(** The 24 bits of a group of three bytes. *)
Lemma group_value (a b c : Byte.byte) :
  Z.lor (Z.lor (Z.shiftl (base64.byteZ a) 16) (Z.shiftl (base64.byteZ b) 8))
        (base64.byteZ c)
  = base64.byteZ a * 65536 + base64.byteZ b * 256 + base64.byteZ c.
Proof.
  pose proof (byteZ_range a) as Ha.
  pose proof (byteZ_range b) as Hb.
  pose proof (byteZ_range c) as Hc.
  replace (Z.shiftl (base64.byteZ a) 16)
    with (Z.shiftl (base64.byteZ a * 256) 8)
    by (rewrite !Z.shiftl_mul_pow2 by lia;
        change (2 ^ 8) with 256; change (2 ^ 16) with 65536; lia).
  rewrite <- Z.shiftl_lor.
  rewrite (lor_shiftl_add _ (base64.byteZ c) 8)
    by (change (2 ^ 8) with 256; lia).
  replace (Z.lor (base64.byteZ a * 256) (base64.byteZ b))
    with (Z.lor (Z.shiftl (base64.byteZ a) 8) (base64.byteZ b))
    by (rewrite Z.shiftl_mul_pow2 by lia; reflexivity).
  rewrite (lor_shiftl_add _ (base64.byteZ b) 8)
    by (change (2 ^ 8) with 256; lia).
  change (2 ^ 8) with 256. lia.
Qed.

Lemma pair_value (a b : Byte.byte) :
  Z.lor (Z.shiftl (base64.byteZ a) 16) (Z.shiftl (base64.byteZ b) 8)
  = base64.byteZ a * 65536 + base64.byteZ b * 256.
Proof.
  pose proof (byteZ_range a) as Ha.
  pose proof (byteZ_range b) as Hb.
  replace (Z.shiftl (base64.byteZ a) 16)
    with (Z.shiftl (base64.byteZ a * 256) 8)
    by (rewrite !Z.shiftl_mul_pow2 by lia;
        change (2 ^ 8) with 256; change (2 ^ 16) with 65536; lia).
  rewrite <- Z.shiftl_lor.
  replace (Z.lor (base64.byteZ a * 256) (base64.byteZ b))
    with (Z.lor (Z.shiftl (base64.byteZ a) 8) (base64.byteZ b))
    by (rewrite Z.shiftl_mul_pow2 by lia; reflexivity).
  rewrite (lor_shiftl_add _ (base64.byteZ b) 8)
    by (change (2 ^ 8) with 256; lia).
  rewrite Z.shiftl_mul_pow2 by lia. change (2 ^ 8) with 256. lia.
Qed.

(** The sextet a character of the alphabet stands for. *)
Lemma sextet_range (v : Z) : 0 <= Z.land v 63 < 64.
Proof.
  change 63 with (Z.ones 6). rewrite Z.land_ones by lia.
  change (2 ^ 6) with 64. apply Z.mod_pos_bound. lia.
Qed.

Lemma sextet_mod (v : Z) : Z.land v 63 = v mod 64.
Proof. change 63 with (Z.ones 6). rewrite Z.land_ones by lia. reflexivity. Qed.

Lemma alphabet_NoDup : NoDup (list_ascii_of_string base64.encodeStd).
Proof.
  replace (list_ascii_of_string base64.encodeStd)
    with (nodup ascii_dec (list_ascii_of_string base64.encodeStd))
    by (vm_compute; reflexivity).
  apply NoDup_nodup.
Qed.

Lemma encode_inj (v w : Z) :
  base64.encode v = base64.encode w -> v mod 64 = w mod 64.
Proof.
  unfold base64.encode. intros Heq.
  pose proof (sextet_range v) as Hv. pose proof (sextet_range w) as Hw.
  rewrite <- !sextet_mod.
  apply (proj1 (NoDup_nth _ base64.StdPadding) alphabet_NoDup) in Heq.
  - apply Z2Nat.inj; lia.
  - change (List.length (list_ascii_of_string base64.encodeStd)) with 64%nat.
    lia.
  - change (List.length (list_ascii_of_string base64.encodeStd)) with 64%nat.
    lia.
Qed.

Lemma encode_not_padding (v : Z) : base64.encode v <> base64.StdPadding.
Proof.
  unfold base64.encode. intros Heq.
  pose proof (sextet_range v) as Hv.
  assert (Hin : In base64.StdPadding (list_ascii_of_string base64.encodeStd)).
  { rewrite <- Heq. apply nth_In.
    change (List.length (list_ascii_of_string base64.encodeStd)) with 64%nat.
    lia. }
  assert (Hout : existsb (Ascii.eqb base64.StdPadding)
                         (list_ascii_of_string base64.encodeStd) = false)
    by (vm_compute; reflexivity).
  apply not_true_iff_false in Hout. apply Hout.
  apply existsb_exists. exists base64.StdPadding.
  split; [ exact Hin | apply Ascii.eqb_refl ].
Qed.

(** The sextets of a group determine its bytes. *)
Lemma sextets_of_one (a a' : Z) :
  0 <= a < 256 -> 0 <= a' < 256 ->
  (a * 65536 / 262144) mod 64 = (a' * 65536 / 262144) mod 64 ->
  (a * 65536 / 4096) mod 64 = (a' * 65536 / 4096) mod 64 ->
  a = a'.
Proof. intros. Z.div_mod_to_equations. lia. Qed.

Lemma sextets_of_two (a b a' b' : Z) :
  0 <= a < 256 -> 0 <= b < 256 -> 0 <= a' < 256 -> 0 <= b' < 256 ->
  ((a * 65536 + b * 256) / 262144) mod 64
  = ((a' * 65536 + b' * 256) / 262144) mod 64 ->
  ((a * 65536 + b * 256) / 4096) mod 64
  = ((a' * 65536 + b' * 256) / 4096) mod 64 ->
  ((a * 65536 + b * 256) / 64) mod 64
  = ((a' * 65536 + b' * 256) / 64) mod 64 ->
  a = a' /\ b = b'.
Proof. intros. Z.div_mod_to_equations. lia. Qed.

Lemma sextets_of_three (a b c a' b' c' : Z) :
  0 <= a < 256 -> 0 <= b < 256 -> 0 <= c < 256 ->
  0 <= a' < 256 -> 0 <= b' < 256 -> 0 <= c' < 256 ->
  ((a * 65536 + b * 256 + c) / 262144) mod 64
  = ((a' * 65536 + b' * 256 + c') / 262144) mod 64 ->
  ((a * 65536 + b * 256 + c) / 4096) mod 64
  = ((a' * 65536 + b' * 256 + c') / 4096) mod 64 ->
  ((a * 65536 + b * 256 + c) / 64) mod 64
  = ((a' * 65536 + b' * 256 + c') / 64) mod 64 ->
  (a * 65536 + b * 256 + c) mod 64 = (a' * 65536 + b' * 256 + c') mod 64 ->
  a = a' /\ b = b' /\ c = c'.
Proof. intros. Z.div_mod_to_equations. lia. Qed.

Lemma String_inj (c c' : ascii) (s s' : string) :
  String c s = String c' s' -> c = c' /\ s = s'.
Proof. intros Heq. injection Heq as -> ->. split; reflexivity. Qed.

(** The encoding loses nothing: two byte sequences with the same base64
    text are the same sequence. *)
Lemma EncodeToString_injective (src : bytes) :
  forall src',
    base64.EncodeToString src = base64.EncodeToString src' -> src = src'.
Proof.
  assert (Hshift : forall v n, 0 <= n -> Z.shiftr v n = v / 2 ^ n)
    by (intros; apply Z.shiftr_div_pow2; assumption).
  remember (List.length src) as n eqn:Hn.
  revert src Hn.
  induction n as [n IH] using lt_wf_ind. intros src Hn src' Henc.
  destruct src as [ | a [ | b [ | c rest ] ] ];
    destruct src' as [ | a' [ | b' [ | c' rest' ] ] ];
    try reflexivity; try discriminate Henc;
    cbn [base64.EncodeToString] in Henc;
    apply String_inj in Henc; destruct Henc as [H1 Henc];
    apply String_inj in Henc; destruct Henc as [H2 Henc];
    apply String_inj in Henc; destruct Henc as [H3 Henc];
    apply String_inj in Henc; destruct Henc as [H4 Hrest];
    try (exfalso; first [ exact (encode_not_padding _ H3)
                        | exact (encode_not_padding _ (eq_sym H3))
                        | exact (encode_not_padding _ H4)
                        | exact (encode_not_padding _ (eq_sym H4)) ]).
  - apply encode_inj in H1, H2.
    rewrite !Hshift in H1, H2 by lia.
    rewrite !Z.shiftl_mul_pow2 in H1, H2 by lia.
    f_equal. apply byteZ_inj.
    exact (sextets_of_one _ _ (byteZ_range a) (byteZ_range a') H1 H2).
  - apply encode_inj in H1, H2, H3.
    rewrite !pair_value in H1, H2, H3.
    rewrite !Hshift in H1, H2, H3 by lia.
    destruct (sextets_of_two _ _ _ _ (byteZ_range a) (byteZ_range b)
                (byteZ_range a') (byteZ_range b') H1 H2 H3) as [Ea Eb].
    apply byteZ_inj in Ea, Eb. subst. reflexivity.
  - apply encode_inj in H1, H2, H3, H4.
    rewrite !group_value in H1, H2, H3, H4.
    rewrite !Hshift in H1, H2, H3 by lia.
    destruct (sextets_of_three _ _ _ _ _ _
                (byteZ_range a) (byteZ_range b) (byteZ_range c)
                (byteZ_range a') (byteZ_range b') (byteZ_range c')
                H1 H2 H3 H4) as (Ea & Eb & Ec).
    apply byteZ_inj in Ea, Eb, Ec. subst a' b' c'.
    do 3 f_equal.
    apply (IH (List.length rest)); [ subst n; simpl; lia | reflexivity | ].
    exact Hrest.
Qed.

(** X17.  The metainfo of an add command determines the bytes it was
    built from: [NewAddCmdByBytes] gives the same command only for the
    same byte sequence, so two different torrents never give the same
    add command. *)
Theorem NewAddCmdByBytes_injective (b b' : bytes) :
  NewAddCmdByBytes b = NewAddCmdByBytes b' -> b = b'.
Proof.
  unfold NewAddCmdByBytes. intros Heq.
  injection Heq as Heq.
  apply EncodeToString_injective. exact Heq.
Qed.

Lemma NewAddCmdByBytes_injective_witness :
  Scripted.torrent_file = [Byte.x64; Byte.x38; Byte.x3a].
Proof.
  apply (NewAddCmdByBytes_injective Scripted.torrent_file
           [Byte.x64; Byte.x38; Byte.x3a]).
  reflexivity.
Defined.

Section AddResultProperties.
Context `{Collaborators}.

(** X18.  The descriptor [ExecuteAddCommand] returns without an error has
    an empty hashString exactly when both descriptors of the response
    have one: a non-empty hash in either torrent-duplicate or
    torrent-added always reaches the caller. *)
Theorem ExecuteAddCommand_hash (ac : TransmissionClient)
    (addCmd out : Command) (s s' : State) :
  ExecuteCommand ac addCmd s = Returned (Some out, None) s' ->
  exists result,
    ExecuteAddCommand ac addCmd s = Returned (result, None) s'
    /\ (TorrentAdded_HashString result = "" <->
        TorrentAdded_HashString
          (arguments_TorrentDuplicate (Command_Arguments out)) = ""
        /\ TorrentAdded_HashString
             (arguments_TorrentAdded (Command_Arguments out)) = "").
Proof.
  intros Hexec. unfold ExecuteAddCommand, bind. rewrite Hexec. simpl.
  destruct (String.eqb_spec
              (TorrentAdded_HashString
                 (arguments_TorrentDuplicate (Command_Arguments out))) "")
    as [Hempty | Hfull]; simpl; eexists; (split; [ reflexivity | ]).
  - rewrite Hempty. tauto.
  - tauto.
Qed.
End AddResultProperties.

Lemma ExecuteAddCommand_hash_witness :
  exists result s',
    @ExecuteAddCommand Scripted.daemon Scripted.client
      (NewAddCmdByURL "magnet:?xt=urn:btih:cc33")
      (Scripted.start [inl [Byte.x03]])
    = Returned (result, None) s'
    /\ TorrentAdded_HashString result <> "".
Proof.
  destruct (@ExecuteAddCommand_hash Scripted.daemon Scripted.client
              (NewAddCmdByURL "magnet:?xt=urn:btih:cc33") Scripted.fresh_add
              (Scripted.start [inl [Byte.x03]])
              (Scripted.final [] SortID ["torrent-add"]) eq_refl)
    as (result & Hrun & Hhash).
  exists result, (Scripted.final [] SortID ["torrent-add"]).
  split; [ exact Hrun | ].
  intros Hempty. apply Hhash in Hempty. destruct Hempty as [_ Hadded].
  discriminate Hadded.
Defined.
